(** * wgtk.py: the PasswdGroupShadow consistency engine

    A shallow embedding of [src/python3/wgtk.py].  The class
    [PasswdGroupShadow] holds the parsed content of /etc/passwd, /etc/group,
    /etc/shadow, /etc/subuid and /etc/subgid, classifies every record into a
    category, verifies the result in two stages, repairs it ([_fixate]) and
    offers a small mutation API.

    Modelling choices.
    - Python [str] is [string] (a byte sequence; byte-wise lexicographic order
      of UTF-8 text coincides with Python's code-point order).
    - Python [int] is [Z].
    - A Python [dict] keyed by names is a [gmap string _]; a Python [list] is
      a [list].
    - A method is a computation in the monad [M]: it receives the object,
      and yields an outcome (a value or a raised exception) together with
      the object as it is at that moment.  A raised exception therefore does
      not undo the assignments made before it, exactly as in Python.
    - A list is a value.  [_fixate] leaves [perUserGroupList] and
      [normalUserList] (and a category list and its class constant) bound to
      one Python list object.  [_fixate] is called by [close] only, which
      ends the life of the object: it clears [valid], and every method
      asserts [valid] first.  [_fixate] itself and [verify] do not tell one
      list bound twice from two equal lists, so the sharing is not
      observable in any run considered here.
    - Iterating a dictionary visits its keys in an order the embedding does
      not fix; the source's loops over dictionaries are membership tests and
      per-key updates, whose result does not depend on that order.
    - The two library calls the class relies on, the built-in [int] and
      passlib's [hosts.linux_context.encrypt], are the fields of the class
      [Externals]; either can raise.  The regular-expression search of
      [_parseLoginDef] and the outcome of [_lockPwd] are arguments of the
      definitions that use them.
    - A file is its content, a [string], or [None] when it does not exist.
      Files are read in text mode, as [_readFile] opens them, and written
      as the writers write them, with the line feed as line separator. *)

From Stdlib Require Import ZArith String Ascii List Lia.
From stdpp Require Import base gmap strings list fin_maps sorting.

Open Scope Z_scope.

(** ** Python strings and lists *)

Module Py.

(** [s.split(sep)] for a one-character separator. *)
Fixpoint split (sep : ascii) (s : string) : list string :=
  match s with
  | EmptyString => [EmptyString]
  | String c s' =>
      if Ascii.eqb c sep then EmptyString :: split sep s'
      else match split sep s' with
           | [] => [String c EmptyString]
           | w :: ws => String c w :: ws
           end
  end.

(** [sep.join(l)]. *)
Fixpoint join (sep : string) (l : list string) : string :=
  match l with
  | [] => EmptyString
  | x :: l' =>
      match l' with
      | [] => x
      | _ :: _ => x +:+ sep +:+ join sep l'
      end
  end.

(** [s.startswith(p)]. *)
Definition startswith (p s : string) : bool := String.prefix p s.

(** [x in l] for a list of strings or of integers. *)
Definition mem {A} `{EqDecision A} (x : A) (l : list A) : bool :=
  bool_decide (x ∈ l).

(** [l.remove(x)]: drops the first occurrence of [x]; Python raises
    [ValueError] when there is none, which every call site excludes by a
    preceding [x in l] test. *)
Fixpoint remove {A} `{EqDecision A} (x : A) (l : list A) : list A :=
  match l with
  | [] => []
  | y :: l' => if decide (x = y) then l' else y :: remove x l'
  end.

(** [set(l1) == set(l2)] and [set(l1) >= set(l2)] on lists. *)
Definition set_ge (l1 l2 : list string) : bool :=
  forallb (λ x, mem x l1) l2.

Definition set_eq (l1 l2 : list string) : bool :=
  set_ge l1 l2 && set_ge l2 l1.

(** Python's [list.sort] and [sorted] are stable, and a stable sort has a
    unique result; insertion from the right is one.  [le] is the order of
    the compared values. *)
Fixpoint insert_le {A} (le : A → A → bool) (x : A) (l : list A) : list A :=
  match l with
  | [] => [x]
  | y :: l' => if le x y then x :: y :: l' else y :: insert_le le x l'
  end.

Definition sort_le {A} (le : A → A → bool) (l : list A) : list A :=
  foldr (insert_le le) [] l.

(** [l.sort(key=...)] once the keys are computed: CPython pairs every
    element with its key, sorts the pairs by key and drops the keys. *)
Definition sort_keyed {K A} (le : K → K → bool) (keys : list K) (l : list A)
    : list A :=
  (sort_le (λ p q, le p.1 q.1) (zip keys l)).*2.

(** [sorted(l)] on integers and on strings. *)
Definition sorted_int (l : list Z) : list Z := sort_le Z.leb l.

Definition sorted_str (l : list string) : list string := sort_le String.leb l.

(** [l[i:i+n]]: slicing never raises. *)
Definition slice {A} (l : list A) (i n : nat) : list A := take n (drop i l).

(** The values of a dictionary, in the dictionary's iteration order. *)
Definition values {V} (d : gmap string V) : list V := (map_to_list d).*2.

Definition keys {V} (d : gmap string V) : list string := (map_to_list d).*1.

Definition items {V} (d : gmap string V) : list (string * V) := map_to_list d.

End Py.

(** The comprehension [[x for x in gr_mem.split(",") if x != ""]], written
    out in the source at every place a member field is read (and once more
    as the unused helper [_nonEmptySplit]). *)
Definition _nonEmptySplit (theStr : string) (delimiter : ascii) : list string :=
  filter (λ i, i ≠ EmptyString) (Py.split delimiter theStr).

Definition comma : ascii := ","%char.

(** ** Exceptions *)

Inductive Exn : Type :=
  | AssertionError
  | KeyError (key : string)
  | AttributeError (attr : string)
  | ValueError
  | ZeroDivisionError
  | FileNotFoundError
  | PgsFormatError
  | PgsLockError
  | PgsAddUserError
  | PgsAddGroupError
  | PgsAddUserToGroupError
  | LoopBound.   (* not a Python exception: a loop of the model ran out of fuel *)

#[global] Instance Exn_eq_dec : EqDecision Exn.
Proof. solve_decision. Defined.

Inductive Outcome (A : Type) : Type :=
  | Return (a : A)
  | Raise (e : Exn).
Arguments Return {A} a.
Arguments Raise {A} e.

(** ** Records *)

Record _PwdEntry : Type := mk_PwdEntry {
  pw_name : string;
  pw_passwd : string;
  pw_uid : Z;
  pw_gid : Z;
  pw_gecos : string;
  pw_dir : string;
  pw_shell : string
}.

Record _GrpEntry : Type := mk_GrpEntry {
  gr_name : string;
  gr_passwd : string;
  gr_gid : Z;
  gr_mem : string
}.

Record _ShadowEntry : Type := mk_ShadowEntry {
  sh_name : string;
  sh_encpwd : string
}.

Record _SubUidGidEntry : Type := mk_SubUidGidEntry {
  name : string;
  start : Z;
  count : Z
}.

#[global] Instance _PwdEntry_eq_dec : EqDecision _PwdEntry.
Proof. solve_decision. Defined.
#[global] Instance _GrpEntry_eq_dec : EqDecision _GrpEntry.
Proof. solve_decision. Defined.
#[global] Instance _ShadowEntry_eq_dec : EqDecision _ShadowEntry.
Proof. solve_decision. Defined.
#[global] Instance _SubUidGidEntry_eq_dec : EqDecision _SubUidGidEntry.
Proof. solve_decision. Defined.

(** Attribute access by name on a group entry.  A [_GrpEntry] object has
    exactly the four attributes its constructor assigns; reading any other
    name raises [AttributeError]. *)
Inductive PyVal : Type :=
  | VStr (s : string)
  | VInt (z : Z).

#[global] Instance PyVal_eq_dec : EqDecision PyVal.
Proof. solve_decision. Defined.

Definition _GrpEntry_getattr (e : _GrpEntry) (attr : string) : Outcome PyVal :=
  if String.eqb attr "gr_name" then Return (VStr (gr_name e))
  else if String.eqb attr "gr_passwd" then Return (VStr (gr_passwd e))
  else if String.eqb attr "gr_gid" then Return (VInt (gr_gid e))
  else if String.eqb attr "gr_mem" then Return (VStr (gr_mem e))
  else Raise (AttributeError attr).

(** In-place attribute assignments. *)
Definition with_pw_gecos (v : string) (e : _PwdEntry) : _PwdEntry :=
  {| pw_name := pw_name e; pw_passwd := pw_passwd e; pw_uid := pw_uid e;
     pw_gid := pw_gid e; pw_gecos := v; pw_dir := pw_dir e;
     pw_shell := pw_shell e |}.

Definition with_pw_shell (v : string) (e : _PwdEntry) : _PwdEntry :=
  {| pw_name := pw_name e; pw_passwd := pw_passwd e; pw_uid := pw_uid e;
     pw_gid := pw_gid e; pw_gecos := pw_gecos e; pw_dir := pw_dir e;
     pw_shell := v |}.

Definition with_gr_mem (v : string) (e : _GrpEntry) : _GrpEntry :=
  {| gr_name := gr_name e; gr_passwd := gr_passwd e; gr_gid := gr_gid e;
     gr_mem := v |}.

Definition with_sh_encpwd (v : string) (e : _ShadowEntry) : _ShadowEntry :=
  {| sh_name := sh_name e; sh_encpwd := v |}.

(** The numeric policy read from login.defs by [_parseLoginDef]. *)
Record LoginDefs : Type := mkLoginDefs {
  uidMin : Z;
  uidMax : Z;
  gidMin : Z;
  gidMax : Z;
  subUidMin : Z;
  subUidMax : Z;
  subUidCount : Z;
  subGidMin : Z;
  subGidMax : Z;
  subGidCount : Z
}.

(** ** The object

    The attributes of a [PasswdGroupShadow] instance that the verified methods
    read or write.  [defs] groups the ten values of login.defs; [gshadowFile]
    is the content of /etc/gshadow ([None] when the file does not exist),
    which [_readFile] reads. *)
Record PasswdGroupShadow : Type := mkPGS {
  valid : bool;
  defs : LoginDefs;
  systemUserList : list string;
  normalUserList : list string;
  softwareUserList : list string;
  deprecatedUserList : list string;
  pwdDict : gmap string _PwdEntry;
  systemGroupList : list string;
  deviceGroupList : list string;
  perUserGroupList : list string;
  standAloneGroupList : list string;
  softwareGroupList : list string;
  deprecatedGroupList : list string;
  secondaryGroupsDict : gmap string (list string);
  grpDict : gmap string _GrpEntry;
  shadowEntryList : list string;
  shDict : gmap string _ShadowEntry;
  subUidEntryList : list string;
  subUidDict : gmap string _SubUidGidEntry;
  subGidEntryList : list string;
  subGidDict : gmap string _SubUidGidEntry;
  gshadowFile : option string
}.

Definition set_valid (f : bool → bool) (self : PasswdGroupShadow) : PasswdGroupShadow :=
  {| valid := f (valid self); defs := defs self; systemUserList := systemUserList self;
     normalUserList := normalUserList self; softwareUserList := softwareUserList self;
     deprecatedUserList := deprecatedUserList self; pwdDict := pwdDict self;
     systemGroupList := systemGroupList self; deviceGroupList := deviceGroupList self;
     perUserGroupList := perUserGroupList self;
     standAloneGroupList := standAloneGroupList self;
     softwareGroupList := softwareGroupList self;
     deprecatedGroupList := deprecatedGroupList self;
     secondaryGroupsDict := secondaryGroupsDict self; grpDict := grpDict self;
     shadowEntryList := shadowEntryList self; shDict := shDict self;
     subUidEntryList := subUidEntryList self; subUidDict := subUidDict self;
     subGidEntryList := subGidEntryList self; subGidDict := subGidDict self;
     gshadowFile := gshadowFile self |}.

Definition set_systemUserList (f : list string → list string) (self : PasswdGroupShadow) : PasswdGroupShadow :=
  {| valid := valid self; defs := defs self; systemUserList := f (systemUserList self);
     normalUserList := normalUserList self; softwareUserList := softwareUserList self;
     deprecatedUserList := deprecatedUserList self; pwdDict := pwdDict self;
     systemGroupList := systemGroupList self; deviceGroupList := deviceGroupList self;
     perUserGroupList := perUserGroupList self;
     standAloneGroupList := standAloneGroupList self;
     softwareGroupList := softwareGroupList self;
     deprecatedGroupList := deprecatedGroupList self;
     secondaryGroupsDict := secondaryGroupsDict self; grpDict := grpDict self;
     shadowEntryList := shadowEntryList self; shDict := shDict self;
     subUidEntryList := subUidEntryList self; subUidDict := subUidDict self;
     subGidEntryList := subGidEntryList self; subGidDict := subGidDict self;
     gshadowFile := gshadowFile self |}.

Definition set_normalUserList (f : list string → list string) (self : PasswdGroupShadow) : PasswdGroupShadow :=
  {| valid := valid self; defs := defs self; systemUserList := systemUserList self;
     normalUserList := f (normalUserList self); softwareUserList := softwareUserList self;
     deprecatedUserList := deprecatedUserList self; pwdDict := pwdDict self;
     systemGroupList := systemGroupList self; deviceGroupList := deviceGroupList self;
     perUserGroupList := perUserGroupList self;
     standAloneGroupList := standAloneGroupList self;
     softwareGroupList := softwareGroupList self;
     deprecatedGroupList := deprecatedGroupList self;
     secondaryGroupsDict := secondaryGroupsDict self; grpDict := grpDict self;
     shadowEntryList := shadowEntryList self; shDict := shDict self;
     subUidEntryList := subUidEntryList self; subUidDict := subUidDict self;
     subGidEntryList := subGidEntryList self; subGidDict := subGidDict self;
     gshadowFile := gshadowFile self |}.

Definition set_softwareUserList (f : list string → list string) (self : PasswdGroupShadow) : PasswdGroupShadow :=
  {| valid := valid self; defs := defs self; systemUserList := systemUserList self;
     normalUserList := normalUserList self; softwareUserList := f (softwareUserList self);
     deprecatedUserList := deprecatedUserList self; pwdDict := pwdDict self;
     systemGroupList := systemGroupList self; deviceGroupList := deviceGroupList self;
     perUserGroupList := perUserGroupList self;
     standAloneGroupList := standAloneGroupList self;
     softwareGroupList := softwareGroupList self;
     deprecatedGroupList := deprecatedGroupList self;
     secondaryGroupsDict := secondaryGroupsDict self; grpDict := grpDict self;
     shadowEntryList := shadowEntryList self; shDict := shDict self;
     subUidEntryList := subUidEntryList self; subUidDict := subUidDict self;
     subGidEntryList := subGidEntryList self; subGidDict := subGidDict self;
     gshadowFile := gshadowFile self |}.

Definition set_deprecatedUserList (f : list string → list string) (self : PasswdGroupShadow) : PasswdGroupShadow :=
  {| valid := valid self; defs := defs self; systemUserList := systemUserList self;
     normalUserList := normalUserList self; softwareUserList := softwareUserList self;
     deprecatedUserList := f (deprecatedUserList self); pwdDict := pwdDict self;
     systemGroupList := systemGroupList self; deviceGroupList := deviceGroupList self;
     perUserGroupList := perUserGroupList self;
     standAloneGroupList := standAloneGroupList self;
     softwareGroupList := softwareGroupList self;
     deprecatedGroupList := deprecatedGroupList self;
     secondaryGroupsDict := secondaryGroupsDict self; grpDict := grpDict self;
     shadowEntryList := shadowEntryList self; shDict := shDict self;
     subUidEntryList := subUidEntryList self; subUidDict := subUidDict self;
     subGidEntryList := subGidEntryList self; subGidDict := subGidDict self;
     gshadowFile := gshadowFile self |}.

Definition set_pwdDict (f : gmap string _PwdEntry → gmap string _PwdEntry) (self : PasswdGroupShadow) : PasswdGroupShadow :=
  {| valid := valid self; defs := defs self; systemUserList := systemUserList self;
     normalUserList := normalUserList self; softwareUserList := softwareUserList self;
     deprecatedUserList := deprecatedUserList self; pwdDict := f (pwdDict self);
     systemGroupList := systemGroupList self; deviceGroupList := deviceGroupList self;
     perUserGroupList := perUserGroupList self;
     standAloneGroupList := standAloneGroupList self;
     softwareGroupList := softwareGroupList self;
     deprecatedGroupList := deprecatedGroupList self;
     secondaryGroupsDict := secondaryGroupsDict self; grpDict := grpDict self;
     shadowEntryList := shadowEntryList self; shDict := shDict self;
     subUidEntryList := subUidEntryList self; subUidDict := subUidDict self;
     subGidEntryList := subGidEntryList self; subGidDict := subGidDict self;
     gshadowFile := gshadowFile self |}.

Definition set_systemGroupList (f : list string → list string) (self : PasswdGroupShadow) : PasswdGroupShadow :=
  {| valid := valid self; defs := defs self; systemUserList := systemUserList self;
     normalUserList := normalUserList self; softwareUserList := softwareUserList self;
     deprecatedUserList := deprecatedUserList self; pwdDict := pwdDict self;
     systemGroupList := f (systemGroupList self); deviceGroupList := deviceGroupList self;
     perUserGroupList := perUserGroupList self;
     standAloneGroupList := standAloneGroupList self;
     softwareGroupList := softwareGroupList self;
     deprecatedGroupList := deprecatedGroupList self;
     secondaryGroupsDict := secondaryGroupsDict self; grpDict := grpDict self;
     shadowEntryList := shadowEntryList self; shDict := shDict self;
     subUidEntryList := subUidEntryList self; subUidDict := subUidDict self;
     subGidEntryList := subGidEntryList self; subGidDict := subGidDict self;
     gshadowFile := gshadowFile self |}.

Definition set_deviceGroupList (f : list string → list string) (self : PasswdGroupShadow) : PasswdGroupShadow :=
  {| valid := valid self; defs := defs self; systemUserList := systemUserList self;
     normalUserList := normalUserList self; softwareUserList := softwareUserList self;
     deprecatedUserList := deprecatedUserList self; pwdDict := pwdDict self;
     systemGroupList := systemGroupList self; deviceGroupList := f (deviceGroupList self);
     perUserGroupList := perUserGroupList self;
     standAloneGroupList := standAloneGroupList self;
     softwareGroupList := softwareGroupList self;
     deprecatedGroupList := deprecatedGroupList self;
     secondaryGroupsDict := secondaryGroupsDict self; grpDict := grpDict self;
     shadowEntryList := shadowEntryList self; shDict := shDict self;
     subUidEntryList := subUidEntryList self; subUidDict := subUidDict self;
     subGidEntryList := subGidEntryList self; subGidDict := subGidDict self;
     gshadowFile := gshadowFile self |}.

Definition set_perUserGroupList (f : list string → list string) (self : PasswdGroupShadow) : PasswdGroupShadow :=
  {| valid := valid self; defs := defs self; systemUserList := systemUserList self;
     normalUserList := normalUserList self; softwareUserList := softwareUserList self;
     deprecatedUserList := deprecatedUserList self; pwdDict := pwdDict self;
     systemGroupList := systemGroupList self; deviceGroupList := deviceGroupList self;
     perUserGroupList := f (perUserGroupList self);
     standAloneGroupList := standAloneGroupList self;
     softwareGroupList := softwareGroupList self;
     deprecatedGroupList := deprecatedGroupList self;
     secondaryGroupsDict := secondaryGroupsDict self; grpDict := grpDict self;
     shadowEntryList := shadowEntryList self; shDict := shDict self;
     subUidEntryList := subUidEntryList self; subUidDict := subUidDict self;
     subGidEntryList := subGidEntryList self; subGidDict := subGidDict self;
     gshadowFile := gshadowFile self |}.

Definition set_standAloneGroupList (f : list string → list string) (self : PasswdGroupShadow) : PasswdGroupShadow :=
  {| valid := valid self; defs := defs self; systemUserList := systemUserList self;
     normalUserList := normalUserList self; softwareUserList := softwareUserList self;
     deprecatedUserList := deprecatedUserList self; pwdDict := pwdDict self;
     systemGroupList := systemGroupList self; deviceGroupList := deviceGroupList self;
     perUserGroupList := perUserGroupList self;
     standAloneGroupList := f (standAloneGroupList self);
     softwareGroupList := softwareGroupList self;
     deprecatedGroupList := deprecatedGroupList self;
     secondaryGroupsDict := secondaryGroupsDict self; grpDict := grpDict self;
     shadowEntryList := shadowEntryList self; shDict := shDict self;
     subUidEntryList := subUidEntryList self; subUidDict := subUidDict self;
     subGidEntryList := subGidEntryList self; subGidDict := subGidDict self;
     gshadowFile := gshadowFile self |}.

Definition set_softwareGroupList (f : list string → list string) (self : PasswdGroupShadow) : PasswdGroupShadow :=
  {| valid := valid self; defs := defs self; systemUserList := systemUserList self;
     normalUserList := normalUserList self; softwareUserList := softwareUserList self;
     deprecatedUserList := deprecatedUserList self; pwdDict := pwdDict self;
     systemGroupList := systemGroupList self; deviceGroupList := deviceGroupList self;
     perUserGroupList := perUserGroupList self;
     standAloneGroupList := standAloneGroupList self;
     softwareGroupList := f (softwareGroupList self);
     deprecatedGroupList := deprecatedGroupList self;
     secondaryGroupsDict := secondaryGroupsDict self; grpDict := grpDict self;
     shadowEntryList := shadowEntryList self; shDict := shDict self;
     subUidEntryList := subUidEntryList self; subUidDict := subUidDict self;
     subGidEntryList := subGidEntryList self; subGidDict := subGidDict self;
     gshadowFile := gshadowFile self |}.

Definition set_deprecatedGroupList (f : list string → list string) (self : PasswdGroupShadow) : PasswdGroupShadow :=
  {| valid := valid self; defs := defs self; systemUserList := systemUserList self;
     normalUserList := normalUserList self; softwareUserList := softwareUserList self;
     deprecatedUserList := deprecatedUserList self; pwdDict := pwdDict self;
     systemGroupList := systemGroupList self; deviceGroupList := deviceGroupList self;
     perUserGroupList := perUserGroupList self;
     standAloneGroupList := standAloneGroupList self;
     softwareGroupList := softwareGroupList self;
     deprecatedGroupList := f (deprecatedGroupList self);
     secondaryGroupsDict := secondaryGroupsDict self; grpDict := grpDict self;
     shadowEntryList := shadowEntryList self; shDict := shDict self;
     subUidEntryList := subUidEntryList self; subUidDict := subUidDict self;
     subGidEntryList := subGidEntryList self; subGidDict := subGidDict self;
     gshadowFile := gshadowFile self |}.

Definition set_secondaryGroupsDict (f : gmap string (list string) → gmap string (list string)) (self : PasswdGroupShadow) : PasswdGroupShadow :=
  {| valid := valid self; defs := defs self; systemUserList := systemUserList self;
     normalUserList := normalUserList self; softwareUserList := softwareUserList self;
     deprecatedUserList := deprecatedUserList self; pwdDict := pwdDict self;
     systemGroupList := systemGroupList self; deviceGroupList := deviceGroupList self;
     perUserGroupList := perUserGroupList self;
     standAloneGroupList := standAloneGroupList self;
     softwareGroupList := softwareGroupList self;
     deprecatedGroupList := deprecatedGroupList self;
     secondaryGroupsDict := f (secondaryGroupsDict self); grpDict := grpDict self;
     shadowEntryList := shadowEntryList self; shDict := shDict self;
     subUidEntryList := subUidEntryList self; subUidDict := subUidDict self;
     subGidEntryList := subGidEntryList self; subGidDict := subGidDict self;
     gshadowFile := gshadowFile self |}.

Definition set_grpDict (f : gmap string _GrpEntry → gmap string _GrpEntry) (self : PasswdGroupShadow) : PasswdGroupShadow :=
  {| valid := valid self; defs := defs self; systemUserList := systemUserList self;
     normalUserList := normalUserList self; softwareUserList := softwareUserList self;
     deprecatedUserList := deprecatedUserList self; pwdDict := pwdDict self;
     systemGroupList := systemGroupList self; deviceGroupList := deviceGroupList self;
     perUserGroupList := perUserGroupList self;
     standAloneGroupList := standAloneGroupList self;
     softwareGroupList := softwareGroupList self;
     deprecatedGroupList := deprecatedGroupList self;
     secondaryGroupsDict := secondaryGroupsDict self; grpDict := f (grpDict self);
     shadowEntryList := shadowEntryList self; shDict := shDict self;
     subUidEntryList := subUidEntryList self; subUidDict := subUidDict self;
     subGidEntryList := subGidEntryList self; subGidDict := subGidDict self;
     gshadowFile := gshadowFile self |}.

Definition set_shadowEntryList (f : list string → list string) (self : PasswdGroupShadow) : PasswdGroupShadow :=
  {| valid := valid self; defs := defs self; systemUserList := systemUserList self;
     normalUserList := normalUserList self; softwareUserList := softwareUserList self;
     deprecatedUserList := deprecatedUserList self; pwdDict := pwdDict self;
     systemGroupList := systemGroupList self; deviceGroupList := deviceGroupList self;
     perUserGroupList := perUserGroupList self;
     standAloneGroupList := standAloneGroupList self;
     softwareGroupList := softwareGroupList self;
     deprecatedGroupList := deprecatedGroupList self;
     secondaryGroupsDict := secondaryGroupsDict self; grpDict := grpDict self;
     shadowEntryList := f (shadowEntryList self); shDict := shDict self;
     subUidEntryList := subUidEntryList self; subUidDict := subUidDict self;
     subGidEntryList := subGidEntryList self; subGidDict := subGidDict self;
     gshadowFile := gshadowFile self |}.

Definition set_shDict (f : gmap string _ShadowEntry → gmap string _ShadowEntry) (self : PasswdGroupShadow) : PasswdGroupShadow :=
  {| valid := valid self; defs := defs self; systemUserList := systemUserList self;
     normalUserList := normalUserList self; softwareUserList := softwareUserList self;
     deprecatedUserList := deprecatedUserList self; pwdDict := pwdDict self;
     systemGroupList := systemGroupList self; deviceGroupList := deviceGroupList self;
     perUserGroupList := perUserGroupList self;
     standAloneGroupList := standAloneGroupList self;
     softwareGroupList := softwareGroupList self;
     deprecatedGroupList := deprecatedGroupList self;
     secondaryGroupsDict := secondaryGroupsDict self; grpDict := grpDict self;
     shadowEntryList := shadowEntryList self; shDict := f (shDict self);
     subUidEntryList := subUidEntryList self; subUidDict := subUidDict self;
     subGidEntryList := subGidEntryList self; subGidDict := subGidDict self;
     gshadowFile := gshadowFile self |}.

Definition set_subUidEntryList (f : list string → list string) (self : PasswdGroupShadow) : PasswdGroupShadow :=
  {| valid := valid self; defs := defs self; systemUserList := systemUserList self;
     normalUserList := normalUserList self; softwareUserList := softwareUserList self;
     deprecatedUserList := deprecatedUserList self; pwdDict := pwdDict self;
     systemGroupList := systemGroupList self; deviceGroupList := deviceGroupList self;
     perUserGroupList := perUserGroupList self;
     standAloneGroupList := standAloneGroupList self;
     softwareGroupList := softwareGroupList self;
     deprecatedGroupList := deprecatedGroupList self;
     secondaryGroupsDict := secondaryGroupsDict self; grpDict := grpDict self;
     shadowEntryList := shadowEntryList self; shDict := shDict self;
     subUidEntryList := f (subUidEntryList self); subUidDict := subUidDict self;
     subGidEntryList := subGidEntryList self; subGidDict := subGidDict self;
     gshadowFile := gshadowFile self |}.

Definition set_subUidDict (f : gmap string _SubUidGidEntry → gmap string _SubUidGidEntry) (self : PasswdGroupShadow) : PasswdGroupShadow :=
  {| valid := valid self; defs := defs self; systemUserList := systemUserList self;
     normalUserList := normalUserList self; softwareUserList := softwareUserList self;
     deprecatedUserList := deprecatedUserList self; pwdDict := pwdDict self;
     systemGroupList := systemGroupList self; deviceGroupList := deviceGroupList self;
     perUserGroupList := perUserGroupList self;
     standAloneGroupList := standAloneGroupList self;
     softwareGroupList := softwareGroupList self;
     deprecatedGroupList := deprecatedGroupList self;
     secondaryGroupsDict := secondaryGroupsDict self; grpDict := grpDict self;
     shadowEntryList := shadowEntryList self; shDict := shDict self;
     subUidEntryList := subUidEntryList self; subUidDict := f (subUidDict self);
     subGidEntryList := subGidEntryList self; subGidDict := subGidDict self;
     gshadowFile := gshadowFile self |}.

Definition set_subGidEntryList (f : list string → list string) (self : PasswdGroupShadow) : PasswdGroupShadow :=
  {| valid := valid self; defs := defs self; systemUserList := systemUserList self;
     normalUserList := normalUserList self; softwareUserList := softwareUserList self;
     deprecatedUserList := deprecatedUserList self; pwdDict := pwdDict self;
     systemGroupList := systemGroupList self; deviceGroupList := deviceGroupList self;
     perUserGroupList := perUserGroupList self;
     standAloneGroupList := standAloneGroupList self;
     softwareGroupList := softwareGroupList self;
     deprecatedGroupList := deprecatedGroupList self;
     secondaryGroupsDict := secondaryGroupsDict self; grpDict := grpDict self;
     shadowEntryList := shadowEntryList self; shDict := shDict self;
     subUidEntryList := subUidEntryList self; subUidDict := subUidDict self;
     subGidEntryList := f (subGidEntryList self); subGidDict := subGidDict self;
     gshadowFile := gshadowFile self |}.

Definition set_subGidDict (f : gmap string _SubUidGidEntry → gmap string _SubUidGidEntry) (self : PasswdGroupShadow) : PasswdGroupShadow :=
  {| valid := valid self; defs := defs self; systemUserList := systemUserList self;
     normalUserList := normalUserList self; softwareUserList := softwareUserList self;
     deprecatedUserList := deprecatedUserList self; pwdDict := pwdDict self;
     systemGroupList := systemGroupList self; deviceGroupList := deviceGroupList self;
     perUserGroupList := perUserGroupList self;
     standAloneGroupList := standAloneGroupList self;
     softwareGroupList := softwareGroupList self;
     deprecatedGroupList := deprecatedGroupList self;
     secondaryGroupsDict := secondaryGroupsDict self; grpDict := grpDict self;
     shadowEntryList := shadowEntryList self; shDict := shDict self;
     subUidEntryList := subUidEntryList self; subUidDict := subUidDict self;
     subGidEntryList := subGidEntryList self; subGidDict := f (subGidDict self);
     gshadowFile := gshadowFile self |}.

(** ** Methods as stateful computations that may raise *)

Definition M (A : Type) : Type :=
  PasswdGroupShadow → Outcome A * PasswdGroupShadow.

Definition ret {A} (a : A) : M A := λ self, (Return a, self).

Definition raise {A} (e : Exn) : M A := λ self, (Raise e, self).

Definition bind {A B} (m : M A) (k : A → M B) : M B :=
  λ self,
    match m self with
    | (Return a, self') => k a self'
    | (Raise e, self') => (Raise e, self')
    end.

Notation "'do' x <- m ; k" := (bind m (λ x, k))
  (at level 10, x name, m at level 100, k at level 200, only parsing).

(** Read the object; update the object. *)
Definition this : M PasswdGroupShadow := λ self, (Return self, self).

Definition update (f : PasswdGroupShadow → PasswdGroupShadow) : M unit :=
  λ self, (Return tt, f self).

(** [assert b]. *)
Definition assert (b : bool) : M unit :=
  if b then ret tt else raise AssertionError.

(** [if b: body]. *)
Definition when (b : bool) (body : M unit) : M unit :=
  if b then body else ret tt.

(** An expression that may raise, evaluated inside a method. *)
Definition lift {A} (o : Outcome A) : M A :=
  match o with
  | Return a => ret a
  | Raise e => raise e
  end.

(** [d[key]] in an expression: [KeyError] when the key is missing. *)
Definition getitem {V} (d : gmap string V) (key : string) : Outcome V :=
  match d !! key with
  | Some v => Return v
  | None => Raise (KeyError key)
  end.

(** [for x in l: body]. *)
Fixpoint for_ {A} (l : list A) (body : A → M unit) : M unit :=
  match l with
  | [] => ret tt
  | x :: l' => do _ <- body x; for_ l' body
  end.

(** The same for an expression-level loop that only reads: the list
    comprehension [[f(x) for x in l]] where [f] may raise. *)
Fixpoint comprehension {A B} (f : A → Outcome B) (l : list A) : Outcome (list B) :=
  match l with
  | [] => Return []
  | x :: l' =>
      match f x with
      | Raise e => Raise e
      | Return b =>
          match comprehension f l' with
          | Raise e => Raise e
          | Return bs => Return (b :: bs)
          end
      end
  end.

(** The library calls. *)
Class Externals : Type := {
  (** the built-in [int(s)]; [None] stands for [ValueError] *)
  int : string → option Z;
  (** [hosts.linux_context.encrypt(password)]: the hash, or the exception
      passlib raises ([ValueError] for a password with a NUL character or
      one that is too long) *)
  encrypt : string → Outcome string
}.

(** ** Class constants *)

Definition MUSER_SET_PASSWORD : Z := 1.
Definition MUSER_SET_SHELL : Z := 2.
Definition MUSER_JOIN_GROUP : Z := 3.
Definition MUSER_LEAVE_GROUP : Z := 4.

Definition _stdSystemUserList : list string := ["root"; "nobody"].
Definition _stdDeprecatedUserList : list string :=
  ["bin"; "daemon"; "adm"; "shutdown"; "halt"; "operator"; "lp"].
Definition _stdSystemGroupList : list string :=
  ["root"; "nobody"; "nogroup"; "wheel"; "users"].
Definition _stdDeviceGroupList : list string :=
  ["tty"; "disk"; "lp"; "mem"; "kmem"; "floppy"; "console"; "audio"; "cdrom";
   "tape"; "video"; "cdrw"; "usb"; "plugdev"; "input"; "kvm"].
Definition _stdDeprecatedGroupList : list string := ["bin"; "daemon"; "sys"; "adm"].

(** ** Accessors *)

Definition getSecondaryGroupsOfUser (username : string) : M (list string) :=
  do self <- this;
  do _ <- assert (valid self);
  do _ <- assert (Py.mem username (normalUserList self));
  ret (Py.sorted_str (default [] (secondaryGroupsDict self !! username))).

(** ** The mutation API *)

Section Mutation.
Context `{Externals}.

(** The [while True] loop of [addNormalUser] that looks for a free id.  Each
    turn either stops or adds one to [newUid], and stops at 10000 at the
    latest, so 9001 turns are always enough from 1000; [fuel] counts them. *)
Fixpoint addNormalUser_newUid (fuel : nat) (self : PasswdGroupShadow) (newUid : Z)
    : Outcome Z :=
  match fuel with
  | O => Raise LoopBound
  | S fuel' =>
      if 10000 <=? newUid then Raise PgsAddUserError
      else if Py.mem newUid (pw_uid <$> Py.values (pwdDict self))
      then addNormalUser_newUid fuel' self (newUid + 1)
      else if Py.mem newUid (gr_gid <$> Py.values (grpDict self))
      then addNormalUser_newUid fuel' self (newUid + 1)
      else Return newUid
  end.

(** [m = lo; for obj in d.values(): m = max(obj.start + obj.count, m)]. *)
Definition subid_next (lo : Z) (d : gmap string _SubUidGidEntry) : Z :=
  foldl (λ m obj, Z.max (start obj + count obj) m) lo (Py.values d).

Definition addNormalUser (username password : string) : M unit :=
  do self <- this;
  do _ <- assert (valid self);
  do _ <- assert (negb (bool_decide (is_Some (pwdDict self !! username))));
  do _ <- assert (negb (bool_decide (is_Some (grpDict self !! username))));
  (* generate user id *)
  do newUid <- lift (addNormalUser_newUid (Z.to_nat 9001) self 1000);
  (* add user *)
  do _ <- update (set_pwdDict (insert username
            (mk_PwdEntry username "x" newUid newUid "" ("/home/" +:+ username) "/bin/bash")));
  do _ <- update (set_normalUserList (λ l, l ++ [username]));
  (* add group *)
  do _ <- update (set_grpDict (insert username (mk_GrpEntry username "x" newUid "")));
  do _ <- update (set_perUserGroupList (λ l, l ++ [username]));
  (* add shadow *)
  do encpwd <- lift (encrypt password);
  do _ <- update (set_shDict (insert username (mk_ShadowEntry username encpwd)));
  do _ <- update (set_shadowEntryList (λ l, l ++ [username]));
  (* add subuid *)
  do self <- this;
  let m := subid_next (subUidMin (defs self)) (subUidDict self) in
  do _ <- update (set_subUidDict (insert username
            (mk_SubUidGidEntry username m (subUidCount (defs self)))));
  do _ <- update (set_subUidEntryList (λ l, l ++ [username]));
  (* add subgid *)
  do self <- this;
  let m := subid_next (subGidMin (defs self)) (subGidDict self) in
  do _ <- update (set_subGidDict (insert username
            (mk_SubUidGidEntry username m (subGidCount (defs self)))));
  update (set_subGidEntryList (λ l, l ++ [username])).

(** [del d[key]]: [KeyError] when the key is missing. *)
Definition delitem {V} (d : gmap string V) (key : string) : Outcome (gmap string V) :=
  match d !! key with
  | Some _ => Return (delete key d)
  | None => Raise (KeyError key)
  end.

(** The body of the loop over [self.grpDict.items()] in [removeNormalUser],
    applied to one entry. *)
Definition scrub_member (username : string) (entry : _GrpEntry) : _GrpEntry :=
  let ulist := _nonEmptySplit (gr_mem entry) comma in
  if Py.mem username ulist
  then with_gr_mem (Py.join "," (Py.remove username ulist)) entry
  else entry.

Definition removeNormalUser (username : string) : M unit :=
  do self <- this;
  do _ <- assert (valid self);
  do _ <- when (Py.mem username (subGidEntryList self)) (
    do _ <- update (set_subGidEntryList (Py.remove username));
    do d <- lift (delitem (subGidDict self) username);
    update (set_subGidDict (λ _, d)));
  do self <- this;
  do _ <- when (Py.mem username (subUidEntryList self)) (
    do _ <- update (set_subUidEntryList (Py.remove username));
    do d <- lift (delitem (subUidDict self) username);
    update (set_subUidDict (λ _, d)));
  do self <- this;
  do _ <- when (Py.mem username (shadowEntryList self)) (
    do _ <- update (set_shadowEntryList (Py.remove username));
    do d <- lift (delitem (shDict self) username);
    update (set_shDict (λ _, d)));
  do self <- this;
  do _ <- when (bool_decide (is_Some (secondaryGroupsDict self !! username)))
    (update (set_secondaryGroupsDict (delete username)));
  do _ <- update (set_grpDict (fmap (scrub_member username)));
  do self <- this;
  do _ <- when (Py.mem username (perUserGroupList self)) (
    do _ <- update (set_perUserGroupList (Py.remove username));
    do d <- lift (delitem (grpDict self) username);
    update (set_grpDict (λ _, d)));
  do self <- this;
  when (Py.mem username (normalUserList self)) (
    do _ <- update (set_normalUserList (Py.remove username));
    do d <- lift (delitem (pwdDict self) username);
    update (set_pwdDict (λ _, d))).


(** [self.d[key].attr = v] on a dictionary of records. *)
Definition setattr_in {V} (d : gmap string V) (key : string) (f : V → V)
    : Outcome (gmap string V) :=
  match d !! key with
  | Some e => Return (<[key := f e]> d)
  | None => Raise (KeyError key)
  end.

Definition modifyNormalUser (username : string) (op : Z) (kargs : list string)
    : M unit :=
  do self <- this;
  do _ <- assert (valid self);
  do _ <- assert (Py.mem username (normalUserList self));
  if op =? MUSER_SET_PASSWORD then
    do _ <- assert (length kargs =? 1)%nat;
    let password := default "" (head kargs) in
    do h <- lift (encrypt password);
    do d <- lift (setattr_in (shDict self) username (with_sh_encpwd h));
    update (set_shDict (λ _, d))
  else if op =? MUSER_SET_SHELL then
    assert false
  else if op =? MUSER_JOIN_GROUP then
    do _ <- assert (length kargs =? 1)%nat;
    let groupname := default "" (head kargs) in
    do _ <- assert (Py.mem groupname
              (systemGroupList self ++ deviceGroupList self
               ++ standAloneGroupList self ++ softwareGroupList self));
    do _ <- when (negb (bool_decide (is_Some (secondaryGroupsDict self !! username))))
              (update (set_secondaryGroupsDict (insert username [])));
    do self <- this;
    do glist <- lift (getitem (secondaryGroupsDict self) username);
    do _ <- when (negb (Py.mem groupname glist))
              (update (set_secondaryGroupsDict (insert username (glist ++ [groupname]))));
    do self <- this;
    do entry <- lift (getitem (grpDict self) groupname);
    let ulist := _nonEmptySplit (gr_mem entry) comma in
    when (negb (Py.mem username ulist))
      (update (set_grpDict
         (insert groupname (with_gr_mem (Py.join "," (ulist ++ [username])) entry))))
  else if op =? MUSER_LEAVE_GROUP then
    do _ <- assert (length kargs =? 1)%nat;
    let groupname := default "" (head kargs) in
    do _ <- match secondaryGroupsDict self !! username with
            | Some glist =>
                when (Py.mem groupname glist)
                  (update (set_secondaryGroupsDict
                     (insert username (Py.remove groupname glist))))
            | None => ret tt
            end;
    do self <- this;
    do entry <- lift (getitem (grpDict self) groupname);
    let ulist := _nonEmptySplit (gr_mem entry) comma in
    when (Py.mem username ulist)
      (update (set_grpDict
         (insert groupname (with_gr_mem (Py.join "," (Py.remove username ulist)) entry))))
  else
    assert false.

(** The [while True] loop of [addStandAloneGroup].  The comprehension reads
    the attribute [grp_gid] of every group entry. *)
Fixpoint addStandAloneGroup_newGid (fuel : nat) (self : PasswdGroupShadow) (newGid : Z)
    : Outcome Z :=
  match fuel with
  | O => Raise LoopBound
  | S fuel' =>
      if 10000 <=? newGid then Raise PgsAddGroupError
      else
        match comprehension (λ v, _GrpEntry_getattr v "grp_gid")
                (Py.values (grpDict self)) with
        | Raise e => Raise e
        | Return gids =>
            if Py.mem (VInt newGid) gids
            then addStandAloneGroup_newGid fuel' self (newGid + 1)
            else Return newGid
        end
  end.

Definition addStandAloneGroup (groupname : string) : M unit :=
  do self <- this;
  do _ <- assert (valid self);
  do _ <- assert (negb (bool_decide (is_Some (grpDict self !! groupname))));
  (* generate group id *)
  do newGid <- lift (addStandAloneGroup_newGid (Z.to_nat 5001) self 5000);
  (* add group *)
  do _ <- update (set_grpDict (insert groupname (mk_GrpEntry groupname "x" newGid "")));
  update (set_standAloneGroupList (λ l, l ++ [groupname])).

Definition removeStandAloneGroup (groupname : string) : M unit :=
  do self <- this;
  do _ <- assert (valid self);
  do _ <- update (set_secondaryGroupsDict
            (fmap (λ glist, if Py.mem groupname glist
                            then Py.remove groupname glist else glist)));
  do self <- this;
  when (Py.mem groupname (standAloneGroupList self)) (
    do _ <- update (set_standAloneGroupList (Py.remove groupname));
    do d <- lift (delitem (grpDict self) groupname);
    update (set_grpDict (λ _, d))).

End Mutation.

(** ** Verification

    Both stages only read the object, so they are functions of it. *)

Definition obind {A B} (o : Outcome A) (k : A → Outcome B) : Outcome B :=
  match o with
  | Return a => k a
  | Raise e => Raise e
  end.

Notation "'check' x <- o ; k" := (obind o (λ x, k))
  (at level 10, x name, o at level 100, k at level 200, only parsing).

(** [if b: raise e]. *)
Definition raise_if (b : bool) (e : Exn) : Outcome unit :=
  if b then Raise e else Return tt.

Fixpoint ofor {A} (l : list A) (body : A → Outcome unit) : Outcome unit :=
  match l with
  | [] => Return tt
  | x :: l' => check _ <- body x; ofor l' body
  end.

(** [a % b] on integers: the sign of the result follows [b], as [Z.modulo]
    does. *)
Definition py_mod (a b : Z) : Outcome Z :=
  if b =? 0 then Raise ZeroDivisionError else Return (a mod b).

(** [uname in d]. *)
Definition haskey {V} (d : gmap string V) (key : string) : bool :=
  bool_decide (is_Some (d !! key)).

Definition _verifyStage1 (self : PasswdGroupShadow) : Outcome unit :=
  (* check system user list *)
  check _ <- raise_if (negb (Py.set_eq (systemUserList self) _stdSystemUserList))
               PgsFormatError;
  check _ <- ofor (systemUserList self) (λ uname,
    raise_if (negb (haskey (shDict self) uname)) PgsFormatError);
  (* check normal user list *)
  check _ <- ofor (normalUserList self) (λ uname,
    check pw <- getitem (pwdDict self) uname;
    check _ <- raise_if (negb ((uidMin (defs self) <=? pw_uid pw)
                               && (pw_uid pw <? uidMax (defs self))))
                 PgsFormatError;
    check pw <- getitem (pwdDict self) uname;
    check gr <- getitem (grpDict self) uname;
    check _ <- raise_if (negb (pw_uid pw =? gr_gid gr)) PgsFormatError;
    check sh <- getitem (shDict self) uname;
    check _ <- raise_if (String.length (sh_encpwd sh) <=? 4)%nat PgsFormatError;
    raise_if (negb (haskey (shDict self) uname)) PgsFormatError);
  (* check system group list *)
  check _ <- raise_if (negb (Py.set_eq (systemGroupList self) _stdSystemGroupList))
               PgsFormatError;
  (* check per-user group list *)
  check _ <- raise_if (negb (Py.set_eq (perUserGroupList self) (normalUserList self)))
               PgsFormatError;
  (* check stand-alone group list *)
  ofor (standAloneGroupList self) (λ gname,
    check gr <- getitem (grpDict self) gname;
    raise_if (negb ((gidMin (defs self) <=? gr_gid gr)
                    && (gr_gid gr <? gidMax (defs self))))
      PgsFormatError).

(** The per-entry test of the two loops over subordinate-id dictionaries. *)
Definition check_subid (lo hi cnt : Z) (obj : _SubUidGidEntry) : Outcome unit :=
  check _ <- raise_if (negb ((lo <=? start obj) && (start obj <? hi))) PgsFormatError;
  check r <- py_mod (start obj - lo) cnt;
  check _ <- raise_if (negb (r =? 0)) PgsFormatError;
  raise_if (negb (count obj =? cnt)) PgsFormatError.

Definition newline : ascii := ascii_of_nat 10.
Definition carriage_return : ascii := ascii_of_nat 13.

(** What [f.read()] returns for the content of a file opened in text mode,
    as [open(filename, 'r')] does: Python translates the line endings on
    input, and a carriage return followed by a line feed, or a carriage
    return alone, arrives as one line feed. *)
Fixpoint universal_newlines (s : string) : string :=
  match s with
  | EmptyString => EmptyString
  | String c s' =>
      if Ascii.eqb c carriage_return then
        match s' with
        | EmptyString => String newline EmptyString
        | String c' _ =>
            if Ascii.eqb c' newline then universal_newlines s'
            else String newline (universal_newlines s')
        end
      else String c (universal_newlines s')
  end.

(** [_readFile]: the whole content as text, or [FileNotFoundError]; [None]
    is a file that does not exist. *)
Definition _readFile (file : option string) : Outcome string :=
  match file with
  | Some content => Return (universal_newlines content)
  | None => Raise FileNotFoundError
  end.

Definition _verifyStage2 (self : PasswdGroupShadow) : Outcome unit :=
  (* check system user list *)
  check _ <- raise_if (bool_decide (systemUserList self ≠ _stdSystemUserList))
               PgsFormatError;
  check _ <- ofor (systemUserList self) (λ uname,
    check pw <- getitem (pwdDict self) uname;
    raise_if (bool_decide (pw_gecos pw ≠ "")) PgsFormatError);
  (* check normal user list *)
  check uidList <- comprehension (λ x, check pw <- getitem (pwdDict self) x;
                                       Return (pw_uid pw)) (normalUserList self);
  check _ <- raise_if (bool_decide (uidList ≠ Py.sorted_int uidList)) PgsFormatError;
  check _ <- ofor (normalUserList self) (λ uname,
    check pw <- getitem (pwdDict self) uname;
    raise_if (bool_decide (pw_gecos pw ≠ "")) PgsFormatError);
  (* check software user list *)
  check _ <- ofor (softwareUserList self) (λ uname,
    check pw <- getitem (pwdDict self) uname;
    check _ <- raise_if (uidMin (defs self) <=? pw_uid pw) PgsFormatError;
    check pw <- getitem (pwdDict self) uname;
    check _ <- raise_if (bool_decide (pw_shell pw ≠ "/sbin/nologin")) PgsFormatError;
    raise_if (haskey (shDict self) uname) PgsFormatError);
  (* check stand-alone group list *)
  check gidList <- comprehension (λ x, check gr <- getitem (grpDict self) x;
                                       Return (gr_gid gr)) (standAloneGroupList self);
  check _ <- raise_if (bool_decide (gidList ≠ Py.sorted_int gidList)) PgsFormatError;
  (* check software group list *)
  check _ <- ofor (softwareGroupList self) (λ gname,
    check gr <- getitem (grpDict self) gname;
    raise_if (gidMin (defs self) <=? gr_gid gr) PgsFormatError);
  (* check secondary groups for root *)
  check _ <- raise_if (haskey (secondaryGroupsDict self) "root") PgsFormatError;
  (* check secondary groups dict *)
  check _ <- ofor (Py.items (secondaryGroupsDict self)) (λ '(uname, grpList),
    if negb (Py.mem uname (systemUserList self ++ normalUserList self
                           ++ softwareUserList self))
    then Return tt
    else ofor grpList (λ gname,
           raise_if (Py.mem gname (deprecatedGroupList self)) PgsFormatError));
  (* check group member field *)
  check _ <- ofor (Py.items (grpDict self)) (λ '(gname, g),
    let ulist := _nonEmptySplit (gr_mem g) comma in
    raise_if (bool_decide (gr_mem g ≠ Py.join "," ulist)) PgsFormatError);
  (* check /etc/shadow *)
  let i := 0%nat in
  check _ <- raise_if (bool_decide (systemUserList self ≠
               Py.slice (shadowEntryList self) i (length (systemUserList self))))
               PgsFormatError;
  let i := (i + length (systemUserList self))%nat in
  check _ <- raise_if (bool_decide (normalUserList self ≠
               Py.slice (shadowEntryList self) i (length (normalUserList self))))
               PgsFormatError;
  let i := (i + length (normalUserList self))%nat in
  check _ <- raise_if (bool_decide (i ≠ length (shadowEntryList self))) PgsFormatError;
  (* check /etc/gshadow *)
  check buf <- _readFile (gshadowFile self);
  check _ <- raise_if (0 <? String.length buf)%nat PgsFormatError;
  (* check subuid entry list *)
  let i := 0%nat in
  check _ <- raise_if (bool_decide (normalUserList self ≠
               Py.slice (subUidEntryList self) i (length (normalUserList self))))
               PgsFormatError;
  let i := (i + length (normalUserList self))%nat in
  check _ <- raise_if (bool_decide (softwareUserList self ≠
               Py.slice (subUidEntryList self) i (length (softwareUserList self))))
               PgsFormatError;
  let i := (i + length (softwareUserList self))%nat in
  check _ <- raise_if (bool_decide (i ≠ length (subUidEntryList self))) PgsFormatError;
  (* check subuid value range *)
  check _ <- ofor (Py.items (subUidDict self)) (λ '(uname, obj),
    check_subid (subUidMin (defs self)) (subUidMax (defs self))
      (subUidCount (defs self)) obj);
  (* check subgid entry list *)
  check _ <- raise_if (bool_decide (subUidEntryList self ≠ subGidEntryList self))
               PgsFormatError;
  (* check subgid value range *)
  ofor (Py.items (subGidDict self)) (λ '(uname, obj),
    check_subid (subGidMin (defs self)) (subGidMax (defs self))
      (subGidCount (defs self)) obj).

Definition verify : M unit :=
  do self <- this;
  do _ <- assert (valid self);
  do _ <- lift (_verifyStage1 self);
  lift (_verifyStage2 self).

(** ** The repair pass *)

(** [for uname in l: self.pwdDict[uname].attr = v]. *)
Definition set_pwd_attr (f : _PwdEntry → _PwdEntry) (uname : string) : M unit :=
  do self <- this;
  do d <- lift (setattr_in (pwdDict self) uname f);
  update (set_pwdDict (λ _, d)).

(** [for uname in set(d.keys()) - set(l): del d[uname]]. *)
Definition drop_redundant {V} (l : list string) (d : gmap string V)
    : gmap string V :=
  filter (λ kv, kv.1 ∈ l) d.

(** The loop that adds the missing subordinate-id entries.  It yields the
    dictionary as the loop leaves it, also when the assertion fails. *)
Fixpoint add_missing (hi cnt : Z) (l : list string) (m : Z)
    (d : gmap string _SubUidGidEntry)
    : Outcome unit * gmap string _SubUidGidEntry :=
  match l with
  | [] => (Return tt, d)
  | uname :: l' =>
      if haskey d uname then add_missing hi cnt l' m d
      else if m <? hi
      then add_missing hi cnt l' (m + cnt) (<[uname := mk_SubUidGidEntry uname m cnt]> d)
      else (Raise AssertionError, d)
  end.

(** [g.gr_mem = ",".join([x for x in g.gr_mem.split(",") if x != ""])]. *)
Definition standardize_members (g : _GrpEntry) : _GrpEntry :=
  with_gr_mem (Py.join "," (_nonEmptySplit (gr_mem g) comma)) g.

(** Order of the keys a [sort] compares: integers by value, strings
    lexicographically.  One attribute name yields values of one kind. *)
Definition PyVal_le (a b : PyVal) : bool :=
  match a, b with
  | VInt x, VInt y => x <=? y
  | VStr x, VStr y => String.leb x y
  | VInt _, VStr _ => true
  | VStr _, VInt _ => false
  end.

Definition _fixate : M unit :=
  (* sort system user list *)
  do self <- this;
  do _ <- assert (Py.set_eq (systemUserList self) _stdSystemUserList);
  do _ <- update (set_systemUserList (λ _, _stdSystemUserList));
  (* remove comment for system users *)
  do self <- this;
  do _ <- for_ (systemUserList self) (set_pwd_attr (with_pw_gecos ""));
  (* sort normal user list *)
  do self <- this;
  do keys <- lift (comprehension (λ x, check pw <- getitem (pwdDict self) x;
                                       Return (pw_uid pw)) (normalUserList self));
  do _ <- update (set_normalUserList (Py.sort_keyed Z.leb keys));
  (* remove comment for normal users *)
  do self <- this;
  do _ <- for_ (normalUserList self) (set_pwd_attr (with_pw_gecos ""));
  (* standardize shell for software users *)
  do self <- this;
  do _ <- for_ (softwareUserList self) (set_pwd_attr (with_pw_shell "/sbin/nologin"));
  (* remove shadow entry for software users *)
  do _ <- for_ (softwareUserList self) (λ uname,
    do self <- this;
    when (haskey (shDict self) uname) (update (set_shDict (delete uname))));
  (* sort system group list *)
  do self <- this;
  do _ <- assert (Py.set_eq (systemGroupList self) _stdSystemGroupList);
  do _ <- update (set_systemGroupList (λ _, _stdSystemGroupList));
  (* sort per-user group list *)
  do self <- this;
  do _ <- assert (Py.set_eq (perUserGroupList self) (normalUserList self));
  do _ <- update (set_perUserGroupList (λ _, normalUserList self));
  (* sort stand-alone group list *)
  do self <- this;
  do keys <- lift (comprehension (λ x, check gr <- getitem (grpDict self) x;
                                       _GrpEntry_getattr gr "pw_gid")
                     (standAloneGroupList self));
  do _ <- update (set_standAloneGroupList (Py.sort_keyed PyVal_le keys));
  (* remove root from any secondary group *)
  do self <- this;
  do _ <- when (haskey (secondaryGroupsDict self) "root")
            (update (set_secondaryGroupsDict (delete "root")));
  do _ <- update (set_grpDict (fmap (scrub_member "root")));
  (* standardize group members *)
  do _ <- update (set_grpDict (fmap standardize_members));
  (* sort shadow entry list *)
  do self <- this;
  do _ <- assert (Py.set_ge (shadowEntryList self)
                    (systemUserList self ++ normalUserList self));
  do _ <- update (set_shadowEntryList
            (λ _, systemUserList self ++ normalUserList self));
  (* remove redundant shadow entries *)
  do self <- this;
  do _ <- update (set_shDict (drop_redundant (shadowEntryList self)));
  (* sort subuid entry list *)
  do _ <- update (set_subUidEntryList
            (λ _, normalUserList self ++ softwareUserList self));
  (* remove redundant subuid entries *)
  do self <- this;
  do _ <- update (set_subUidDict (drop_redundant (subUidEntryList self)));
  (* add missing subuid entries *)
  do self <- this;
  let m := subid_next (subUidMin (defs self)) (subUidDict self) in
  let r := add_missing (subUidMax (defs self)) (subUidCount (defs self))
             (subUidEntryList self) m (subUidDict self) in
  do _ <- update (set_subUidDict (λ _, r.2));
  do _ <- lift r.1;
  (* sort subgid entry list *)
  do _ <- update (set_subGidEntryList (λ _, subUidEntryList self));
  (* remove redundant subgid entries *)
  do self <- this;
  do _ <- update (set_subGidDict (drop_redundant (subGidEntryList self)));
  (* add missing subgid entries *)
  do self <- this;
  let m := subid_next (subGidMin (defs self)) (subGidDict self) in
  let r := add_missing (subGidMax (defs self)) (subGidCount (defs self))
             (subGidEntryList self) m (subGidDict self) in
  do _ <- update (set_subGidDict (λ _, r.2));
  lift r.1.

(** ** Loading

    The text of each file is an argument ([None]: the file does not exist).

    [_parseLoginDef] looks each of its ten keys up with
    [re.search("\\s*KEY\s+([0-9]+)\\s*$", buf, re.M)].  The search is a
    call into the library [re]; [re_search] stands for it and yields the
    text of group 1 of the first match.  The numbers read are the fields of
    a [LoginDefs]; the source assigns them to the object one by one, and an
    object whose [_parseLoginDef] raised is never handed out.

    [_lockPwd] takes the lock on /etc/.pwd.lock with system calls and a
    timeout.  Its outcome, the descriptor of the lock file or the
    exception it raises, is the argument [lock] of [__init__]. *)

(** [_unlockPwd] asserts that the lock is held and closes its descriptor,
    which has no effect on the files modelled here. *)
Definition _unlockPwd (lockFd : option Z) : Outcome unit :=
  raise_if (bool_decide (lockFd = None)) AssertionError.

Section Load.
Context `{Externals}.
Variable re_search : string → string → option string.

Definition int_ (s : string) : Outcome Z :=
  match int s with
  | Some z => Return z
  | None => Raise ValueError
  end.

(** [t[i]], used after the length of [t] has been checked. *)
Definition item (t : list string) (i : nat) : string := default "" (t !! i).

(** The one-argument form of the constructors: [_PwdEntry(fields)]. *)
Definition _PwdEntry_init (fields : list string) : Outcome _PwdEntry :=
  check _ <- raise_if (negb (length fields =? 7)%nat) AssertionError;
  check uid <- int_ (item fields 2);
  check gid <- int_ (item fields 3);
  Return (mk_PwdEntry (item fields 0) (item fields 1) uid gid
            (item fields 4) (item fields 5) (item fields 6)).

Definition _GrpEntry_init (fields : list string) : Outcome _GrpEntry :=
  check _ <- raise_if (negb (length fields =? 4)%nat) AssertionError;
  check gid <- int_ (item fields 2);
  Return (mk_GrpEntry (item fields 0) (item fields 1) gid (item fields 3)).

Definition _ShadowEntry_init (fields : list string) : Outcome _ShadowEntry :=
  check _ <- raise_if (negb (length fields =? 9)%nat) AssertionError;
  Return (mk_ShadowEntry (item fields 0) (item fields 1)).

(** [line == "" or line.startswith("#")]. *)
Definition skipped (line : string) : bool :=
  bool_decide (line = "") || Py.startswith "#" line.

Definition colon : ascii := ":"%char.

(** The body of the loop of [_parsePasswd], for one line that is not
    skipped and has been split into [t]. *)
Definition _parsePasswd_fields (t : list string) : M unit :=
  do _ <- lift (raise_if (negb (length t =? 7)%nat) PgsFormatError);
  do e <- lift (_PwdEntry_init t);
  do _ <- update (set_pwdDict (insert (item t 0) e));
  do self <- this;
  if Py.mem (item t 0) _stdSystemUserList then
    update (set_systemUserList (λ l, l ++ [item t 0]))
  else
    do uid <- lift (int_ (item t 2));
    if (uidMin (defs self) <=? uid) && (uid <? uidMax (defs self)) then
      update (set_normalUserList (λ l, l ++ [item t 0]))
    else if Py.mem (item t 0) _stdDeprecatedUserList then
      update (set_deprecatedUserList (λ l, l ++ [item t 0]))
    else
      update (set_softwareUserList (λ l, l ++ [item t 0])).

Definition _parsePasswd (passwdFile : option string) : M unit :=
  do buf <- lift (_readFile passwdFile);
  for_ (Py.split newline buf) (λ line,
    if skipped line then ret tt
    else _parsePasswd_fields (Py.split colon line)).

Definition _parseGroup_fields (normalUserList : list string) (t : list string)
    : M unit :=
  do _ <- lift (raise_if (negb (length t =? 4)%nat) PgsFormatError);
  do e <- lift (_GrpEntry_init t);
  do _ <- update (set_grpDict (insert (item t 0) e));
  do self <- this;
  do _ <-
    (if Py.mem (item t 0) _stdSystemGroupList then
       update (set_systemGroupList (λ l, l ++ [item t 0]))
     else if Py.mem (item t 0) normalUserList then
       update (set_perUserGroupList (λ l, l ++ [item t 0]))
     else if Py.mem (item t 0) _stdDeviceGroupList then
       update (set_deviceGroupList (λ l, l ++ [item t 0]))
     else if Py.mem (item t 0) _stdDeprecatedGroupList then
       update (set_deprecatedGroupList (λ l, l ++ [item t 0]))
     else
       do gid <- lift (int_ (item t 2));
       if (gidMin (defs self) <=? gid) && (gid <? gidMax (defs self)) then
         update (set_standAloneGroupList (λ l, l ++ [item t 0]))
       else
         update (set_softwareGroupList (λ l, l ++ [item t 0])));
  for_ (Py.split comma (item t 3)) (λ u,
    if bool_decide (u = "") then ret tt
    else
      do self <- this;
      do _ <- when (negb (haskey (secondaryGroupsDict self) u))
                (update (set_secondaryGroupsDict (insert u [])));
      do self <- this;
      do glist <- lift (getitem (secondaryGroupsDict self) u);
      update (set_secondaryGroupsDict (insert u (glist ++ [item t 0])))).

Definition _parseGroup (groupFile : option string) (normalUserList : list string)
    : M unit :=
  do buf <- lift (_readFile groupFile);
  for_ (Py.split newline buf) (λ line,
    if skipped line then ret tt
    else _parseGroup_fields normalUserList (Py.split colon line)).

Definition _parseShadow (shadowFile : option string) : M unit :=
  do buf <- lift (_readFile shadowFile);
  for_ (Py.split newline buf) (λ line,
    if skipped line then ret tt
    else
      let t := Py.split colon line in
      do _ <- lift (raise_if (negb (length t =? 9)%nat) PgsFormatError);
      do e <- lift (_ShadowEntry_init t);
      do _ <- update (set_shDict (insert (item t 0) e));
      update (set_shadowEntryList (λ l, l ++ [item t 0]))).

(** The loop shared, up to the two attributes it fills, by [_parseSubUid]
    and [_parseSubGid]. *)
Definition _parseSubId_fields
    (set_dict : (gmap string _SubUidGidEntry → gmap string _SubUidGidEntry)
                → PasswdGroupShadow → PasswdGroupShadow)
    (set_list : (list string → list string)
                → PasswdGroupShadow → PasswdGroupShadow)
    (t : list string) : M unit :=
  do _ <- lift (raise_if (negb (length t =? 3)%nat) PgsFormatError);
  do s <- lift (int_ (item t 1));
  do c <- lift (int_ (item t 2));
  do _ <- update (set_dict (insert (item t 0) (mk_SubUidGidEntry (item t 0) s c)));
  update (set_list (λ l, l ++ [item t 0])).

Definition _parseSubUid (subuidFile : option string) : M unit :=
  match subuidFile with
  | None => ret tt
  | Some content =>
      do buf <- lift (_readFile (Some content));
      for_ (Py.split newline buf) (λ line,
        if skipped line then ret tt
        else _parseSubId_fields set_subUidDict set_subUidEntryList
               (Py.split colon line))
  end.

Definition _parseSubGid (subgidFile : option string) : M unit :=
  match subgidFile with
  | None => ret tt
  | Some content =>
      do buf <- lift (_readFile (Some content));
      for_ (Py.split newline buf) (λ line,
        if skipped line then ret tt
        else _parseSubId_fields set_subGidDict set_subGidEntryList
               (Py.split colon line))
  end.

(** The files of one root directory. *)
Record Files : Type := mkFiles {
  passwd : option string;
  group : option string;
  shadow : option string;
  gshadow : option string;
  subuid : option string;
  subgid : option string
}.

(** The attribute values [__init__] assigns before it parses. *)
Definition blank (ld : LoginDefs) (fs : Files) : PasswdGroupShadow :=
  {| valid := true; defs := ld;
     systemUserList := []; normalUserList := []; softwareUserList := [];
     deprecatedUserList := []; pwdDict := ∅;
     systemGroupList := []; deviceGroupList := []; perUserGroupList := [];
     standAloneGroupList := []; softwareGroupList := [];
     deprecatedGroupList := []; secondaryGroupsDict := ∅; grpDict := ∅;
     shadowEntryList := []; shDict := ∅;
     subUidEntryList := []; subUidDict := ∅;
     subGidEntryList := []; subGidDict := ∅;
     gshadowFile := gshadow fs |}.

(** [m = re.search(...)]; [int(m.group(1))] if [m is not None], else
    [PgsFormatError]. *)
Definition read_key (key buf : string) : Outcome Z :=
  match re_search key buf with
  | Some text => int_ text
  | None => Raise PgsFormatError
  end.

Definition _parseLoginDef (loginDefFile : option string) : Outcome LoginDefs :=
  match loginDefFile with
  | None => Raise PgsFormatError
  | Some content =>
      check buf <- _readFile (Some content);
      check uid_min <- read_key "UID_MIN" buf;
      check uid_max <- read_key "UID_MAX" buf;
      check gid_min <- read_key "GID_MIN" buf;
      check gid_max <- read_key "GID_MAX" buf;
      check sub_uid_min <- read_key "SUB_UID_MIN" buf;
      check sub_uid_max <- read_key "SUB_UID_MAX" buf;
      check sub_uid_count <- read_key "SUB_UID_COUNT" buf;
      check sub_gid_min <- read_key "SUB_GID_MIN" buf;
      check sub_gid_max <- read_key "SUB_GID_MAX" buf;
      check sub_gid_count <- read_key "SUB_GID_COUNT" buf;
      check _ <- raise_if (uid_max <? uid_min) PgsFormatError;
      check _ <- raise_if (gid_max <? gid_min) PgsFormatError;
      check _ <- raise_if (sub_uid_max <? sub_uid_min) PgsFormatError;
      check r <- py_mod (sub_uid_max - sub_uid_min) sub_uid_count;
      check _ <- raise_if (negb (r =? 0)) PgsFormatError;
      check _ <- raise_if (sub_gid_max <? sub_gid_min) PgsFormatError;
      check r <- py_mod (sub_gid_max - sub_gid_min) sub_gid_count;
      check _ <- raise_if (negb (r =? 0)) PgsFormatError;
      Return {| uidMin := uid_min; uidMax := uid_max;
                gidMin := gid_min; gidMax := gid_max;
                subUidMin := sub_uid_min; subUidMax := sub_uid_max;
                subUidCount := sub_uid_count;
                subGidMin := sub_gid_min; subGidMax := sub_gid_max;
                subGidCount := sub_gid_count |}
  end.

(** The ten numbers of the text [buf] are those of [ld]. *)
Definition reads (buf : string) (ld : LoginDefs) : Prop :=
  read_key "UID_MIN" buf = Return (uidMin ld)
  ∧ read_key "UID_MAX" buf = Return (uidMax ld)
  ∧ read_key "GID_MIN" buf = Return (gidMin ld)
  ∧ read_key "GID_MAX" buf = Return (gidMax ld)
  ∧ read_key "SUB_UID_MIN" buf = Return (subUidMin ld)
  ∧ read_key "SUB_UID_MAX" buf = Return (subUidMax ld)
  ∧ read_key "SUB_UID_COUNT" buf = Return (subUidCount ld)
  ∧ read_key "SUB_GID_MIN" buf = Return (subGidMin ld)
  ∧ read_key "SUB_GID_MAX" buf = Return (subGidMax ld)
  ∧ read_key "SUB_GID_COUNT" buf = Return (subGidCount ld).

(** The values the ten attributes have before [_parseLoginDef] runs. *)
Definition unset_defs : LoginDefs :=
  {| uidMin := -1; uidMax := -1; gidMin := -1; gidMax := -1;
     subUidMin := -1; subUidMax := -1; subUidCount := -1;
     subGidMin := -1; subGidMax := -1; subGidCount := -1 |}.

(** The block under [try:] in [__init__]. *)
Definition do_parsing (fs : Files) : M unit :=
  do _ <- _parsePasswd (passwd fs);
  do self <- this;
  do _ <- _parseGroup (group fs) (normalUserList self);
  do _ <- _parseShadow (shadow fs);
  do _ <- _parseSubUid (subuid fs);
  _parseSubGid (subgid fs).

(** [__init__] from [try:] on, without the [except] clause, on the object
    that has the policy [ld]: the five parsers, then stage 1. *)
Definition parse_and_verify (ld : LoginDefs) (fs : Files)
    : Outcome unit * PasswdGroupShadow :=
  (do _ <- do_parsing fs;
   do self <- this;
   lift (_verifyStage1 self)) (blank ld fs).

(** [PasswdGroupShadow(dirPrefix, readOnly, msrc)].  [loginDefFile] and
    [fs] are the files under [dirPrefix]; [msrc] is only used by the
    writers.  The outcome comes with the object as the constructor leaves
    it; when the constructor raises, that object is not handed out. *)
Definition __init__ (lock : Outcome Z) (readOnly : bool)
    (loginDefFile : option string) (fs : Files)
    : Outcome unit * PasswdGroupShadow :=
  match _parseLoginDef loginDefFile with
  | Raise e => (Raise e, blank unset_defs fs)
  | Return ld =>
      let self := blank ld fs in
      let locked :=
        if readOnly then Return None
        else match lock with
             | Return fd => Return (Some fd)
             | Raise e => Raise e
             end in
      match locked with
      | Raise e => (Raise e, self)
      | Return lockFd =>
          match do_parsing fs self with
          | (Raise e, self) =>
              (* except: *)
              match (if readOnly then Return tt else _unlockPwd lockFd) with
              | Raise e' => (Raise e', self)
              | Return _ => (Raise e, self)
              end
          | (Return _, self) =>
              (* do verify *)
              (_verifyStage1 self, self)
          end
      end
  end.

End Load.

(** ** A concrete instance of the library calls, for running examples

    [int] reads an optional sign followed by decimal digits; [encrypt]
    stands for a salted hash: it refuses a password with a NUL character,
    as passlib does, and its result is longer than four characters. *)

(** [c in s] for a character. *)
Fixpoint contains (c : ascii) (s : string) : bool :=
  match s with
  | EmptyString => false
  | String x s' => Ascii.eqb x c || contains c s'
  end.


Definition digit (c : ascii) : option Z :=
  let n := Z.of_nat (nat_of_ascii c) in
  if (48 <=? n) && (n <=? 57) then Some (n - 48) else None.

Fixpoint digits (acc : Z) (s : string) : option Z :=
  match s with
  | EmptyString => Some acc
  | String c s' =>
      match digit c with
      | Some d => digits (10 * acc + d) s'
      | None => None
      end
  end.

Definition int_decimal (s : string) : option Z :=
  match s with
  | EmptyString => None
  | String c s' =>
      if Ascii.eqb c "-" then
        match s' with
        | EmptyString => None
        | _ => Z.opp <$> digits 0 s'
        end
      else digits 0 s
  end.

Definition demo_encrypt (password : string) : Outcome string :=
  if contains (ascii_of_nat 0) password then Raise ValueError
  else Return ("$6$salt$" +:+ password).

Definition demo : Externals :=
  {| int := int_decimal; encrypt := demo_encrypt |}.

(** A search for running examples: the file is a list of lines, each a key,
    one space and a number, and the search yields the number of the first
    line with the key. *)
Fixpoint lookup_line (key : string) (ls : list string) : option string :=
  match ls with
  | [] => None
  | line :: ls' =>
      match Py.split " " line with
      | [k; v] => if String.eqb k key then Some v else lookup_line key ls'
      | _ => lookup_line key ls'
      end
  end.

Definition search_lines (key buf : string) : option string :=
  lookup_line key (Py.split newline buf).

(** The policy of the stock login.defs. *)
Definition stock_defs : LoginDefs :=
  {| uidMin := 1000; uidMax := 10000; gidMin := 1000; gidMax := 10000;
     subUidMin := 100000; subUidMax := 165536; subUidCount := 65536;
     subGidMin := 100000; subGidMax := 165536; subGidCount := 65536 |}.

(** Lines of a file. *)
Definition lines (l : list string) : string :=
  Py.join (String newline EmptyString) l.

(** ** Sample data

    A small root directory: the two system users, two normal users with
    their per-user groups, one device group.  [bob]'s group lists [alice]
    as a member. *)

Definition sample_defs : LoginDefs :=
  {| uidMin := 1000; uidMax := 10000; gidMin := 1000; gidMax := 10000;
     subUidMin := 100000; subUidMax := 6653600; subUidCount := 65536;
     subGidMin := 100000; subGidMax := 6653600; subGidCount := 65536 |}.

Definition sample_files : Files :=
  {| passwd := Some (lines
       ["# users";
        "root:x:0:0:root:/root:/bin/bash";
        "nobody:x:65534:65534::/:/sbin/nologin";
        "alice:x:1000:1000::/home/alice:/bin/bash";
        "bob:x:1001:1001::/home/bob:/bin/bash";
        ""]);
     group := Some (lines
       ["root:x:0:"; "nobody:x:65534:"; "nogroup:x:65533:"; "wheel:x:10:";
        "users:x:100:"; "alice:x:1000:"; "bob:x:1001:alice"; "audio:x:18:";
        ""]);
     shadow := Some (lines
       ["root:$6$abcdef:::::::"; "nobody:*:::::::"; "alice:$6$xyzzy:::::::";
        "bob:$6$xyzzy:::::::"; ""]);
     gshadow := Some "";
     subuid := None;
     subgid := None |}.

Definition sample_login_defs : string :=
  lines ["UID_MIN 1000"; "UID_MAX 10000"; "GID_MIN 1000"; "GID_MAX 10000";
         "SUB_UID_MIN 100000"; "SUB_UID_MAX 6653600"; "SUB_UID_COUNT 65536";
         "SUB_GID_MIN 100000"; "SUB_GID_MAX 6653600"; "SUB_GID_COUNT 65536"].

(** The constructor on a root directory with this login.defs, opened for
    writing, the lock taken with descriptor 3. *)
Definition sample_init (fs : Files) : Outcome unit * PasswdGroupShadow :=
  @__init__ demo search_lines (Return 3) false (Some sample_login_defs) fs.

Definition sample : PasswdGroupShadow := (sample_init sample_files).2.


(** ** Predicates used in the statements *)

(** [z] is taken: some user has it as uid or some group has it as gid. *)
Definition id_used (self : PasswdGroupShadow) (z : Z) : Prop :=
  (∃ k e, pwdDict self !! k = Some e ∧ pw_uid e = z)
  ∨ (∃ k e, grpDict self !! k = Some e ∧ gr_gid e = z).

(** The checks stage 1 makes on one normal user all pass. *)
Definition normal_user_ok (self : PasswdGroupShadow) (uname : string) : Prop :=
  ∃ pw gr sh,
    pwdDict self !! uname = Some pw
    ∧ grpDict self !! uname = Some gr
    ∧ shDict self !! uname = Some sh
    ∧ uidMin (defs self) ≤ pw_uid pw < uidMax (defs self)
    ∧ pw_uid pw = gr_gid gr
    ∧ (4 < String.length (sh_encpwd sh))%nat.

(** The sample directory with the shadow line of [alice] left out. *)
Definition sample_files_no_shadow : Files :=
  {| passwd := passwd sample_files;
     group := group sample_files;
     shadow := Some (lines
       ["root:$6$abcdef:::::::"; "nobody:*:::::::"; "bob:$6$xyzzy:::::::"; ""]);
     gshadow := gshadow sample_files;
     subuid := subuid sample_files;
     subgid := subgid sample_files |}.

Definition sample_no_shadow : PasswdGroupShadow :=
  (sample_init sample_files_no_shadow).2.

(** A passwd line whose name is on the deprecated list and whose uid is in
    the range of normal users. *)
Definition bin_in_range : string := "bin:x:1000:1000::/bin:/bin/false".

Definition bin_out_of_range : string := "bin:x:1:1::/bin:/bin/false".

(** The order of Python strings: lexicographic, character by character. *)
Definition str_le (a b : string) : Prop := String.leb a b = true.

(** A member name as a member field can hold it: not empty, no comma. *)
Definition token (x : string) : Prop := x ≠ EmptyString ∧ contains comma x = false.

(** The sample directory after [alice] joined [wheel] and then [audio]. *)
Definition sample_joined : PasswdGroupShadow :=
  (@modifyNormalUser demo "alice" MUSER_JOIN_GROUP ["audio"]
     (@modifyNormalUser demo "alice" MUSER_JOIN_GROUP ["wheel"] sample).2).2.

(** The sample directory with [alice] listed as a member of [audio]. *)
Definition sample_files_member : Files :=
  {| passwd := passwd sample_files;
     group := Some (lines
       ["root:x:0:"; "nobody:x:65534:"; "nogroup:x:65533:"; "wheel:x:10:";
        "users:x:100:"; "alice:x:1000:"; "bob:x:1001:"; "audio:x:18:alice";
        ""]);
     shadow := shadow sample_files;
     gshadow := gshadow sample_files;
     subuid := subuid sample_files;
     subgid := subgid sample_files |}.

Definition sample_member : PasswdGroupShadow :=
  (sample_init sample_files_member).2.

(** The names a user may join. *)
Definition joinable (self : PasswdGroupShadow) : list string :=
  systemGroupList self ++ deviceGroupList self
  ++ standAloneGroupList self ++ softwareGroupList self.

(** The secondary groups the index records for a user. *)
Definition secondary_groups (self : PasswdGroupShadow) (username : string)
    : list string :=
  default [] (secondaryGroupsDict self !! username).

(** The member list of a group, as the code reads it from the member field. *)
Definition members (self : PasswdGroupShadow) (groupname : string)
    : option (list string) :=
  (λ e, _nonEmptySplit (gr_mem e) comma) <$> grpDict self !! groupname.

(** The sample directory with a stand-alone group [staff] whose member
    field names [ghost], a name without any record. *)
Definition sample_files_ghost : Files :=
  {| passwd := passwd sample_files;
     group := Some (lines
       ["root:x:0:"; "nobody:x:65534:"; "nogroup:x:65533:"; "wheel:x:10:";
        "users:x:100:"; "alice:x:1000:"; "bob:x:1001:alice"; "audio:x:18:";
        "staff:x:5000:ghost"; ""]);
     shadow := shadow sample_files;
     gshadow := gshadow sample_files;
     subuid := subuid sample_files;
     subgid := subgid sample_files |}.

(** ... loaded, and [staff] removed again. *)
Definition sample_ghost : PasswdGroupShadow :=
  (removeStandAloneGroup "staff"
     (sample_init sample_files_ghost).2).2.

(** [name] occurs nowhere [removeNormalUser] looks. *)
Definition user_absent (self : PasswdGroupShadow) (username : string) : Prop :=
  (username ∉ normalUserList self)
  ∧ (username ∉ perUserGroupList self)
  ∧ (username ∉ shadowEntryList self)
  ∧ (username ∉ subUidEntryList self)
  ∧ (username ∉ subGidEntryList self)
  ∧ map_Forall (λ _ e, username ∉ _nonEmptySplit (gr_mem e) comma) (grpDict self).

(** [groupname] occurs nowhere [removeStandAloneGroup] looks. *)
Definition group_absent (self : PasswdGroupShadow) (groupname : string) : Prop :=
  (groupname ∉ standAloneGroupList self)
  ∧ map_Forall (λ _ glist, groupname ∉ glist) (secondaryGroupsDict self).

#[global] Instance user_absent_dec self username : Decision (user_absent self username).
Proof. unfold user_absent. apply _. Defined.

#[global] Instance group_absent_dec self groupname : Decision (group_absent self groupname).
Proof. unfold group_absent. apply _. Defined.

(** ** The mutation calls as data *)

Inductive Call : Type :=
  | AddNormalUser (username password : string)
  | RemoveNormalUser (username : string)
  | ModifyNormalUser (username : string) (op : Z) (kargs : list string)
  | AddStandAloneGroup (groupname : string)
  | RemoveStandAloneGroup (groupname : string).

Definition call `{Externals} (c : Call) : M unit :=
  match c with
  | AddNormalUser username password => addNormalUser username password
  | RemoveNormalUser username => removeNormalUser username
  | ModifyNormalUser username op kargs => modifyNormalUser username op kargs
  | AddStandAloneGroup groupname => addStandAloneGroup groupname
  | RemoveStandAloneGroup groupname => removeStandAloneGroup groupname
  end.


(** Every name on a list has its record in the dictionary. *)
Definition listed_in {V} (l : list string) (d : gmap string V) : Prop :=
  Forall (λ x, is_Some (d !! x)) l.

(** The lists and the index name only records that exist: what holds right
    after loading, where every list is filled together with its
    dictionary. *)
Record consistent (self : PasswdGroupShadow) : Prop := mk_consistent {
  normal_listed : listed_in (normalUserList self) (pwdDict self);
  perUser_listed : listed_in (perUserGroupList self) (grpDict self);
  joinable_listed : listed_in (joinable self) (grpDict self);
  shadow_listed : listed_in (shadowEntryList self) (shDict self);
  subUid_listed : listed_in (subUidEntryList self) (subUidDict self);
  subGid_listed : listed_in (subGidEntryList self) (subGidDict self);
  index_listed :
    map_Forall (λ _ glist, listed_in glist (grpDict self)) (secondaryGroupsDict self)
}.



(** The sample directory with [root] listed twice as a member of [wheel]. *)
Definition sample_files_root_twice : Files :=
  {| passwd := passwd sample_files;
     group := Some (lines
       ["root:x:0:"; "nobody:x:65534:"; "nogroup:x:65533:"; "wheel:x:10:root,root";
        "users:x:100:"; "alice:x:1000:"; "bob:x:1001:alice"; "audio:x:18:";
        ""]);
     shadow := shadow sample_files;
     gshadow := gshadow sample_files;
     subuid := subuid sample_files;
     subgid := subgid sample_files |}.

Definition sample_root_twice : PasswdGroupShadow :=
  (sample_init sample_files_root_twice).2.

(** The sample directory with a software user whose uid lies above the
    range of normal users. *)
Definition sample_files_high_uid : Files :=
  {| passwd := Some (lines
       ["root:x:0:0:root:/root:/bin/bash";
        "nobody:x:65534:65534::/:/sbin/nologin";
        "alice:x:1000:1000::/home/alice:/bin/bash";
        "bob:x:1001:1001::/home/bob:/bin/bash";
        "ftp:x:20000:50::/var/ftp:/bin/false";
        ""]);
     group := group sample_files;
     shadow := shadow sample_files;
     gshadow := gshadow sample_files;
     subuid := subuid sample_files;
     subgid := subgid sample_files |}.

Definition sample_high_uid : PasswdGroupShadow :=
  (sample_init sample_files_high_uid).2.

(** ** The object [_fixate] leaves when it returns *)

(** [for u in l: d[u].attr = v], as a function of the dictionary. *)
Fixpoint alter_all {V} (f : V → V) (l : list string) (d : gmap string V)
    : gmap string V :=
  match l with
  | [] => d
  | u :: l' => alter_all f l' (alter f u d)
  end.

(** [for u in l: if u in d: del d[u]], as a function of the dictionary. *)
Fixpoint delete_all {V} (l : list string) (d : gmap string V) : gmap string V :=
  match l with
  | [] => d
  | u :: l' => delete_all l' (delete u d)
  end.

(** The uid the passwd record of [x] carries (0 if there is none). *)
Definition uid_of (self : PasswdGroupShadow) (x : string) : Z :=
  default 0 (pw_uid <$> pwdDict self !! x).

Definition fixated (self : PasswdGroupShadow) : PasswdGroupShadow :=
  let normal :=
    Py.sort_le (λ x y, uid_of self x <=? uid_of self y) (normalUserList self) in
  let users := _stdSystemUserList ++ normal in
  let subs := normal ++ softwareUserList self in
  let subUid0 := drop_redundant subs (subUidDict self) in
  let subGid0 := drop_redundant subs (subGidDict self) in
  {| valid := valid self;
     defs := defs self;
     systemUserList := _stdSystemUserList;
     normalUserList := normal;
     softwareUserList := softwareUserList self;
     deprecatedUserList := deprecatedUserList self;
     pwdDict :=
       alter_all (with_pw_shell "/sbin/nologin") (softwareUserList self)
         (alter_all (with_pw_gecos "") normal
            (alter_all (with_pw_gecos "") _stdSystemUserList (pwdDict self)));
     systemGroupList := _stdSystemGroupList;
     deviceGroupList := deviceGroupList self;
     perUserGroupList := normal;
     standAloneGroupList := standAloneGroupList self;
     softwareGroupList := softwareGroupList self;
     deprecatedGroupList := deprecatedGroupList self;
     secondaryGroupsDict := delete "root" (secondaryGroupsDict self);
     grpDict := standardize_members <$> (scrub_member "root" <$> grpDict self);
     shadowEntryList := users;
     shDict :=
       drop_redundant users (delete_all (softwareUserList self) (shDict self));
     subUidEntryList := subs;
     subUidDict :=
       (add_missing (subUidMax (defs self)) (subUidCount (defs self)) subs
          (subid_next (subUidMin (defs self)) subUid0) subUid0).2;
     subGidEntryList := subs;
     subGidDict :=
       (add_missing (subGidMax (defs self)) (subGidCount (defs self)) subs
          (subid_next (subGidMin (defs self)) subGid0) subGid0).2;
     gshadowFile := gshadowFile self |}.

(** What [_fixate] needs in order to return: its four assertions hold,
    every system, normal and software user has a passwd record, there is no
    stand-alone group (the key function of their sort fails on the first
    one), and the two subordinate-id ranges have room for the entries to
    add. *)
Record fixate_returns (self : PasswdGroupShadow) : Prop := mk_fixate_returns {
  assert_system_users :
    Py.set_eq (systemUserList self) _stdSystemUserList = true;
  assert_system_groups :
    Py.set_eq (systemGroupList self) _stdSystemGroupList = true;
  assert_perUser_groups :
    Py.set_eq (perUserGroupList self) (normalUserList (fixated self)) = true;
  assert_shadow_entries :
    Py.set_ge (shadowEntryList self)
      (_stdSystemUserList ++ normalUserList (fixated self)) = true;
  users_have_records :
    Forall (λ u, is_Some (pwdDict self !! u))
      (_stdSystemUserList ++ normalUserList self ++ softwareUserList self);
  no_standAlone_group : standAloneGroupList self = [];
  subUid_room :
    (add_missing (subUidMax (defs self)) (subUidCount (defs self))
       (normalUserList (fixated self) ++ softwareUserList self)
       (subid_next (subUidMin (defs self))
          (drop_redundant (normalUserList (fixated self) ++ softwareUserList self)
             (subUidDict self)))
       (drop_redundant (normalUserList (fixated self) ++ softwareUserList self)
          (subUidDict self))).1 = Return tt;
  subGid_room :
    (add_missing (subGidMax (defs self)) (subGidCount (defs self))
       (normalUserList (fixated self) ++ softwareUserList self)
       (subid_next (subGidMin (defs self))
          (drop_redundant (normalUserList (fixated self) ++ softwareUserList self)
             (subGidDict self)))
       (drop_redundant (normalUserList (fixated self) ++ softwareUserList self)
          (subGidDict self))).1 = Return tt
}.

(** The gid the group record of [x] carries (0 if there is none). *)
Definition gid_of (self : PasswdGroupShadow) (x : string) : Z :=
  default 0 (gr_gid <$> grpDict self !! x).

(** One subordinate-id entry is in range, aligned and of the configured
    size. *)
Definition subid_ok (lo hi cnt : Z) (obj : _SubUidGidEntry) : Prop :=
  (lo ≤ start obj < hi) ∧ (start obj - lo) mod cnt = 0 ∧ count obj = cnt.

(** The users whose subordinate-id entries [_fixate] keeps. *)
Definition sub_users (self : PasswdGroupShadow) : list string :=
  normalUserList self ++ softwareUserList self.

(** The users stage 2 looks at in the secondary-group index. *)
Definition known_users (self : PasswdGroupShadow) : list string :=
  _stdSystemUserList ++ normalUserList self ++ softwareUserList self.

(** What stage 2 demands and [_fixate] does not touch: the block sizes are
    positive; software users and groups have ids below [uidMin] and
    [gidMin]; no user but [root] is recorded as a member of a deprecated
    group; gshadow is empty; the subordinate-id entries that are kept are
    valid; no system user is also listed as a software user. *)
Definition beyond_repair_ok (self : PasswdGroupShadow) : Prop :=
  (0 < subUidCount (defs self) ∧ 0 < subGidCount (defs self))
  ∧ Forall (λ u, uid_of self u < uidMin (defs self)) (softwareUserList self)
  ∧ Forall (λ g, is_Some (grpDict self !! g) ∧ gid_of self g < gidMin (defs self))
      (softwareGroupList self)
  ∧ map_Forall (λ u glist,
      u ≠ "root" → u ∈ known_users self →
      Forall (λ g, g ∉ deprecatedGroupList self) glist)
      (secondaryGroupsDict self)
  ∧ gshadowFile self = Some ""
  ∧ map_Forall (λ u obj,
      u ∈ sub_users self →
      subid_ok (subUidMin (defs self)) (subUidMax (defs self))
        (subUidCount (defs self)) obj)
      (subUidDict self)
  ∧ map_Forall (λ u obj,
      u ∈ sub_users self →
      subid_ok (subGidMin (defs self)) (subGidMax (defs self))
        (subGidCount (defs self)) obj)
      (subGidDict self)
  ∧ Forall (λ u, u ∉ softwareUserList self) _stdSystemUserList.

#[global] Instance beyond_repair_ok_dec self : Decision (beyond_repair_ok self).
Proof. unfold beyond_repair_ok, subid_ok. apply _. Defined.

#[global] Instance normal_user_ok_dec self uname : Decision (normal_user_ok self uname).
Proof.
  unfold normal_user_ok.
  destruct (pwdDict self !! uname) as [pw|]; [|right; by intros (?&?&?&?&?)].
  destruct (grpDict self !! uname) as [gr|]; [|right; by intros (?&?&?&?&?&?)].
  destruct (shDict self !! uname) as [sh|]; [|right; by intros (?&?&?&?&?&?&?)].
  destruct (decide ((uidMin (defs self) ≤ pw_uid pw < uidMax (defs self))
                    ∧ pw_uid pw = gr_gid gr
                    ∧ (4 < String.length (sh_encpwd sh))%nat)) as [Hok|Hno].
  - left. exists pw, gr, sh. tauto.
  - right. intros (pw' & gr' & sh' & Hp & Hg & Hs & Hrest).
    injection Hp as <-. injection Hg as <-. injection Hs as <-. tauto.
Defined.

(** What stage 1 checks, as a proposition. *)
Record stage1_ok (self : PasswdGroupShadow) : Prop := mk_stage1_ok {
  system_users_std : Py.set_eq (systemUserList self) _stdSystemUserList = true;
  system_users_shadow : Forall (λ u, is_Some (shDict self !! u)) (systemUserList self);
  normal_users_ok : Forall (normal_user_ok self) (normalUserList self);
  system_groups_std : Py.set_eq (systemGroupList self) _stdSystemGroupList = true;
  perUser_groups : Py.set_eq (perUserGroupList self) (normalUserList self) = true;
  standAlone_ok :
    Forall (λ g, is_Some (grpDict self !! g)
                 ∧ gidMin (defs self) ≤ gid_of self g < gidMax (defs self))
      (standAloneGroupList self)
}.

(** No member field names [root] more than once: once the first [root] is
    dropped, none is left. *)
Definition root_listed_once (self : PasswdGroupShadow) : Prop :=
  map_Forall (λ _ e,
    "root" ∉ Py.remove "root" (_nonEmptySplit (gr_mem e) comma)) (grpDict self).

(** ** What the loader establishes *)

(** The names on the four user lists and on the six group lists, in the
    order [_writePasswd] and [_writeGroup] go through them. *)
Definition all_users (self : PasswdGroupShadow) : list string :=
  systemUserList self ++ normalUserList self ++ softwareUserList self
  ++ deprecatedUserList self.

Definition all_groups (self : PasswdGroupShadow) : list string :=
  systemGroupList self ++ perUserGroupList self ++ standAloneGroupList self
  ++ deviceGroupList self ++ softwareGroupList self ++ deprecatedGroupList self.

(** Every record is on a list and every listed name has a record; every
    record is stored under the name it carries. *)
Record classified (self : PasswdGroupShadow) : Prop := mk_classified {
  users_classified : ∀ u, is_Some (pwdDict self !! u) ↔ u ∈ all_users self;
  groups_classified : ∀ g, is_Some (grpDict self !! g) ↔ g ∈ all_groups self;
  shadow_classified : ∀ u, is_Some (shDict self !! u) ↔ u ∈ shadowEntryList self;
  subUid_classified : ∀ u, is_Some (subUidDict self !! u) ↔ u ∈ subUidEntryList self;
  subGid_classified : ∀ u, is_Some (subGidDict self !! u) ↔ u ∈ subGidEntryList self;
  pwd_keyed : map_Forall (λ u e, pw_name e = u) (pwdDict self);
  grp_keyed : map_Forall (λ g e, gr_name e = g) (grpDict self);
  sh_keyed : map_Forall (λ u e, sh_name e = u) (shDict self);
  subUid_keyed : map_Forall (λ u e, name e = u) (subUidDict self);
  subGid_keyed : map_Forall (λ u e, name e = u) (subGidDict self)
}.



(** The body of the member loop of [_parseGroup], on the index alone: the
    group [g] is appended to the list of the member [u]. *)
Definition index_add (g : string) (index : gmap string (list string)) (u : string)
    : gmap string (list string) :=
  if bool_decide (u = "") then index
  else <[u := default [] (index !! u) ++ [g]]> index.

(** Every member a group record names has the group in its index entry. *)
Definition index_complete (self : PasswdGroupShadow) : Prop :=
  ∀ g e u, grpDict self !! g = Some e →
    u ∈ _nonEmptySplit (gr_mem e) comma → g ∈ secondary_groups self u.


(** The sample directory with a stand-alone group [staff]. *)
Definition sample_files_staff : Files :=
  {| passwd := passwd sample_files;
     group := Some (lines
       ["root:x:0:"; "nobody:x:65534:"; "nogroup:x:65533:"; "wheel:x:10:";
        "users:x:100:"; "alice:x:1000:"; "bob:x:1001:alice"; "audio:x:18:";
        "staff:x:5000:"; ""]);
     shadow := shadow sample_files;
     gshadow := gshadow sample_files;
     subuid := subuid sample_files;
     subgid := subgid sample_files |}.

Definition sample_staff : PasswdGroupShadow :=
  (sample_init sample_files_staff).2.

(** ** What the repair pass leaves alone *)

(** Two passwd records of one account: all but comment and shell agree. *)
Definition same_account (e e' : _PwdEntry) : Prop :=
  pw_name e' = pw_name e ∧ pw_passwd e' = pw_passwd e ∧ pw_uid e' = pw_uid e
  ∧ pw_gid e' = pw_gid e ∧ pw_dir e' = pw_dir e.

(** Two records of one group: name, password field and id agree, and so do
    the members other than [root], in their order. *)
Definition same_group (e e' : _GrpEntry) : Prop :=
  gr_name e' = gr_name e ∧ gr_passwd e' = gr_passwd e ∧ gr_gid e' = gr_gid e
  ∧ filter (λ x, x ≠ "root") (_nonEmptySplit (gr_mem e') comma)
    = filter (λ x, x ≠ "root") (_nonEmptySplit (gr_mem e) comma).

(** ** Subordinate-id ranges *)

(** Two ranges [start, start + count) that do not meet. *)
Definition ranges_apart (a b : _SubUidGidEntry) : Prop :=
  start a + count a ≤ start b ∨ start b + count b ≤ start a.

(** The entry [addNormalUser] makes for [username]: [cnt] ids that start
    at the greater of [lo] and the end of the highest range of [d]; that
    is, at a bound of [lo] and of all these ends that is one of them. *)
Definition fresh_range (lo cnt : Z) (d : gmap string _SubUidGidEntry)
    (username : string) (obj : _SubUidGidEntry) : Prop :=
  name obj = username ∧ count obj = cnt ∧ lo ≤ start obj
  ∧ (∀ k o, d !! k = Some o → start o + count o ≤ start obj)
  ∧ (start obj = lo
     ∨ ∃ k o, d !! k = Some o ∧ start obj = start o + count o).

(** Every entry of [d'] that [d] did not have has [cnt] ids from [lo] or
    above and meets no other entry of [d']. *)
Definition added_apart (lo cnt : Z) (d d' : gmap string _SubUidGidEntry) : Prop :=
  ∀ u obj, d !! u = None → d' !! u = Some obj →
    lo ≤ start obj ∧ count obj = cnt
    ∧ ∀ u' obj', u' ≠ u → d' !! u' = Some obj' → ranges_apart obj obj'.
From Stdlib Require Import DecimalString DecimalZ DecimalPos.

(** ** Writing the files

    [fmt_d] is the conversion ["%d" % z]: the decimal digits of [z], with a
    leading minus sign for a negative number. *)

Definition fmt_d (z : Z) : string := NilZero.string_of_int (Z.to_int z).

Definition _pwd2str (e : _PwdEntry) : string :=
  pw_name e +:+ ":" +:+ "x" +:+ ":" +:+ fmt_d (pw_uid e) +:+ ":"
  +:+ fmt_d (pw_gid e) +:+ ":" +:+ pw_gecos e +:+ ":" +:+ pw_dir e +:+ ":"
  +:+ pw_shell e.

Definition _grp2str (e : _GrpEntry) : string :=
  gr_name e +:+ ":" +:+ "x" +:+ ":" +:+ fmt_d (gr_gid e) +:+ ":" +:+ gr_mem e.

Definition _sh2str (e : _ShadowEntry) : string :=
  sh_name e +:+ ":" +:+ sh_encpwd e +:+ ":::::::".

Definition _subuidgid2str (e : _SubUidGidEntry) : string :=
  name e +:+ ":" +:+ fmt_d (start e) +:+ ":" +:+ fmt_d (count e).

(** [int] reads back what ["%d"] prints, as Python's does. *)
Definition int_reads_fmt_d `{Externals} : Prop := ∀ z, int (fmt_d z) = Some z.

(** The text written to an open file: a write appends to it, and an
    exception leaves what was written before it. *)
Definition W (A : Type) : Type := string → Outcome A * string.

Definition wret {A} (a : A) : W A := λ buf, (Return a, buf).

Definition wbind {A B} (m : W A) (k : A → W B) : W B :=
  λ buf,
    match m buf with
    | (Return a, buf') => k a buf'
    | (Raise e, buf') => (Raise e, buf')
    end.

Notation "'wdo' x <- m ; k" := (wbind m (λ x, k))
  (at level 10, x name, m at level 100, k at level 200, only parsing).

(** [f.write(s)]. *)
Definition write (s : string) : W unit := λ buf, (Return tt, buf +:+ s).

Definition wlift {A} (o : Outcome A) : W A :=
  match o with
  | Return a => wret a
  | Raise e => λ buf, (Raise e, buf)
  end.

Fixpoint wfor {A} (l : list A) (body : A → W unit) : W unit :=
  match l with
  | [] => wret tt
  | x :: l' => wdo _ <- body x; wfor l' body
  end.

(** [for x in l: f.write(to_str(d[x])); f.write("\n")]. *)
Definition write_entries {V} (to_str : V → string) (d : gmap string V)
    (l : list string) : W unit :=
  wfor l (λ x,
    wdo e <- wlift (getitem d x);
    wdo _ <- write (to_str e);
    write (String newline "")).

(** [self.manageFlag], set by [__init__] from its argument [msrc]. *)
Definition manageFlag (msrc : string) : string := "# manged by " +:+ msrc.

(** The bodies of the [with open(..., "w") as f] blocks. *)
Definition passwd_body (msrc : string) (self : PasswdGroupShadow) : W unit :=
  wdo _ <- write (manageFlag msrc +:+ String newline "");
  wdo _ <- write (String newline "");
  wdo _ <- write_entries _pwd2str (pwdDict self) (systemUserList self);
  wdo _ <- write (String newline "");
  wdo _ <- write_entries _pwd2str (pwdDict self) (normalUserList self);
  wdo _ <- write (String newline "");
  wdo _ <- write_entries _pwd2str (pwdDict self) (softwareUserList self);
  wdo _ <- write (String newline "");
  write_entries _pwd2str (pwdDict self) (deprecatedUserList self).

Definition group_body (msrc : string) (self : PasswdGroupShadow) : W unit :=
  wdo _ <- write (manageFlag msrc +:+ String newline "");
  wdo _ <- write (String newline "");
  wdo _ <- write_entries _grp2str (grpDict self) (systemGroupList self);
  wdo _ <- write (String newline "");
  wdo _ <- write_entries _grp2str (grpDict self) (perUserGroupList self);
  wdo _ <- write (String newline "");
  wdo _ <- write_entries _grp2str (grpDict self) (standAloneGroupList self);
  wdo _ <- write (String newline "");
  wdo _ <- write_entries _grp2str (grpDict self) (deviceGroupList self);
  wdo _ <- write (String newline "");
  wdo _ <- write_entries _grp2str (grpDict self) (softwareGroupList self);
  wdo _ <- write (String newline "");
  write_entries _grp2str (grpDict self) (deprecatedGroupList self).

Definition shadow_body (msrc : string) (self : PasswdGroupShadow) : W unit :=
  wdo _ <- write (manageFlag msrc +:+ String newline "");
  wdo _ <- write (String newline "");
  write_entries _sh2str (shDict self) (shadowEntryList self).

Definition subuid_body (msrc : string) (self : PasswdGroupShadow) : W unit :=
  wdo _ <- write (manageFlag msrc +:+ String newline "");
  wdo _ <- write (String newline "");
  write_entries _subuidgid2str (subUidDict self) (subUidEntryList self).

Definition subgid_body (msrc : string) (self : PasswdGroupShadow) : W unit :=
  wdo _ <- write (manageFlag msrc +:+ String newline "");
  wdo _ <- write (String newline "");
  write_entries _subuidgid2str (subGidDict self) (subGidEntryList self).

(** The files of the directory and their backup copies, the files whose
    names end in [-]. *)
Record Disk : Type := mkDisk {
  current : Files;
  backups : Files
}.

Definition with_passwd (v : option string) (fs : Files) : Files :=
  {| passwd := v; group := group fs; shadow := shadow fs; gshadow := gshadow fs;
     subuid := subuid fs; subgid := subgid fs |}.

Definition with_group (v : option string) (fs : Files) : Files :=
  {| passwd := passwd fs; group := v; shadow := shadow fs; gshadow := gshadow fs;
     subuid := subuid fs; subgid := subgid fs |}.

Definition with_shadow (v : option string) (fs : Files) : Files :=
  {| passwd := passwd fs; group := group fs; shadow := v; gshadow := gshadow fs;
     subuid := subuid fs; subgid := subgid fs |}.

Definition with_gshadow (v : option string) (fs : Files) : Files :=
  {| passwd := passwd fs; group := group fs; shadow := shadow fs; gshadow := v;
     subuid := subuid fs; subgid := subgid fs |}.

Definition with_subuid (v : option string) (fs : Files) : Files :=
  {| passwd := passwd fs; group := group fs; shadow := shadow fs;
     gshadow := gshadow fs; subuid := v; subgid := subgid fs |}.

Definition with_subgid (v : option string) (fs : Files) : Files :=
  {| passwd := passwd fs; group := group fs; shadow := shadow fs;
     gshadow := gshadow fs; subuid := subuid fs; subgid := v |}.

(** [shutil.copy2(f, f + "-")] and then [with open(f, "w") as f: body].
    The copy raises when the file does not exist; [_writeSubUid] and
    [_writeSubGid] copy only if it exists.  Opening for writing empties or
    creates the file. *)
Definition rewrite_file (get : Files → option string)
    (set : option string → Files → Files) (copy_if_exists : bool)
    (body : W unit) (disk : Disk) : Outcome unit * Disk :=
  match get (current disk) with
  | None =>
      if copy_if_exists then
        let r := body "" in
        (r.1, {| current := set (Some r.2) (current disk); backups := backups disk |})
      else (Raise FileNotFoundError, disk)
  | Some old =>
      let r := body "" in
      (r.1, {| current := set (Some r.2) (current disk);
               backups := set (Some old) (backups disk) |})
  end.

Definition _writePasswd (msrc : string) (self : PasswdGroupShadow)
    : Disk → Outcome unit * Disk :=
  rewrite_file passwd with_passwd false (passwd_body msrc self).

Definition _writeGroup (msrc : string) (self : PasswdGroupShadow)
    : Disk → Outcome unit * Disk :=
  rewrite_file group with_group false (group_body msrc self).

Definition _writeShadow (msrc : string) (self : PasswdGroupShadow)
    : Disk → Outcome unit * Disk :=
  rewrite_file shadow with_shadow false (shadow_body msrc self).

(** [f.truncate()] at position 0 of the file just opened for writing. *)
Definition _writeGroupShadow : Disk → Outcome unit * Disk :=
  rewrite_file gshadow with_gshadow false (wret tt).

Definition _writeSubUid (msrc : string) (self : PasswdGroupShadow)
    : Disk → Outcome unit * Disk :=
  rewrite_file subuid with_subuid true (subuid_body msrc self).

Definition _writeSubGid (msrc : string) (self : PasswdGroupShadow)
    : Disk → Outcome unit * Disk :=
  rewrite_file subgid with_subgid true (subgid_body msrc self).

(** [close()], with the attributes [readOnly] and [lockFd] of the object
    and the argument [msrc] of its constructor. *)
Definition then_write (r : Outcome unit * Disk) (k : Disk → Outcome unit * Disk)
    : Outcome unit * Disk :=
  match r with
  | (Return _, disk) => k disk
  | (Raise e, disk) => (Raise e, disk)
  end.

Definition close (readOnly : bool) (lockFd : option Z) (msrc : string)
    (self : PasswdGroupShadow) (disk : Disk)
    : Outcome unit * (PasswdGroupShadow * Disk) :=
  if negb (valid self) then (Raise AssertionError, (self, disk))
  else if readOnly then (Return tt, (set_valid (λ _, false) self, disk))
  else
    match _fixate self with
    | (Raise e, self1) => (Raise e, (self1, disk))
    | (Return _, self1) =>
        let r :=
          then_write (_writePasswd msrc self1 disk) (λ disk,
          then_write (_writeGroup msrc self1 disk) (λ disk,
          then_write (_writeShadow msrc self1 disk) (λ disk,
          then_write (_writeGroupShadow disk) (λ disk,
          then_write (_writeSubUid msrc self1 disk) (λ disk,
          _writeSubGid msrc self1 disk))))) in
        match r with
        | (Raise e, disk') => (Raise e, (self1, disk'))
        | (Return _, disk') =>
            match _unlockPwd lockFd with
            | Raise e => (Raise e, (self1, disk'))
            | Return _ => (Return tt, (set_valid (λ _, false) self1, disk'))
            end
        end
    end.

(** ** Clean text

    What a field must be like to survive a line of a colon-separated file
    that is written and then read in text mode: no colon and no line break
    in it, be it a line feed or a carriage return; a name at the start of a
    line must not begin with the comment sign. *)

Definition one_line (s : string) : bool :=
  negb (contains newline s) && negb (contains carriage_return s).

Definition plain (s : string) : bool :=
  negb (contains colon s) && one_line s.

Definition plain_name (s : string) : bool :=
  plain s && negb (Py.startswith "#" s).

(** The lines of a file, each ended by a line break. *)
Definition unlines (l : list string) : string :=
  foldr (λ x acc, x +:+ String newline acc) "" l.

(** ** What can be written and read back *)

Definition with_pw_passwd (v : string) (e : _PwdEntry) : _PwdEntry :=
  {| pw_name := pw_name e; pw_passwd := v; pw_uid := pw_uid e;
     pw_gid := pw_gid e; pw_gecos := pw_gecos e; pw_dir := pw_dir e;
     pw_shell := pw_shell e |}.

Definition with_gr_passwd (v : string) (e : _GrpEntry) : _GrpEntry :=
  {| gr_name := gr_name e; gr_passwd := v; gr_gid := gr_gid e;
     gr_mem := gr_mem e |}.

(** The list [_parsePasswd] appends a record to: the [if/elif] chain of its
    loop, as a function of the name and the uid. *)
Inductive UserCategory : Type :=
  | SystemUser | NormalUser | DeprecatedUser | SoftwareUser.

#[global] Instance UserCategory_eq_dec : EqDecision UserCategory.
Proof. solve_decision. Defined.

Definition user_category (ld : LoginDefs) (uname : string) (uid : Z)
    : UserCategory :=
  if Py.mem uname _stdSystemUserList then SystemUser
  else if (uidMin ld <=? uid) && (uid <? uidMax ld) then NormalUser
  else if Py.mem uname _stdDeprecatedUserList then DeprecatedUser
  else SoftwareUser.

Definition set_user_list (c : UserCategory)
    : (list string → list string) → PasswdGroupShadow → PasswdGroupShadow :=
  match c with
  | SystemUser => set_systemUserList
  | NormalUser => set_normalUserList
  | DeprecatedUser => set_deprecatedUserList
  | SoftwareUser => set_softwareUserList
  end.

(** The shadow table can be written and read back: every record is listed
    and every listed name has a record, every record is stored under its
    name, and the text is clean. *)
Definition shadow_writable (self : PasswdGroupShadow) : Prop :=
  listed_in (shadowEntryList self) (shDict self)
  ∧ map_Forall (λ u e, u ∈ shadowEntryList self ∧ sh_name e = u
                       ∧ plain_name u = true ∧ plain (sh_encpwd e) = true)
      (shDict self).

#[global] Instance shadow_writable_dec self : Decision (shadow_writable self).
Proof. unfold shadow_writable, listed_in. apply _. Defined.

(** The same for the passwd table, where in addition every name is on the
    list the parser would put it on. *)
Definition passwd_writable (self : PasswdGroupShadow) : Prop :=
  listed_in (all_users self) (pwdDict self)
  ∧ map_Forall (λ u e, u ∈ all_users self ∧ pw_name e = u
                       ∧ plain_name u = true ∧ plain (pw_gecos e) = true
                       ∧ plain (pw_dir e) = true ∧ plain (pw_shell e) = true)
      (pwdDict self)
  ∧ Forall (λ u, user_category (defs self) u (uid_of self u) = SystemUser)
      (systemUserList self)
  ∧ Forall (λ u, user_category (defs self) u (uid_of self u) = NormalUser)
      (normalUserList self)
  ∧ Forall (λ u, user_category (defs self) u (uid_of self u) = SoftwareUser)
      (softwareUserList self)
  ∧ Forall (λ u, user_category (defs self) u (uid_of self u) = DeprecatedUser)
      (deprecatedUserList self).

#[global] Instance passwd_writable_dec self : Decision (passwd_writable self).
Proof. unfold passwd_writable, listed_in. apply _. Defined.

(** A directory with the sample files and no backup, and an object that has
    read login.defs and nothing else. *)
Definition no_files : Files :=
  {| passwd := None; group := None; shadow := None; gshadow := None;
     subuid := None; subgid := None |}.

Definition sample_disk : Disk := {| current := sample_files; backups := no_files |}.

Definition sample_blank : PasswdGroupShadow := blank sample_defs sample_files.

(** The same for the two tables of subordinate ids. *)
Definition subid_writable (l : list string) (d : gmap string _SubUidGidEntry)
    : Prop :=
  listed_in l d
  ∧ map_Forall (λ u e, u ∈ l ∧ name e = u ∧ plain_name u = true) d.

#[global] Instance subid_writable_dec l d : Decision (subid_writable l d).
Proof. unfold subid_writable, listed_in. apply _. Defined.

(** The sample object after the repair pass: it has subordinate ids. *)
Definition sample_fixated : PasswdGroupShadow := (_fixate sample).2.

(** The list [_parseGroup] appends a record to: the [if/elif] chain of its
    loop, as a function of the name and the gid; [normal] is the list of
    normal users the caller passes. *)
Inductive GroupCategory : Type :=
  | SystemGroup | PerUserGroup | DeviceGroup | DeprecatedGroup
  | StandAloneGroup | SoftwareGroup.

#[global] Instance GroupCategory_eq_dec : EqDecision GroupCategory.
Proof. solve_decision. Defined.

Definition group_category (ld : LoginDefs) (normal : list string)
    (gname : string) (gid : Z) : GroupCategory :=
  if Py.mem gname _stdSystemGroupList then SystemGroup
  else if Py.mem gname normal then PerUserGroup
  else if Py.mem gname _stdDeviceGroupList then DeviceGroup
  else if Py.mem gname _stdDeprecatedGroupList then DeprecatedGroup
  else if (gidMin ld <=? gid) && (gid <? gidMax ld) then StandAloneGroup
  else SoftwareGroup.

Definition set_group_list (c : GroupCategory)
    : (list string → list string) → PasswdGroupShadow → PasswdGroupShadow :=
  match c with
  | SystemGroup => set_systemGroupList
  | PerUserGroup => set_perUserGroupList
  | DeviceGroup => set_deviceGroupList
  | DeprecatedGroup => set_deprecatedGroupList
  | StandAloneGroup => set_standAloneGroupList
  | SoftwareGroup => set_softwareGroupList
  end.

(** The index [_parseGroup] builds from the records of a group file, line
    by line. *)
Definition member_index (es : list _GrpEntry) : gmap string (list string) :=
  foldl (λ index e, foldl (index_add (gr_name e)) index (Py.split comma (gr_mem e)))
    ∅ es.

(** The records of the names of a list, in the order of the list; a name
    without a record is left out. *)
Definition records_of {V} (d : gmap string V) (l : list string) : list V :=
  omap (λ u, d !! u) l.

(** The group table can be written and read back. *)
Definition group_writable (self : PasswdGroupShadow) : Prop :=
  listed_in (all_groups self) (grpDict self)
  ∧ map_Forall (λ g e, g ∈ all_groups self ∧ gr_name e = g
                       ∧ plain_name g = true ∧ plain (gr_mem e) = true)
      (grpDict self)
  ∧ Forall (λ g, group_category (defs self) (normalUserList self) g (gid_of self g)
                 = SystemGroup) (systemGroupList self)
  ∧ Forall (λ g, group_category (defs self) (normalUserList self) g (gid_of self g)
                 = PerUserGroup) (perUserGroupList self)
  ∧ Forall (λ g, group_category (defs self) (normalUserList self) g (gid_of self g)
                 = StandAloneGroup) (standAloneGroupList self)
  ∧ Forall (λ g, group_category (defs self) (normalUserList self) g (gid_of self g)
                 = DeviceGroup) (deviceGroupList self)
  ∧ Forall (λ g, group_category (defs self) (normalUserList self) g (gid_of self g)
                 = SoftwareGroup) (softwareGroupList self)
  ∧ Forall (λ g, group_category (defs self) (normalUserList self) g (gid_of self g)
                 = DeprecatedGroup) (deprecatedGroupList self).

#[global] Instance group_writable_dec self : Decision (group_writable self).
Proof. unfold group_writable, listed_in. apply _. Defined.

(** All five tables can be written and read back. *)
Definition writable (self : PasswdGroupShadow) : Prop :=
  passwd_writable self ∧ group_writable self ∧ shadow_writable self
  ∧ subid_writable (subUidEntryList self) (subUidDict self)
  ∧ subid_writable (subGidEntryList self) (subGidDict self).

#[global] Instance writable_dec self : Decision (writable self).
Proof. unfold writable. apply _. Defined.


(** What [_parseLoginDef] has checked when it returns. *)
Record policy_ok (ld : LoginDefs) : Prop := mk_policy_ok {
  uid_range : uidMin ld ≤ uidMax ld;
  gid_range : gidMin ld ≤ gidMax ld;
  subUid_range : subUidMin ld ≤ subUidMax ld;
  subUid_blocks :
    subUidCount ld ≠ 0 ∧ (subUidMax ld - subUidMin ld) mod subUidCount ld = 0;
  subGid_range : subGidMin ld ≤ subGidMax ld;
  subGid_blocks :
    subGidCount ld ≠ 0 ∧ (subGidMax ld - subGidMin ld) mod subGidCount ld = 0
}.

(** The stock login.defs. *)
Definition stock_login_defs : string :=
  lines ["UID_MIN 1000"; "UID_MAX 10000"; "GID_MIN 1000"; "GID_MAX 10000";
         "SUB_UID_MIN 100000"; "SUB_UID_MAX 165536"; "SUB_UID_COUNT 65536";
         "SUB_GID_MIN 100000"; "SUB_GID_MAX 165536"; "SUB_GID_COUNT 65536"].

(** The same with blocks of size zero. *)
Definition zero_count_login_defs : string :=
  lines ["UID_MIN 1000"; "UID_MAX 10000"; "GID_MIN 1000"; "GID_MAX 10000";
         "SUB_UID_MIN 100000"; "SUB_UID_MAX 165536"; "SUB_UID_COUNT 0";
         "SUB_GID_MIN 100000"; "SUB_GID_MAX 165536"; "SUB_GID_COUNT 65536"].

Definition zero_count_defs : LoginDefs :=
  {| uidMin := 1000; uidMax := 10000; gidMin := 1000; gidMax := 10000;
     subUidMin := 100000; subUidMax := 165536; subUidCount := 0;
     subGidMin := 100000; subGidMax := 165536; subGidCount := 65536 |}.

(** * Properties *)

Ltac proj_simpl :=
  cbn [valid defs systemUserList normalUserList softwareUserList
       deprecatedUserList pwdDict systemGroupList deviceGroupList
       perUserGroupList standAloneGroupList softwareGroupList
       deprecatedGroupList secondaryGroupsDict grpDict shadowEntryList shDict
       subUidEntryList subUidDict subGidEntryList subGidDict gshadowFile
       set_valid set_systemUserList set_normalUserList set_softwareUserList
       set_deprecatedUserList set_pwdDict set_systemGroupList
       set_deviceGroupList set_perUserGroupList set_standAloneGroupList
       set_softwareGroupList set_deprecatedGroupList set_secondaryGroupsDict
       set_grpDict set_shadowEntryList set_shDict set_subUidEntryList
       set_subUidDict set_subGidEntryList set_subGidDict] in *.

Ltac munfold :=
  cbv beta iota delta [bind this update assert ret raise lift when] in *.

Lemma mem_true {A} `{EqDecision A} (x : A) l : Py.mem x l = true ↔ x ∈ l.
Proof. unfold Py.mem. apply bool_decide_eq_true. Qed.

Lemma mem_false {A} `{EqDecision A} (x : A) l : Py.mem x l = false ↔ x ∉ l.
Proof. unfold Py.mem. apply bool_decide_eq_false. Qed.

Lemma elem_of_values {V} (d : gmap string V) (v : V) :
  v ∈ Py.values d ↔ ∃ k, d !! k = Some v.
Proof.
  unfold Py.values. rewrite list_elem_of_fmap. split.
  - intros [[k v'] [-> Hin]]. exists k. by apply elem_of_map_to_list in Hin.
  - intros [k Hk]. exists (k, v). split; [done|]. by apply elem_of_map_to_list.
Qed.

Section AddNormalUser.
Context `{Externals}.

Lemma mem_uids self z :
  Py.mem z (pw_uid <$> Py.values (pwdDict self)) = true
  ↔ ∃ k e, pwdDict self !! k = Some e ∧ pw_uid e = z.
Proof.
  rewrite mem_true, list_elem_of_fmap. split.
  - intros [e [-> He]]. apply elem_of_values in He as [k Hk]. eauto.
  - intros (k & e & Hk & <-). exists e. split; [done|]. apply elem_of_values; eauto.
Qed.

Lemma mem_gids self z :
  Py.mem z (gr_gid <$> Py.values (grpDict self)) = true
  ↔ ∃ k e, grpDict self !! k = Some e ∧ gr_gid e = z.
Proof.
  rewrite mem_true, list_elem_of_fmap. split.
  - intros [e [-> He]]. apply elem_of_values in He as [k Hk]. eauto.
  - intros (k & e & Hk & <-). exists e. split; [done|]. apply elem_of_values; eauto.
Qed.

Lemma addNormalUser_newUid_spec self fuel n :
  Z.max 0 (10000 - n) < Z.of_nat fuel →
  match addNormalUser_newUid fuel self n with
  | Return u =>
      n ≤ u < 10000 ∧ ¬ id_used self u ∧ ∀ z, n ≤ z < u → id_used self z
  | Raise e => e = PgsAddUserError ∧ ∀ z, n ≤ z < 10000 → id_used self z
  end.
Proof.
  revert n. induction fuel as [|fuel IH]; intros n Hfuel; [lia|].
  cbn [addNormalUser_newUid].
  destruct (10000 <=? n) eqn:Hn.
  { apply Z.leb_le in Hn. split; [done|]. intros; lia. }
  apply Z.leb_gt in Hn.
  assert (Hstep : id_used self n →
    match addNormalUser_newUid fuel self (n + 1) with
    | Return u =>
        n ≤ u < 10000 ∧ ¬ id_used self u ∧ ∀ z, n ≤ z < u → id_used self z
    | Raise e => e = PgsAddUserError ∧ ∀ z, n ≤ z < 10000 → id_used self z
    end).
  { intros Hused. specialize (IH (n + 1) ltac:(lia)).
    destruct (addNormalUser_newUid fuel self (n + 1)) as [u|e].
    - destruct IH as (? & ? & Hz). repeat split; [lia|lia|done|].
      intros z Hzn. destruct (decide (z = n)) as [->|]; [done|]. apply Hz; lia.
    - destruct IH as (-> & Hz). split; [done|].
      intros z Hzn. destruct (decide (z = n)) as [->|]; [done|]. apply Hz; lia. }
  destruct (Py.mem n (pw_uid <$> Py.values (pwdDict self))) eqn:Hu.
  { apply Hstep. left. by apply mem_uids. }
  destruct (Py.mem n (gr_gid <$> Py.values (grpDict self))) eqn:Hg.
  { apply Hstep. right. by apply mem_gids. }
  repeat split; [lia|lia| |intros; lia].
  intros [Hused|Hused].
  - apply mem_uids in Hused. congruence.
  - apply mem_gids in Hused. congruence.
Qed.

(** C1.  Called with a name that is neither a user nor a group,
    [addNormalUser] raises [PgsAddUserError] and leaves the object as it is
    when every integer of [1000, 10000) is the uid of a user or the gid of a
    group; when one of them is free it returns, and the uid and gid of the
    new user and the gid of the new per-user group are the smallest integer
    [>= 1000] that was neither a uid nor a gid.  The one way the call can
    end otherwise is the exception of the hash call, and the two records
    are stored with that id by then. *)
Theorem addNormalUser_allocates_smallest_free_id
    (self : PasswdGroupShadow) (username password : string) :
  valid self = true →
  pwdDict self !! username = None →
  grpDict self !! username = None →
  ((∀ z, 1000 ≤ z < 10000 → id_used self z) →
     addNormalUser username password self = (Raise PgsAddUserError, self))
  ∧ ((∃ z, 1000 ≤ z < 10000 ∧ ¬ id_used self z) →
     ∃ newUid self',
       addNormalUser username password self
       = (match encrypt password with
          | Return _ => Return tt
          | Raise e => Raise e
          end, self')
       ∧ 1000 ≤ newUid ∧ ¬ id_used self newUid
       ∧ (∀ z, 1000 ≤ z < newUid → id_used self z)
       ∧ (∃ pw, pwdDict self' !! username = Some pw
                ∧ pw_uid pw = newUid ∧ pw_gid pw = newUid)
       ∧ (∃ gr, grpDict self' !! username = Some gr ∧ gr_gid gr = newUid)
       ∧ username ∈ normalUserList self'
       ∧ username ∈ perUserGroupList self').
Proof.
  intros Hvalid Hpw Hgr.
  pose proof (addNormalUser_newUid_spec self (Z.to_nat 9001) 1000 ltac:(lia)) as Hloop.
  unfold addNormalUser. munfold. rewrite Hvalid, Hpw, Hgr.
  rewrite !bool_decide_eq_false_2 by (intros [? ?]; discriminate).
  cbn [negb].
  destruct (addNormalUser_newUid (Z.to_nat 9001) self 1000) as [u|e].
  - destruct Hloop as (Hu & Hfree & Hmin). split.
    + intros Hall. exfalso. apply Hfree, Hall. lia.
    + intros _. destruct (encrypt password) as [encpwd|e];
        (eexists u, _; split; [reflexivity|]; proj_simpl;
         repeat split; [lia|done|done| | | |]).
      all: try (eexists; rewrite lookup_insert_eq; done).
      all: apply elem_of_app; right; by apply list_elem_of_singleton.
  - destruct Hloop as (-> & Hall). split; [done|].
    intros (z & Hz & Hfree). exfalso. by apply Hfree, Hall.
Qed.
End AddNormalUser.

Example sample_loads :
  (sample_init sample_files).1 = Return tt.
Proof. vm_compute. reflexivity. Qed.

Lemma addNormalUser_allocates_smallest_free_id_witness :
  ∃ newUid self',
    @addNormalUser demo "carol" "secret" sample = (Return tt, self')
    ∧ 1000 ≤ newUid ∧ ¬ id_used sample newUid
    ∧ (∀ z, 1000 ≤ z < newUid → id_used sample z)
    ∧ (∃ pw, pwdDict self' !! "carol" = Some pw
             ∧ pw_uid pw = newUid ∧ pw_gid pw = newUid)
    ∧ (∃ gr, grpDict self' !! "carol" = Some gr ∧ gr_gid gr = newUid)
    ∧ "carol" ∈ normalUserList self'
    ∧ "carol" ∈ perUserGroupList self'.
Proof.
  apply (proj2 (@addNormalUser_allocates_smallest_free_id demo sample
                  "carol" "secret" eq_refl eq_refl eq_refl)).
  exists 1002. split; [lia|].
  intros [Hu|Hg].
  - apply mem_uids in Hu. vm_compute in Hu. discriminate.
  - apply mem_gids in Hg. vm_compute in Hg. discriminate.
Defined.

(** ** Loops that only read *)

Lemma ofor_ok {A} (l : list A) (body : A → Outcome unit) :
  (∀ x, x ∈ l → body x = Return tt) → ofor l body = Return tt.
Proof.
  induction l as [|x l IH]; intros Hall; [done|].
  cbn. rewrite Hall by apply list_elem_of_here. cbn.
  apply IH. intros y Hy. apply Hall. by apply list_elem_of_further.
Qed.

Lemma ofor_app {A} (l1 l2 : list A) (body : A → Outcome unit) :
  ofor (l1 ++ l2) body = obind (ofor l1 body) (λ _, ofor l2 body).
Proof.
  induction l1 as [|x l1 IH]; [done|].
  cbn. destruct (body x) as [[]|e]; cbn; [apply IH|done].
Qed.

Lemma ofor_inv {A} (l : list A) (body : A → Outcome unit) :
  ofor l body = Return tt → ∀ x, x ∈ l → body x = Return tt.
Proof.
  induction l as [|y l IH]; intros Hok x Hx; [by apply elem_of_nil in Hx|].
  cbn in Hok. destruct (body y) as [[]|e] eqn:Hy; cbn in Hok; [|done].
  apply elem_of_cons in Hx as [->|Hx]; [done|]. by apply IH.
Qed.

Lemma values_nonempty {V} (d : gmap string V) :
  d ≠ ∅ → ∃ v vs, Py.values d = v :: vs.
Proof.
  intros Hne. unfold Py.values.
  destruct (map_to_list d) as [|[k v] l] eqn:Hl.
  - by apply map_to_list_empty_iff in Hl.
  - by exists v, (l.*2).
Qed.

(** C2.  On an open object that holds at least one group, which every
    loaded object does, [addStandAloneGroup] called with an unused name
    neither allocates an id nor raises [PgsAddGroupError]: the first turn of
    its loop reads the attribute [grp_gid], which no group entry has, and the
    call ends with [AttributeError], the object unchanged. *)
Theorem addStandAloneGroup_raises_AttributeError
    (self : PasswdGroupShadow) (groupname : string) :
  valid self = true →
  grpDict self !! groupname = None →
  grpDict self ≠ ∅ →
  addStandAloneGroup groupname self = (Raise (AttributeError "grp_gid"), self).
Proof.
  intros Hvalid Hfresh Hne.
  destruct (values_nonempty _ Hne) as (v & vs & Hvs).
  unfold addStandAloneGroup. munfold. rewrite Hvalid, Hfresh.
  rewrite bool_decide_eq_false_2 by (intros [? ?]; discriminate).
  cbn [negb].
  change (Z.to_nat 5001) with (S (Z.to_nat 5000)).
  cbn [addStandAloneGroup_newGid]. rewrite Hvs.
  reflexivity.
Qed.

Lemma addStandAloneGroup_raises_AttributeError_witness :
  addStandAloneGroup "staff" sample = (Raise (AttributeError "grp_gid"), sample).
Proof.
  apply addStandAloneGroup_raises_AttributeError.
  - reflexivity.
  - vm_compute. reflexivity.
  - intros Hempty.
    assert (Hroot : grpDict sample !! "root" = None) by (rewrite Hempty; apply lookup_empty).
    vm_compute in Hroot. discriminate.
Defined.

(** C7.  When the first normal user without a shadow entry is reached, and
    the checks before it pass, stage 1 does not raise [PgsFormatError]: it
    reads [self.shDict[uname]] for the length test before it tests
    [uname not in self.shDict], and ends with [KeyError]. *)
Theorem _verifyStage1_missing_shadow_KeyError
    (self : PasswdGroupShadow) (before after : list string) (uname : string)
    (pw : _PwdEntry) (gr : _GrpEntry) :
  Py.set_eq (systemUserList self) _stdSystemUserList = true →
  (∀ u, u ∈ systemUserList self → is_Some (shDict self !! u)) →
  normalUserList self = before ++ uname :: after →
  (∀ u, u ∈ before → normal_user_ok self u) →
  pwdDict self !! uname = Some pw →
  grpDict self !! uname = Some gr →
  uidMin (defs self) ≤ pw_uid pw < uidMax (defs self) →
  pw_uid pw = gr_gid gr →
  shDict self !! uname = None →
  _verifyStage1 self = Raise (KeyError uname).
Proof.
  intros Hsys Hsyssh Hnormal Hbefore Hpw Hgr Hrange Hgid Hsh.
  unfold _verifyStage1. rewrite Hsys. cbn [negb raise_if obind].
  rewrite ofor_ok; cbn [obind].
  2:{ intros u Hu. unfold haskey.
      rewrite bool_decide_eq_true_2 by auto. done. }
  rewrite Hnormal, ofor_app.
  rewrite ofor_ok; cbn [obind].
  2:{ intros u Hu. unfold getitem, haskey.
      destruct (Hbefore u Hu) as (pw' & gr' & sh' & -> & -> & Hsh' & Hr & He & Hl).
      rewrite Hsh'. cbn [obind].
      replace (uidMin (defs self) <=? pw_uid pw') with true by (symmetry; apply Z.leb_le; lia).
      replace (pw_uid pw' <? uidMax (defs self)) with true by (symmetry; apply Z.ltb_lt; lia).
      replace (pw_uid pw' =? gr_gid gr') with true by (symmetry; apply Z.eqb_eq; lia).
      replace (String.length (sh_encpwd sh') <=? 4)%nat with false
        by (symmetry; apply Nat.leb_gt; lia).
      rewrite bool_decide_eq_true_2 by eauto. done. }
  cbn [ofor]. unfold getitem. rewrite Hpw, Hgr, Hsh. cbn [obind].
  replace (uidMin (defs self) <=? pw_uid pw) with true by (symmetry; apply Z.leb_le; lia).
  replace (pw_uid pw <? uidMax (defs self)) with true by (symmetry; apply Z.ltb_lt; lia).
  replace (pw_uid pw =? gr_gid gr) with true by (symmetry; apply Z.eqb_eq; lia).
  reflexivity.
Qed.

Lemma Forall_by_computation {A} (P : A → Prop) `{∀ x, Decision (P x)} (l : list A) :
  bool_decide (Forall P l) = true → ∀ x, x ∈ l → P x.
Proof. intros Hb. apply Forall_forall. by apply bool_decide_eq_true in Hb. Qed.

(** Loading the sample directory without the shadow line of [alice] ends in
    [KeyError], raised by the stage-1 run that closes [__init__]. *)
Example load_without_shadow_line :
  (sample_init sample_files_no_shadow).1 = Raise (KeyError "alice").
Proof. vm_compute. reflexivity. Qed.

Lemma _verifyStage1_missing_shadow_KeyError_witness :
  _verifyStage1 sample_no_shadow = Raise (KeyError "alice").
Proof.
  eapply (_verifyStage1_missing_shadow_KeyError _ [] ["bob"] "alice").
  - vm_compute. reflexivity.
  - apply (Forall_by_computation (λ u, is_Some (shDict sample_no_shadow !! u))).
    vm_compute. reflexivity.
  - vm_compute. reflexivity.
  - intros u Hu. by apply elem_of_nil in Hu.
  - vm_compute. reflexivity.
  - vm_compute. reflexivity.
  - vm_compute. split; [discriminate | reflexivity].
  - vm_compute. reflexivity.
  - vm_compute. reflexivity.
Defined.

(** ** The classifier of [_parsePasswd] *)

Lemma deprecated_user_not_system (uname : string) :
  uname ∈ _stdDeprecatedUserList → Py.mem uname _stdSystemUserList = false.
Proof.
  unfold _stdDeprecatedUserList. intros Hin.
  repeat (apply elem_of_cons in Hin as [->|Hin]; [by vm_compute|]).
  by apply elem_of_nil in Hin.
Qed.

(** [bin], a deprecated name, with uid 1000 is put on the list of normal
    users and not on the list of deprecated users. *)
Lemma deprecated_name_in_range_is_normal :
  let self := (@_parsePasswd demo (Some bin_in_range) (blank sample_defs sample_files)).2 in
  "bin" ∈ _stdDeprecatedUserList
  ∧ (∃ pw, pwdDict self !! "bin" = Some pw
           ∧ uidMin (defs self) ≤ pw_uid pw < uidMax (defs self))
  ∧ deprecatedUserList self = []
  ∧ normalUserList self = ["bin"].
Proof.
  cbv zeta. split; [|split; [|split]].
  - unfold _stdDeprecatedUserList. apply list_elem_of_here.
  - eexists. split; [vm_compute; reflexivity|].
    vm_compute. split; [discriminate | reflexivity].
  - vm_compute. reflexivity.
  - vm_compute. reflexivity.
Qed.

(** For a record of seven fields whose name is on the deprecated list, the
    classifier of [_parsePasswd] applies the numeric test first: the name
    is appended to the normal users when the uid lies in
    [[uidMin, uidMax)], and to the deprecated users only when it lies
    outside; no other category list changes. *)
Lemma _parsePasswd_fields_deprecated_name `{Externals}
    (self : PasswdGroupShadow) (t : list string) (uid gid : Z) :
  length t = 7%nat →
  int (item t 2) = Some uid →
  int (item t 3) = Some gid →
  item t 0 ∈ _stdDeprecatedUserList →
  ∃ self',
    _parsePasswd_fields t self = (Return tt, self')
    ∧ systemUserList self' = systemUserList self
    ∧ softwareUserList self' = softwareUserList self
    ∧ (uidMin (defs self) ≤ uid < uidMax (defs self) →
         normalUserList self' = normalUserList self ++ [item t 0]
         ∧ deprecatedUserList self' = deprecatedUserList self)
    ∧ (¬ uidMin (defs self) ≤ uid < uidMax (defs self) →
         normalUserList self' = normalUserList self
         ∧ deprecatedUserList self' = deprecatedUserList self ++ [item t 0]).
Proof.
  intros Hlen Huid Hgid Hdep.
  unfold _parsePasswd_fields, _PwdEntry_init, int_. munfold.
  rewrite Hlen, Huid, Hgid. cbn [Nat.eqb negb raise_if obind]. proj_simpl.
  rewrite (deprecated_user_not_system _ Hdep).
  apply mem_true in Hdep. rewrite Hdep.
  destruct (uidMin (defs self) <=? uid) eqn:Hlo;
    destruct (uid <? uidMax (defs self)) eqn:Hhi; cbn [andb];
    eexists; (split; [reflexivity|]); proj_simpl;
    repeat split; try done;
    try (apply Z.leb_le in Hlo); try (apply Z.leb_gt in Hlo);
    try (apply Z.ltb_lt in Hhi); try (apply Z.ltb_ge in Hhi); lia.
Qed.

(** The sibling classifier, of [_parseGroup], tests the deprecated names
    before the numeric range: a record of four fields whose name is on the
    list of deprecated groups, and is no system group, no normal user
    and no device group, is appended to the deprecated groups whatever its
    gid, and to no other list. *)
Lemma _parseGroup_fields_deprecated_name `{Externals}
    (self : PasswdGroupShadow) (normal : list string) (t : list string) (gid : Z) :
  length t = 4%nat →
  int (item t 2) = Some gid →
  item t 0 ∈ _stdDeprecatedGroupList →
  Py.mem (item t 0) normal = false →
  ∃ self',
    _parseGroup_fields normal t self = (Return tt, self')
    ∧ deprecatedGroupList self' = deprecatedGroupList self ++ [item t 0]
    ∧ standAloneGroupList self' = standAloneGroupList self
    ∧ softwareGroupList self' = softwareGroupList self
    ∧ systemGroupList self' = systemGroupList self
    ∧ perUserGroupList self' = perUserGroupList self
    ∧ deviceGroupList self' = deviceGroupList self.
Proof.
  intros Hlen Hgid Hdep Hnormal.
  assert (Hsys : Py.mem (item t 0) _stdSystemGroupList = false
                 ∧ Py.mem (item t 0) _stdDeviceGroupList = false).
  { unfold _stdDeprecatedGroupList in Hdep.
    repeat (apply elem_of_cons in Hdep as [->|Hdep]; [by vm_compute|]).
    by apply elem_of_nil in Hdep. }
  destruct Hsys as [Hsys Hdev]. apply mem_true in Hdep.
  set (P := λ s : PasswdGroupShadow,
         deprecatedGroupList s = deprecatedGroupList self ++ [item t 0]
         ∧ standAloneGroupList s = standAloneGroupList self
         ∧ softwareGroupList s = softwareGroupList self
         ∧ systemGroupList s = systemGroupList self
         ∧ perUserGroupList s = perUserGroupList self
         ∧ deviceGroupList s = deviceGroupList self).
  unfold _parseGroup_fields, _GrpEntry_init, int_.
  rewrite Hlen, Hgid, Hsys, Hnormal, Hdev, Hdep.
  cbn [Nat.eqb negb raise_if obind]. munfold.
  match goal with
  | |- ∃ self', for_ ?l ?body ?s0 = _ ∧ _ =>
      assert (Hloop : ∀ s, P s → ∃ s', for_ l body s = (Return tt, s') ∧ P s')
  end.
  { generalize (Py.split comma (item t 3)). intros l.
    induction l as [|u l IH]; intros s Hs; [by exists s|].
    cbn [for_]. unfold bind at 1.
    destruct (bool_decide (u = "")); [by apply IH|].
    unfold haskey, getitem.
    destruct (secondaryGroupsDict s !! u) as [glist|] eqn:Hk.
    - rewrite bool_decide_eq_true_2 by (by eexists). cbn [negb]. rewrite Hk.
      apply IH. exact Hs.
    - rewrite bool_decide_eq_false_2 by (intros [? ?]; discriminate).
      cbn [negb]. proj_simpl. rewrite lookup_insert_eq. apply IH. exact Hs. }
  apply Hloop. unfold P. proj_simpl. done.
Qed.

(** C3.  The code diverges from the claim.  For a record of seven fields
    whose name is on the deprecated list and whose uid lies in
    [[uidMin, uidMax)], [_parsePasswd] appends the name to the normal
    users and leaves the deprecated users as they are: the range test
    comes before the test against the deprecated names (in [_parseGroup]
    it comes after). *)
Theorem _parsePasswd_fields_deprecated_name_in_range `{Externals}
    (self : PasswdGroupShadow) (t : list string) (uid gid : Z) :
  length t = 7%nat →
  int (item t 2) = Some uid →
  int (item t 3) = Some gid →
  item t 0 ∈ _stdDeprecatedUserList →
  uidMin (defs self) ≤ uid < uidMax (defs self) →
  ∃ self',
    _parsePasswd_fields t self = (Return tt, self')
    ∧ normalUserList self' = normalUserList self ++ [item t 0]
    ∧ deprecatedUserList self' = deprecatedUserList self
    ∧ systemUserList self' = systemUserList self
    ∧ softwareUserList self' = softwareUserList self.
Proof.
  intros Hlen Huid Hgid Hdep Hrange.
  destruct (_parsePasswd_fields_deprecated_name self t uid gid Hlen Huid Hgid Hdep)
    as (self' & Hrun & Hsys & Hsw & Hin & _).
  destruct (Hin Hrange) as [Hn Hd]. by exists self'.
Qed.

Lemma _parsePasswd_fields_deprecated_name_in_range_witness :
  ∃ self',
    @_parsePasswd_fields demo (Py.split colon bin_in_range)
      (blank sample_defs sample_files) = (Return tt, self')
    ∧ normalUserList self' = [] ++ ["bin"]
    ∧ deprecatedUserList self' = []
    ∧ systemUserList self' = []
    ∧ softwareUserList self' = [].
Proof.
  apply (@_parsePasswd_fields_deprecated_name_in_range demo
           (blank sample_defs sample_files) (Py.split colon bin_in_range)
           1000 1000).
  - vm_compute. reflexivity.
  - vm_compute. reflexivity.
  - vm_compute. reflexivity.
  - vm_compute. apply list_elem_of_here.
  - vm_compute. split; [discriminate | reflexivity].
Defined.

(** The same name and gid in the group file: [bin] with gid 1000 is put on
    the list of deprecated groups, not on the list of stand-alone groups. *)
Example deprecated_group_in_range_is_deprecated :
  let self := (@_parseGroup demo (Some "bin:x:1000:") []
                 (blank sample_defs sample_files)).2 in
  deprecatedGroupList self = ["bin"] ∧ standAloneGroupList self = [].
Proof. vm_compute. split; reflexivity. Qed.

(** ** Sorting *)

Section Sort.
Context {A : Type} (le : A → A → bool).

Let R (x y : A) : Prop := le x y = true.

Lemma insert_le_perm (x : A) (l : list A) : Py.insert_le le x l ≡ₚ x :: l.
Proof.
  induction l as [|y l IH]; [done|].
  cbn. destruct (le x y); [done|].
  rewrite IH. apply Permutation_swap.
Qed.

Lemma sort_le_perm (l : list A) : Py.sort_le le l ≡ₚ l.
Proof.
  induction l as [|x l IH]; [done|].
  cbn. rewrite insert_le_perm. by f_equiv.
Qed.

Hypothesis le_total : ∀ x y, le x y = true ∨ le y x = true.

Lemma insert_le_sorted (x : A) (l : list A) :
  Sorted R l → Sorted R (Py.insert_le le x l).
Proof.
  induction 1 as [|y l Hl IH Hhd]; cbn.
  - repeat constructor.
  - destruct (le x y) eqn:Hxy.
    + constructor; [by constructor|]. by constructor.
    + constructor; [done|].
      assert (Hyx : R y x) by (destruct (le_total x y); [congruence|done]).
      destruct l as [|z l]; cbn in *; [by constructor|].
      destruct (le x z); constructor; [done|]. by inversion Hhd.
Qed.

Lemma sort_le_sorted (l : list A) : Sorted R (Py.sort_le le l).
Proof.
  induction l as [|x l IH]; cbn; [constructor|]. by apply insert_le_sorted.
Qed.

(** Sorting a sorted list changes nothing. *)
Lemma sort_le_id (l : list A) : Sorted R l → Py.sort_le le l = l.
Proof.
  induction 1 as [|x l Hl IH Hhd]; [done|].
  cbn. fold (Py.sort_le le l). rewrite IH.
  destruct Hhd as [|y l Hxy]; [done|]. cbn. by rewrite Hxy.
Qed.

Lemma sort_le_idemp (l : list A) :
  Py.sort_le le (Py.sort_le le l) = Py.sort_le le l.
Proof. apply sort_le_id, sort_le_sorted. Qed.

End Sort.

Lemma sort_le_fmap {A B} (le : B → B → bool) (g : A → B) (l : list A) :
  Py.sort_le le (g <$> l) = g <$> Py.sort_le (λ x y, le (g x) (g y)) l.
Proof.
  induction l as [|x l IH]; [done|].
  cbn. fold (Py.sort_le le (g <$> l)). fold (Py.sort_le (λ x y, le (g x) (g y)) l).
  rewrite IH. generalize (Py.sort_le (λ x y, le (g x) (g y)) l). intros l'.
  induction l' as [|y l' IH']; [done|].
  cbn. destruct (le (g x) (g y)); [done|]. cbn. by rewrite IH'.
Qed.

(** Sorting with precomputed keys is sorting by the key function. *)
Lemma sort_keyed_fmap {K A} (le : K → K → bool) (f : A → K) (l : list A) :
  Py.sort_keyed le (f <$> l) l = Py.sort_le (λ x y, le (f x) (f y)) l.
Proof.
  unfold Py.sort_keyed.
  replace (zip (f <$> l) l) with ((λ x, (f x, x)) <$> l).
  - rewrite (sort_le_fmap (λ p q, le p.1 q.1) (λ x, (f x, x))). cbn.
    rewrite <- list_fmap_compose. apply list_fmap_id.
  - induction l as [|x l IH]; [done|]. cbn. by rewrite IH.
Qed.

(** ** The order of strings *)

Lemma ascii_compare_N (a b : ascii) :
  Ascii.compare a b = N.compare (N_of_ascii a) (N_of_ascii b).
Proof. reflexivity. Qed.

Lemma string_compare_trans (a b c : string) :
  String.compare a b ≠ Gt → String.compare b c ≠ Gt → String.compare a c ≠ Gt.
Proof.
  revert b c. induction a as [|x a IH]; intros [|y b] [|z c]; cbn; try done.
  rewrite !ascii_compare_N.
  destruct (N.compare_spec (N_of_ascii x) (N_of_ascii y)) as [Hxy|Hxy|Hxy];
    destruct (N.compare_spec (N_of_ascii y) (N_of_ascii z)) as [Hyz|Hyz|Hyz];
    destruct (N.compare_spec (N_of_ascii x) (N_of_ascii z)) as [Hxz|Hxz|Hxz];
    try done; try lia.
  apply IH.
Qed.

#[local] Instance str_le_trans : Transitive str_le.
Proof.
  intros a b c. unfold str_le, String.leb. intros Hab Hbc.
  pose proof (string_compare_trans a b c) as Ht.
  destruct (String.compare a b); try done;
    destruct (String.compare b c); try done;
    destruct (String.compare a c); try done; by exfalso; apply Ht.
Qed.

#[local] Instance str_le_antisym : AntiSymm eq str_le.
Proof. intros a b. apply String.leb_antisym. Qed.

Lemma sorted_str_sorted (l : list string) : StronglySorted str_le (Py.sorted_str l).
Proof.
  apply Sorted_StronglySorted; [apply _|].
  apply (sort_le_sorted String.leb String.leb_total).
Qed.

(** The result of [sorted] depends on the elements only, not on their order. *)
Lemma sorted_str_perm_eq (l1 l2 : list string) :
  l1 ≡ₚ l2 → Py.sorted_str l1 = Py.sorted_str l2.
Proof.
  intros Hperm. apply (StronglySorted_unique str_le); try apply sorted_str_sorted.
  unfold Py.sorted_str. by rewrite !sort_le_perm.
Qed.

(** C10.  On an open object and for a normal user, [getSecondaryGroupsOfUser]
    returns the user's secondary groups in ascending lexicographic order: the
    result is sorted, holds exactly the entries of the index (the empty list
    when there are none), and is the same for every order the index may
    hold them in.  The object is unchanged. *)
Theorem getSecondaryGroupsOfUser_sorted
    (self : PasswdGroupShadow) (username : string) :
  valid self = true →
  username ∈ normalUserList self →
  ∃ l,
    getSecondaryGroupsOfUser username self = (Return l, self)
    ∧ StronglySorted str_le l
    ∧ l ≡ₚ default [] (secondaryGroupsDict self !! username)
    ∧ (default [] (secondaryGroupsDict self !! username) = [] → l = [])
    ∧ ∀ other : PasswdGroupShadow,
        valid other = true →
        username ∈ normalUserList other →
        default [] (secondaryGroupsDict other !! username)
          ≡ₚ default [] (secondaryGroupsDict self !! username) →
        getSecondaryGroupsOfUser username other = (Return l, other).
Proof.
  intros Hvalid Hnormal.
  assert (Hrun : ∀ s, valid s = true → username ∈ normalUserList s →
    getSecondaryGroupsOfUser username s
    = (Return (Py.sorted_str (default [] (secondaryGroupsDict s !! username))), s)).
  { intros s Hv Hn. unfold getSecondaryGroupsOfUser. munfold.
    rewrite Hv. apply mem_true in Hn. by rewrite Hn. }
  eexists. split; [by apply Hrun|]. split; [apply sorted_str_sorted|].
  split; [apply sort_le_perm|]. split.
  - intros ->. reflexivity.
  - intros other Hv Hn Hperm. rewrite Hrun by done.
    by rewrite (sorted_str_perm_eq _ _ Hperm).
Qed.

Lemma getSecondaryGroupsOfUser_sorted_witness :
  ∃ l,
    getSecondaryGroupsOfUser "alice" sample_joined = (Return l, sample_joined)
    ∧ StronglySorted str_le l
    ∧ l ≡ₚ default [] (secondaryGroupsDict sample_joined !! "alice")
    ∧ (default [] (secondaryGroupsDict sample_joined !! "alice") = [] → l = [])
    ∧ ∀ other : PasswdGroupShadow,
        valid other = true →
        "alice" ∈ normalUserList other →
        default [] (secondaryGroupsDict other !! "alice")
          ≡ₚ default [] (secondaryGroupsDict sample_joined !! "alice") →
        getSecondaryGroupsOfUser "alice" other = (Return l, other).
Proof.
  apply getSecondaryGroupsOfUser_sorted.
  - vm_compute. reflexivity.
  - vm_compute. apply list_elem_of_here.
Defined.

(** The index of the sample holds [bob; wheel; audio] for [alice], in the
    order of parsing and joining; the accessor returns them sorted. *)
Example getSecondaryGroupsOfUser_sample :
  secondaryGroupsDict sample_joined !! "alice" = Some ["bob"; "wheel"; "audio"]
  ∧ (getSecondaryGroupsOfUser "alice" sample_joined).1
    = Return ["audio"; "bob"; "wheel"].
Proof. split; vm_compute; reflexivity. Qed.

(** ** Member fields: [split] and [join] *)

Lemma split_nonempty (c : ascii) (s : string) : Py.split c s ≠ [].
Proof.
  destruct s as [|x s]; cbn; [done|].
  destruct (Ascii.eqb x c); [done|]. by destruct (Py.split c s).
Qed.

Lemma split_free (c : ascii) (x : string) :
  contains c x = false → Py.split c x = [x].
Proof.
  induction x as [|a x IH]; cbn; [done|].
  intros Hc. apply orb_false_iff in Hc as [Ha Hx].
  rewrite Ha, IH by done. done.
Qed.

Lemma append_nil_l (s : string) : "" +:+ s = s.
Proof. reflexivity. Qed.

Lemma append_cons_l (a : ascii) (x s : string) :
  String a x +:+ s = String a (x +:+ s).
Proof. reflexivity. Qed.

Lemma split_app (c : ascii) (x rest : string) :
  contains c x = false →
  Py.split c (x +:+ String c rest) = x :: Py.split c rest.
Proof.
  induction x as [|a x IH].
  - intros _. rewrite append_nil_l. cbn [Py.split]. by rewrite Ascii.eqb_refl.
  - intros Hc. cbn [contains] in Hc. apply orb_false_iff in Hc as [Ha Hx].
    rewrite append_cons_l. cbn [Py.split]. rewrite Ha, IH by done. done.
Qed.

Lemma split_elem_free (c : ascii) (s x : string) :
  x ∈ Py.split c s → contains c x = false.
Proof.
  revert x. induction s as [|a s IH]; cbn; intros x Hx.
  - apply list_elem_of_singleton in Hx as ->. done.
  - destruct (Ascii.eqb a c) eqn:Ha.
    + apply elem_of_cons in Hx as [->|Hx]; [done|]. by apply IH.
    + pose proof (split_nonempty c s) as Hne.
      destruct (Py.split c s) as [|w ws]; [done|].
      apply elem_of_cons in Hx as [->|Hx].
      * cbn. rewrite Ha. apply IH, list_elem_of_here.
      * apply IH. by apply list_elem_of_further.
Qed.

Lemma nonEmptySplit_token (s x : string) :
  x ∈ _nonEmptySplit s comma → token x.
Proof.
  unfold _nonEmptySplit. intros Hx. apply list_elem_of_filter in Hx as [Hne Hx].
  split; [done|]. by eapply split_elem_free.
Qed.

Lemma split_join (l : list string) :
  l ≠ [] → Forall (λ x, contains comma x = false) l →
  Py.split comma (Py.join "," l) = l.
Proof.
  intros Hne Hall. induction Hall as [|x l Hx Hl IH]; [done|].
  cbn [Py.join]. destruct l as [|y l]; [by apply split_free|].
  change ("," +:+ Py.join "," (y :: l)) with (String comma (Py.join "," (y :: l))).
  rewrite split_app by done. by rewrite IH.
Qed.

Lemma filter_all {A} (P : A → Prop) `{∀ x, Decision (P x)} (l : list A) :
  Forall P l → filter P l = l.
Proof.
  induction 1 as [|x l Hx Hl IH]; [done|].
  rewrite filter_cons_True by done. by rewrite IH.
Qed.

(** Reading back a member field written from a list of tokens gives the
    list. *)
Lemma nonEmptySplit_join (l : list string) :
  Forall token l → _nonEmptySplit (Py.join "," l) comma = l.
Proof.
  intros Hall. unfold _nonEmptySplit.
  destruct l as [|x l]; [done|].
  rewrite split_join; [|done|].
  - apply filter_all. eapply Forall_impl; [exact Hall|]. by intros ? [? ?].
  - eapply Forall_impl; [exact Hall|]. by intros ? [? ?].
Qed.

Lemma nonEmptySplit_tokens (s : string) : Forall token (_nonEmptySplit s comma).
Proof. apply Forall_forall. intros x. apply nonEmptySplit_token. Qed.

(** Canonical member fields are fixed points of reading and writing. *)
Lemma nonEmptySplit_join_idemp (s : string) :
  _nonEmptySplit (Py.join "," (_nonEmptySplit s comma)) comma
  = _nonEmptySplit s comma.
Proof. apply nonEmptySplit_join, nonEmptySplit_tokens. Qed.

Lemma remove_app_last {A} `{EqDecision A} (x : A) (l : list A) :
  x ∉ l → Py.remove x (l ++ [x]) = l.
Proof.
  induction l as [|y l IH]; cbn; intros Hx.
  - by rewrite decide_True.
  - apply not_elem_of_cons in Hx as [Hxy Hx].
    rewrite decide_False by done. by rewrite IH.
Qed.

Lemma remove_not_in {A} `{EqDecision A} (x : A) (l : list A) :
  x ∉ l → Py.remove x l = l.
Proof.
  induction l as [|y l IH]; cbn; intros Hx; [done|].
  apply not_elem_of_cons in Hx as [Hxy Hx].
  rewrite decide_False by done. by rewrite IH.
Qed.
Lemma with_gr_mem_twice (v w : string) (e : _GrpEntry) :
  with_gr_mem v (with_gr_mem w e) = with_gr_mem v e.
Proof. reflexivity. Qed.

Lemma with_gr_mem_same (e : _GrpEntry) : with_gr_mem (gr_mem e) e = e.
Proof. by destruct e. Qed.

Section JoinLeave.
Context `{Externals}.

Lemma join_then_leave (self : PasswdGroupShadow) (username groupname : string)
    (e : _GrpEntry) :
  valid self = true →
  username ∈ normalUserList self →
  groupname ∈ joinable self →
  grpDict self !! groupname = Some e →
  token username →
  groupname ∉ secondary_groups self username →
  username ∉ _nonEmptySplit (gr_mem e) comma →
  ∃ s1 s2,
    modifyNormalUser username MUSER_JOIN_GROUP [groupname] self = (Return tt, s1)
    ∧ modifyNormalUser username MUSER_LEAVE_GROUP [groupname] s1 = (Return tt, s2)
    ∧ secondary_groups s1 username = secondary_groups self username ++ [groupname]
    ∧ members s1 groupname = Some (_nonEmptySplit (gr_mem e) comma ++ [username])
    ∧ secondary_groups s2 username = secondary_groups self username
    ∧ members s2 groupname = members self groupname
    ∧ (gr_mem e = Py.join "," (_nonEmptySplit (gr_mem e) comma) →
       grpDict s2 = grpDict self).
Proof.
  intros Hvalid Hnormal Hjoin He Htok Hnotin Hnotmem.
  apply mem_true in Hnormal. apply mem_true in Hjoin. unfold joinable in Hjoin.
  apply mem_false in Hnotmem.
  unfold secondary_groups in Hnotin. apply mem_false in Hnotin.
  set (ulist := _nonEmptySplit (gr_mem e) comma) in *.
  set (glist := default [] (secondaryGroupsDict self !! username)) in *.
  assert (Hback : _nonEmptySplit (Py.join "," (ulist ++ [username])) comma
                  = ulist ++ [username]).
  { apply nonEmptySplit_join, Forall_app. split; [apply nonEmptySplit_tokens|].
    by apply Forall_singleton. }
  (* the state after the join *)
  set (s1 := set_grpDict
               (insert groupname (with_gr_mem (Py.join "," (ulist ++ [username])) e))
               (set_secondaryGroupsDict (insert username (glist ++ [groupname])) self)).
  assert (Hs1 : modifyNormalUser username MUSER_JOIN_GROUP [groupname] self
                = (Return tt, s1)).
  { unfold modifyNormalUser. munfold. rewrite Hvalid. munfold.
    rewrite Hnormal. munfold.
    change (MUSER_JOIN_GROUP =? MUSER_SET_PASSWORD) with false.
    change (MUSER_JOIN_GROUP =? MUSER_SET_SHELL) with false.
    change (MUSER_JOIN_GROUP =? MUSER_JOIN_GROUP) with true.
    cbn [length Nat.eqb head default from_option id]. munfold. rewrite Hjoin. munfold.
    unfold glist in *.
    destruct (secondaryGroupsDict self !! username) as [gl|] eqn:Hgl.
    - rewrite bool_decide_eq_true_2 by eauto. cbn [negb]. munfold.
      unfold getitem. rewrite Hgl. munfold.
      cbn [default from_option id] in Hnotin. rewrite Hnotin. cbn [negb]. munfold.
      proj_simpl. rewrite He. munfold. fold ulist. rewrite Hnotmem. cbn [negb].
      reflexivity.
    - rewrite bool_decide_eq_false_2 by (intros [? ?]; discriminate). cbn [negb].
      munfold. unfold getitem. proj_simpl. rewrite lookup_insert_eq. munfold.
      cbn [default from_option id] in Hnotin. rewrite Hnotin. cbn [negb]. munfold. proj_simpl.
      rewrite He. munfold. fold ulist. rewrite Hnotmem. cbn [negb default from_option id app].
      unfold s1. cbn [default from_option id app]. unfold set_grpDict, set_secondaryGroupsDict.
      cbn. by rewrite insert_insert_eq. }
  set (s2 := set_grpDict
               (insert groupname (with_gr_mem (Py.join "," ulist) e))
               (set_secondaryGroupsDict (insert username glist) s1)).
  assert (Hs2 : modifyNormalUser username MUSER_LEAVE_GROUP [groupname] s1
                = (Return tt, s2)).
  { unfold modifyNormalUser. munfold.
    replace (valid s1) with true by done. munfold.
    replace (Py.mem username (normalUserList s1)) with true by done. munfold.
    change (MUSER_LEAVE_GROUP =? MUSER_SET_PASSWORD) with false.
    change (MUSER_LEAVE_GROUP =? MUSER_SET_SHELL) with false.
    change (MUSER_LEAVE_GROUP =? MUSER_JOIN_GROUP) with false.
    change (MUSER_LEAVE_GROUP =? MUSER_LEAVE_GROUP) with true.
    cbn [length Nat.eqb head default from_option id]. munfold.
    replace (secondaryGroupsDict s1 !! username) with (Some (glist ++ [groupname]))
      by (symmetry; apply lookup_insert_eq).
    replace (Py.mem groupname (glist ++ [groupname])) with true
      by (symmetry; apply mem_true, elem_of_app; right; apply list_elem_of_here).
    munfold. rewrite remove_app_last by (by apply mem_false).
    unfold getitem. proj_simpl.
    replace (grpDict s1 !! groupname)
      with (Some (with_gr_mem (Py.join "," (ulist ++ [username])) e))
      by (symmetry; apply lookup_insert_eq).
    munfold. cbn [gr_mem with_gr_mem]. rewrite Hback.
    replace (Py.mem username (ulist ++ [username])) with true
      by (symmetry; apply mem_true, elem_of_app; right; apply list_elem_of_here).
    rewrite remove_app_last by (by apply mem_false).
    reflexivity. }
  exists s1, s2. split; [done|]. split; [done|].
  unfold secondary_groups, members, s2, s1. proj_simpl.
  rewrite !lookup_insert_eq. cbn [default from_option id fmap option_fmap option_map gr_mem with_gr_mem].
  rewrite Hback, He. cbn [fmap option_fmap option_map].
  repeat split; try done.
  - f_equal. apply nonEmptySplit_join_idemp.
  - intros Hcanon. rewrite !insert_insert_eq.
    rewrite <- Hcanon, with_gr_mem_same. by apply insert_id.
Qed.
End JoinLeave.

(** The claim of C9 fails when [alice] already is a member of [audio]: the
    join changes nothing, the leave removes her, and neither her secondary
    groups nor the member list of [audio] are what they were. *)
Lemma join_then_leave_when_already_member :
  "alice" ∈ normalUserList sample_member
  ∧ "audio" ∈ joinable sample_member
  ∧ ∃ s1 s2,
      @modifyNormalUser demo "alice" MUSER_JOIN_GROUP ["audio"] sample_member
      = (Return tt, s1)
      ∧ @modifyNormalUser demo "alice" MUSER_LEAVE_GROUP ["audio"] s1
        = (Return tt, s2)
      ∧ secondary_groups sample_member "alice" = ["audio"]
      ∧ secondary_groups s2 "alice" = []
      ∧ members sample_member "audio" = Some ["alice"]
      ∧ members s2 "audio" = Some [].
Proof.
  split; [vm_compute; apply list_elem_of_here|].
  split.
  { apply (proj1 (mem_true _ _)). vm_compute. reflexivity. }
  exists (@modifyNormalUser demo "alice" MUSER_JOIN_GROUP ["audio"] sample_member).2.
  exists (@modifyNormalUser demo "alice" MUSER_LEAVE_GROUP ["audio"]
            (@modifyNormalUser demo "alice" MUSER_JOIN_GROUP ["audio"]
               sample_member).2).2.
  split; [vm_compute; reflexivity|].
  split; [vm_compute; reflexivity|].
  split; [vm_compute; reflexivity|].
  split; [vm_compute; reflexivity|].
  split; vm_compute; reflexivity.
Qed.

(** C9, amended.  On an open object with normal user [alice] and a group
    [audio] she may join and is not yet a member of (neither by the index
    nor by the member field), joining and then leaving both succeed and
    restore her secondary groups and the member list of [audio]; the entry of
    [audio] itself is restored exactly when its member field was a clean
    comma list. *)
Theorem join_then_leave_restores `{Externals}
    (self : PasswdGroupShadow) (e : _GrpEntry) :
  valid self = true →
  "alice" ∈ normalUserList self →
  "audio" ∈ joinable self →
  grpDict self !! "audio" = Some e →
  "audio" ∉ secondary_groups self "alice" →
  "alice" ∉ _nonEmptySplit (gr_mem e) comma →
  ∃ s1 s2,
    modifyNormalUser "alice" MUSER_JOIN_GROUP ["audio"] self = (Return tt, s1)
    ∧ modifyNormalUser "alice" MUSER_LEAVE_GROUP ["audio"] s1 = (Return tt, s2)
    ∧ secondary_groups s2 "alice" = secondary_groups self "alice"
    ∧ members s2 "audio" = members self "audio"
    ∧ (gr_mem e = Py.join "," (_nonEmptySplit (gr_mem e) comma) →
       grpDict s2 = grpDict self).
Proof.
  intros Hvalid Hnormal Hjoin He Hnotin Hnotmem.
  destruct (join_then_leave self "alice" "audio" e)
    as (s1 & s2 & Hs1 & Hs2 & _ & _ & Hidx & Hmem & Hcanon); try done.
  exists s1, s2. by repeat split.
Qed.

Lemma join_then_leave_restores_witness :
  ∃ s1 s2,
    @modifyNormalUser demo "alice" MUSER_JOIN_GROUP ["audio"] sample = (Return tt, s1)
    ∧ @modifyNormalUser demo "alice" MUSER_LEAVE_GROUP ["audio"] s1 = (Return tt, s2)
    ∧ secondary_groups s2 "alice" = secondary_groups sample "alice"
    ∧ members s2 "audio" = members sample "audio"
    ∧ ("" = Py.join "," (_nonEmptySplit "" comma) → grpDict s2 = grpDict sample).
Proof.
  apply (@join_then_leave_restores demo sample (mk_GrpEntry "audio" "x" 18 "")).
  - vm_compute. reflexivity.
  - vm_compute. apply list_elem_of_here.
  - apply (proj1 (mem_true _ _)). vm_compute. reflexivity.
  - vm_compute. reflexivity.
  - apply (proj1 (mem_false _ _)). vm_compute. reflexivity.
  - apply (proj1 (mem_false _ _)). vm_compute. reflexivity.
Defined.

(** ** Removing what is not there *)

Lemma by_computation (P : Prop) `{Decision P} : bool_decide P = true → P.
Proof. apply bool_decide_eq_true. Qed.

Lemma set_grpDict_same (f : gmap string _GrpEntry → gmap string _GrpEntry) self :
  f (grpDict self) = grpDict self → set_grpDict f self = self.
Proof. intros Hf. destruct self. unfold set_grpDict. cbn in *. by rewrite Hf. Qed.

Lemma set_secondaryGroupsDict_same
    (f : gmap string (list string) → gmap string (list string)) self :
  f (secondaryGroupsDict self) = secondaryGroupsDict self →
  set_secondaryGroupsDict f self = self.
Proof.
  intros Hf. destruct self. unfold set_secondaryGroupsDict. cbn in *. by rewrite Hf.
Qed.

Lemma fmap_same {V} (f : V → V) (d : gmap string V) :
  map_Forall (λ _ v, f v = v) d → f <$> d = d.
Proof.
  intros Hall. apply map_eq. intros k. rewrite lookup_fmap.
  destruct (d !! k) as [v|] eqn:Hk; [|done]. cbn. f_equal. by eapply Hall.
Qed.

(** The claim of C8 fails for a name that the index still holds with an
    empty list: [ghost] is no user and occurs in no entry list, no per-user
    group and no member field, yet [removeNormalUser] deletes its key. *)
Lemma removeNormalUser_absent_user_changes_index :
  user_absent sample_ghost "ghost"
  ∧ secondaryGroupsDict sample_ghost !! "ghost" = Some []
  ∧ (removeNormalUser "ghost" sample_ghost).1 = Return tt
  ∧ secondaryGroupsDict (removeNormalUser "ghost" sample_ghost).2 !! "ghost" = None
  ∧ (removeNormalUser "ghost" sample_ghost).2 ≠ sample_ghost.
Proof.
  split; [apply (by_computation (user_absent sample_ghost "ghost")); vm_compute; reflexivity|].
  split; [vm_compute; reflexivity|].
  split; [vm_compute; reflexivity|].
  split; [vm_compute; reflexivity|].
  intros Heq.
  assert (Hk : secondaryGroupsDict (removeNormalUser "ghost" sample_ghost).2 !! "ghost"
               = secondaryGroupsDict sample_ghost !! "ghost") by (by rewrite Heq).
  vm_compute in Hk. discriminate.
Qed.

(** C8, amended.  On an open object, [removeNormalUser] called with a name
    that is no normal user, occurs in no entry list, no per-user group list
    and no member field, and is no key of the secondary-group index, raises
    nothing and leaves the object as it is; so does [removeStandAloneGroup]
    called with a name that is no stand-alone group and occurs in no list of
    the index. *)
Theorem remove_absent_is_noop (self : PasswdGroupShadow) :
  valid self = true →
  (∀ username,
     user_absent self username →
     secondaryGroupsDict self !! username = None →
     removeNormalUser username self = (Return tt, self))
  ∧ (∀ groupname,
       group_absent self groupname →
       removeStandAloneGroup groupname self = (Return tt, self)).
Proof.
  intros Hvalid. split.
  - intros username (Hn & Hp & Hsh & Hu & Hg & Hmem) Hidx.
    apply mem_false in Hn, Hp, Hsh, Hu, Hg.
    assert (Hgrp : scrub_member username <$> grpDict self = grpDict self).
    { apply fmap_same. intros k e Hk. unfold scrub_member.
      specialize (Hmem k e Hk). cbn in Hmem. apply mem_false in Hmem.
      by rewrite Hmem. }
    unfold removeNormalUser. munfold. rewrite Hvalid. munfold.
    rewrite Hg. munfold. rewrite Hu. munfold. rewrite Hsh. munfold.
    rewrite Hidx. rewrite bool_decide_eq_false_2 by (intros [? ?]; discriminate).
    munfold. rewrite (set_grpDict_same _ self Hgrp).
    rewrite Hp. munfold. rewrite Hn. reflexivity.
  - intros groupname (Hs & Hidx). apply mem_false in Hs.
    unfold removeStandAloneGroup. munfold. rewrite Hvalid. munfold.
    rewrite set_secondaryGroupsDict_same.
    + rewrite Hs. reflexivity.
    + apply fmap_same. intros k glist Hk.
      specialize (Hidx k glist Hk). cbn in Hidx. apply mem_false in Hidx.
      by rewrite Hidx.
Qed.

Lemma remove_absent_is_noop_witness :
  (∀ username,
     user_absent sample username →
     secondaryGroupsDict sample !! username = None →
     removeNormalUser username sample = (Return tt, sample))
  ∧ (∀ groupname,
       group_absent sample groupname →
       removeStandAloneGroup groupname sample = (Return tt, sample)).
Proof. apply remove_absent_is_noop. vm_compute. reflexivity. Defined.

(** The hypotheses hold for names the sample does not know. *)
Example remove_absent_sample :
  user_absent sample "carol"
  ∧ secondaryGroupsDict sample !! "carol" = None
  ∧ group_absent sample "staff".
Proof.
  split; [apply (by_computation (user_absent sample "carol")); vm_compute; reflexivity|].
  split; [vm_compute; reflexivity|].
  apply (by_computation (group_absent sample "staff")). vm_compute. reflexivity.
Qed.

(** ** Failing mutation calls *)









Section Fail.
Context `{Externals}.




End Fail.


(** The hash call of [addNormalUser] comes after the records of the user
    and of the group are stored: when it raises, on an open object that
    has neither the user nor the group and has a free id, the call ends
    with its exception and the object has changed. *)
Lemma addNormalUser_failing_hash `{Externals}
    (self : PasswdGroupShadow) (username password : string) (e : Exn) :
  valid self = true →
  pwdDict self !! username = None →
  grpDict self !! username = None →
  (∃ z, 1000 ≤ z < 10000 ∧ ¬ id_used self z) →
  encrypt password = Raise e →
  ∃ self', addNormalUser username password self = (Raise e, self')
           ∧ is_Some (pwdDict self' !! username)
           ∧ is_Some (grpDict self' !! username)
           ∧ self' ≠ self.
Proof.
  intros Hvalid Hpw Hgr (z & Hz & Hfree) Hhash.
  pose proof (addNormalUser_newUid_spec self (Z.to_nat 9001) 1000 ltac:(lia)) as Hloop.
  unfold addNormalUser. munfold. rewrite Hvalid, Hpw, Hgr.
  rewrite !bool_decide_eq_false_2 by (intros [? ?]; discriminate).
  cbn [negb].
  destruct (addNormalUser_newUid (Z.to_nat 9001) self 1000) as [u|e'].
  - rewrite Hhash. eexists. split; [reflexivity|]. proj_simpl.
    rewrite !lookup_insert_eq. split; [by eexists|]. split; [by eexists|].
    intros Heq. apply (f_equal (λ s, pwdDict s !! username)) in Heq.
    revert Heq. proj_simpl. rewrite lookup_insert_eq, Hpw. discriminate.
  - destruct Hloop as (_ & Hall). exfalso. by apply Hfree, Hall.
Qed.

(** So on the sample: a password with a NUL character. *)
Example failing_hash_on_sample :
  (@call demo (AddNormalUser "carol" (String (ascii_of_nat 0) "")) sample).1
    = Raise ValueError
  ∧ pwdDict sample !! "carol" = None
  ∧ is_Some (pwdDict (@call demo (AddNormalUser "carol"
                         (String (ascii_of_nat 0) "")) sample).2 !! "carol").
Proof.
  split; [vm_compute; reflexivity|]. split; [vm_compute; reflexivity|].
  vm_compute. by eexists.
Qed.




(** ** Loading yields a consistent object *)

Lemma listed_in_insert {V} (l : list string) (d : gmap string V) k v :
  listed_in l d → listed_in l (<[k:=v]> d).
Proof.
  unfold listed_in. intros Hl. eapply Forall_impl; [exact Hl|]. intros x [w Hw].
  destruct (decide (k = x)) as [->|Hne].
  - rewrite lookup_insert_eq. by eexists.
  - rewrite lookup_insert_ne by done. by eexists.
Qed.

Lemma listed_in_snoc {V} (l : list string) (d : gmap string V) k v :
  listed_in l d → listed_in (l ++ [k]) (<[k:=v]> d).
Proof.
  intros Hl. apply Forall_app. split; [by apply listed_in_insert|].
  apply Forall_singleton. rewrite lookup_insert_eq. by eexists.
Qed.

Lemma listed_in_singleton {V} (d : gmap string V) k v :
  listed_in [k] (<[k:=v]> d).
Proof. apply Forall_singleton. rewrite lookup_insert_eq. by eexists. Qed.

Lemma listed_in_app {V} (l1 l2 : list string) (d : gmap string V) :
  listed_in (l1 ++ l2) d ↔ listed_in l1 d ∧ listed_in l2 d.
Proof. apply Forall_app. Qed.

Lemma index_listed_insert (index : gmap string (list string))
    (d : gmap string _GrpEntry) k v :
  map_Forall (λ _ glist, listed_in glist d) index →
  map_Forall (λ _ glist, listed_in glist (<[k:=v]> d)) index.
Proof.
  intros Hindex u glist Hu. apply listed_in_insert. exact (Hindex u glist Hu).
Qed.

Lemma for_preserves {A} (P : PasswdGroupShadow → Prop) (l : list A)
    (body : A → M unit) :
  (∀ x s, P s → P (body x s).2) → ∀ s, P s → P (for_ l body s).2.
Proof.
  intros Hbody. induction l as [|x l IH]; intros s Hs; [exact Hs|].
  cbn [for_]. unfold bind. specialize (Hbody x s Hs).
  destruct (body x s) as [[[]|e] s']; [by apply IH|exact Hbody].
Qed.

Ltac solve_consistent Hc :=
  cbn [snd];
  let Hj := fresh "Hj" in
  destruct Hc as [? ? Hj ? ? ? ?]; unfold joinable in Hj;
  rewrite !listed_in_app in Hj; destruct Hj as (? & ? & ? & ?);
  split; unfold joinable; proj_simpl; rewrite ?listed_in_app;
  repeat split;
  solve [auto using listed_in_insert, index_listed_insert, listed_in_singleton].

Section LoadConsistent.
Context `{Externals}.

Lemma _parsePasswd_consistent (passwdFile : option string) self :
  consistent self → consistent (_parsePasswd passwdFile self).2.
Proof.
  unfold _parsePasswd. destruct passwdFile as [buf|]; [|done].
  munfold. cbn [_readFile]. apply for_preserves. clear self.
  intros line self Hc. destruct (skipped line); [exact Hc|].
  unfold _parsePasswd_fields. munfold.
  destruct (raise_if _ _) as [[]|?]; [|exact Hc].
  destruct (_PwdEntry_init _) as [e|?]; [|exact Hc].
  destruct (Py.mem _ _stdSystemUserList); [solve_consistent Hc|].
  destruct (int_ _) as [uid|?]; [|solve_consistent Hc].
  proj_simpl. destruct (_ && _); [solve_consistent Hc|].
  destruct (Py.mem _ _stdDeprecatedUserList); solve_consistent Hc.
Qed.

Lemma _parseGroup_consistent (groupFile : option string) (normal : list string) self :
  consistent self → consistent (_parseGroup groupFile normal self).2.
Proof.
  unfold _parseGroup. destruct groupFile as [buf|]; [|done].
  munfold. cbn [_readFile]. apply for_preserves. clear self.
  intros line self Hc. destruct (skipped line); [exact Hc|].
  unfold _parseGroup_fields. munfold.
  set (t := Py.split colon line).
  destruct (raise_if _ _) as [[]|?]; [|exact Hc].
  destruct (_GrpEntry_init _) as [e|?]; [|exact Hc].
  assert (Hins : consistent (set_grpDict (insert (item t 0) e) self)).
  { clear -Hc. solve_consistent Hc. }
  set (P := λ s, consistent s ∧ is_Some (grpDict s !! item t 0)).
  match goal with
  | |- context [for_ ?l ?body] =>
      assert (Hloop : ∀ s, P s → P (for_ l body s).2)
  end.
  { apply for_preserves. intros u s [Hs Hg].
    destruct (bool_decide (u = "")); [by split|].
    assert (Hempty : P (set_secondaryGroupsDict (insert u []) s)).
    { split; [|exact Hg]. destruct Hs. split; unfold joinable in *; proj_simpl; try done.
      apply map_Forall_insert_2; [by apply Forall_nil|done]. }
    assert (Hstep : ∀ s0, P s0 →
      P (match getitem (secondaryGroupsDict s0) u with
         | Return a =>
             (Return tt, set_secondaryGroupsDict (insert u (a ++ [item t 0])) s0)
         | Raise e0 => (Raise e0, s0)
         end).2).
    { intros s0 [Hs0 Hg0]. unfold getitem.
      destruct (secondaryGroupsDict s0 !! u) as [glist|] eqn:Hu; [|by split].
      cbn [snd]. split; [|exact Hg0].
      destruct Hs0 as [? ? ? ? ? ? Hindex].
      split; unfold joinable in *; proj_simpl; try done.
      apply map_Forall_insert_2; [|done].
      apply Forall_app. split; [exact (Hindex _ _ Hu)|by apply Forall_singleton]. }
    destruct (negb _).
    - specialize (Hstep _ Hempty).
      destruct (getitem _ u) as [a|e0]; exact Hstep.
    - specialize (Hstep _ (conj Hs Hg)).
      destruct (getitem _ u) as [a|e0]; exact Hstep. }
  assert (HP : ∀ s, consistent s → is_Some (grpDict s !! item t 0) → P s) by (by split).
  assert (Hg : is_Some (grpDict (set_grpDict (insert (item t 0) e) self) !! item t 0)).
  { proj_simpl. rewrite lookup_insert_eq. by eexists. }
  assert (Hsnoc : ∀ l, listed_in l (grpDict self) →
    listed_in (l ++ [item t 0]) (<[item t 0:=e]> (grpDict self)))
    by (intros; by apply listed_in_snoc).
  destruct (Py.mem _ _stdSystemGroupList);
    [|destruct (Py.mem _ normal);
      [|destruct (Py.mem _ _stdDeviceGroupList);
        [|destruct (Py.mem _ _stdDeprecatedGroupList);
          [|destruct (int_ _) as [gid|?]; [|exact Hins];
            proj_simpl; destruct (_ && _)]]]].
  all: apply (λ s Hs, proj1 (Hloop s Hs)).
  all: apply HP; [|exact Hg].
  all: clear -Hc; solve_consistent Hc.
Qed.

Lemma _parseShadow_consistent (shadowFile : option string) self :
  consistent self → consistent (_parseShadow shadowFile self).2.
Proof.
  unfold _parseShadow. destruct shadowFile as [buf|]; [|done].
  munfold. cbn [_readFile]. apply for_preserves. clear self.
  intros line self Hc. destruct (skipped line); [exact Hc|].
  cbv zeta. destruct (raise_if _ _) as [[]|?]; [|exact Hc].
  destruct (_ShadowEntry_init _) as [e|?]; [|exact Hc].
  solve_consistent Hc.
Qed.

Lemma _parseSubUid_consistent (subuidFile : option string) self :
  consistent self → consistent (_parseSubUid subuidFile self).2.
Proof.
  unfold _parseSubUid. destruct subuidFile as [buf|]; [|done].
  apply for_preserves. clear self.
  intros line self Hc. destruct (skipped line); [exact Hc|].
  unfold _parseSubId_fields. munfold.
  destruct (raise_if _ _) as [[]|?]; [|exact Hc].
  destruct (int_ _) as [s|?]; [|exact Hc].
  destruct (int_ _) as [c|?]; [|exact Hc].
  solve_consistent Hc.
Qed.

Lemma _parseSubGid_consistent (subgidFile : option string) self :
  consistent self → consistent (_parseSubGid subgidFile self).2.
Proof.
  unfold _parseSubGid. destruct subgidFile as [buf|]; [|done].
  apply for_preserves. clear self.
  intros line self Hc. destruct (skipped line); [exact Hc|].
  unfold _parseSubId_fields. munfold.
  destruct (raise_if _ _) as [[]|?]; [|exact Hc].
  destruct (int_ _) as [s|?]; [|exact Hc].
  destruct (int_ _) as [c|?]; [|exact Hc].
  solve_consistent Hc.
Qed.

Lemma blank_consistent (ld : LoginDefs) (fs : Files) : consistent (blank ld fs).
Proof.
  split; first [exact (Forall_nil_2 _) | exact (map_Forall_empty _)].
Qed.

(** Whatever the files hold, the object the parsers and stage 1 leave
    behind is consistent: every list is filled together with its
    dictionary, and the index only names groups whose line has been read.
    This holds also when one of them raises. *)
Lemma parse_and_verify_consistent (ld : LoginDefs) (fs : Files) :
  consistent (parse_and_verify ld fs).2.
Proof.
  unfold parse_and_verify, do_parsing. munfold.
  pose proof (_parsePasswd_consistent (passwd fs) _ (blank_consistent ld fs)) as H1.
  destruct (_parsePasswd _ _) as [[[]|?] s1]; [|exact H1]. cbn [snd] in H1.
  pose proof (_parseGroup_consistent (group fs) (normalUserList s1) _ H1) as H2.
  destruct (_parseGroup _ _ _) as [[[]|?] s2]; [|exact H2]. cbn [snd] in H2.
  pose proof (_parseShadow_consistent (shadow fs) _ H2) as H3.
  destruct (_parseShadow _ _) as [[[]|?] s3]; [|exact H3]. cbn [snd] in H3.
  pose proof (_parseSubUid_consistent (subuid fs) _ H3) as H4.
  destruct (_parseSubUid _ _) as [[[]|?] s4]; [|exact H4]. cbn [snd] in H4.
  pose proof (_parseSubGid_consistent (subgid fs) _ H4) as H5.
  destruct (_parseSubGid _ _) as [[[]|?] s5]; [|exact H5]. cbn [snd] in H5.
  destruct (_verifyStage1 s5); exact H5.
Qed.
End LoadConsistent.

(** ** The constructor as a whole *)

Section Constructor.
Context `{Externals}.
Variable re_search : string → string → option string.

(** [__init__] ends in [_parseLoginDef], or in [_lockPwd], or it goes on
    to the parsers and stage 1; the [except] clause finds the lock held. *)
Lemma __init___cases (lock : Outcome Z) (readOnly : bool)
    (loginDefFile : option string) (fs : Files) :
  (∃ e, _parseLoginDef re_search loginDefFile = Raise e
        ∧ __init__ re_search lock readOnly loginDefFile fs
          = (Raise e, blank unset_defs fs))
  ∨ (∃ ld e, _parseLoginDef re_search loginDefFile = Return ld
             ∧ readOnly = false ∧ lock = Raise e
             ∧ __init__ re_search lock readOnly loginDefFile fs
               = (Raise e, blank ld fs))
  ∨ (∃ ld, _parseLoginDef re_search loginDefFile = Return ld
           ∧ (readOnly = true ∨ ∃ fd, lock = Return fd)
           ∧ __init__ re_search lock readOnly loginDefFile fs
             = parse_and_verify ld fs).
Proof.
  unfold __init__, parse_and_verify.
  destruct (_parseLoginDef re_search loginDefFile) as [ld|e]; [|left; by eauto].
  right. cbv zeta. destruct readOnly.
  - right. exists ld. split; [done|]. split; [by left|].
    unfold bind, this, lift.
    destruct (do_parsing fs (blank ld fs)) as [[[]|e] s];
      [by destruct (_verifyStage1 s)|done].
  - destruct lock as [fd|e]; [|left; by eauto 6].
    right. exists ld. split; [done|]. split; [right; by eauto|].
    unfold bind, this, lift.
    destruct (do_parsing fs (blank ld fs)) as [[[]|e] s];
      [by destruct (_verifyStage1 s)|done].
Qed.

Lemma __init___runs (lock : Outcome Z) (readOnly : bool)
    (loginDefFile : option string) (fs : Files) (ld : LoginDefs) :
  _parseLoginDef re_search loginDefFile = Return ld →
  readOnly = true ∨ (∃ fd, lock = Return fd) →
  __init__ re_search lock readOnly loginDefFile fs = parse_and_verify ld fs.
Proof.
  intros Hld Hlock.
  destruct (__init___cases lock readOnly loginDefFile fs)
    as [(e & He & _) | [(ld' & e & _ & Hro & Hl & _) | (ld' & Hld' & _ & Hrun)]].
  - congruence.
  - destruct Hlock as [?|[fd ?]]; congruence.
  - congruence.
Qed.

(** Whatever the files hold, the object [__init__] leaves behind is
    consistent; this holds also when [__init__] raises. *)
Lemma __init___consistent (lock : Outcome Z) (readOnly : bool)
    (loginDefFile : option string) (fs : Files) :
  consistent (__init__ re_search lock readOnly loginDefFile fs).2.
Proof.
  destruct (__init___cases lock readOnly loginDefFile fs)
    as [(e & _ & ->) | [(ld & e & _ & _ & _ & ->) | (ld & _ & _ & ->)]].
  - apply blank_consistent.
  - apply blank_consistent.
  - apply parse_and_verify_consistent.
Qed.
End Constructor.

(** The sample constructor reads the sample policy and takes the lock. *)
Lemma sample_init_runs (fs : Files) :
  sample_init fs = @parse_and_verify demo sample_defs fs.
Proof.
  apply __init___runs; [vm_compute; reflexivity|right; by eexists].
Qed.

(** ** The loops of [_fixate] *)

Lemma insert_as_alter {V} (f : V → V) (d : gmap string V) (k : string) (e : V) :
  d !! k = Some e → <[k := f e]> d = alter f k d.
Proof.
  intros Hk. apply map_eq. intros i.
  destruct (decide (k = i)) as [->|Hne].
  - rewrite lookup_insert_eq, lookup_alter_eq, Hk. done.
  - rewrite lookup_insert_ne, lookup_alter_ne by done. done.
Qed.

Lemma for_set_pwd_attr (f : _PwdEntry → _PwdEntry) (l : list string) self self' :
  for_ l (set_pwd_attr f) self = (Return tt, self') →
  self' = set_pwdDict (alter_all f l) self
  ∧ Forall (λ u, is_Some (pwdDict self !! u)) l.
Proof.
  revert self. induction l as [|u l IH]; intros self Hrun.
  - cbn in Hrun. injection Hrun as <-. split; [by destruct self|constructor].
  - cbn [for_] in Hrun. unfold set_pwd_attr at 1, setattr_in in Hrun. munfold.
    destruct (pwdDict self !! u) as [e|] eqn:Hu; munfold; [|discriminate Hrun].
    apply IH in Hrun as [-> Hall]. proj_simpl.
    rewrite (insert_as_alter f _ _ _ Hu). split; [reflexivity|].
    constructor; [by eauto|].
    eapply Forall_impl; [exact Hall|]. intros x [e' He'].
    destruct (decide (u = x)) as [->|Hne]; [by eauto|].
    rewrite lookup_insert_ne in He' by done. by eauto.
Qed.

Lemma for_delete_shadow (l : list string) self :
  for_ l (λ uname,
    do self <- this;
    when (haskey (shDict self) uname) (update (set_shDict (delete uname)))) self
  = (Return tt, set_shDict (delete_all l) self).
Proof.
  revert self. induction l as [|u l IH]; intros self.
  - cbn. by destruct self.
  - cbn [for_]. munfold. unfold haskey.
    destruct (bool_decide (is_Some (shDict self !! u))) eqn:Hu; munfold.
    + rewrite IH. reflexivity.
    + rewrite IH. f_equal. unfold set_shDict. f_equal. cbn [delete_all].
      apply bool_decide_eq_false in Hu.
      rewrite (delete_id (shDict self) u); [done|].
      destruct (shDict self !! u) eqn:Hk; [|done]. exfalso. by eauto.
Qed.

Lemma comprehension_uids (d : gmap string _PwdEntry) (l : list string) keys :
  comprehension (λ x, check pw <- getitem d x; Return (pw_uid pw)) l = Return keys →
  keys = (λ x, default 0 (pw_uid <$> d !! x)) <$> l
  ∧ Forall (λ u, is_Some (d !! u)) l.
Proof.
  revert keys. induction l as [|x l IH]; intros keys Hrun; cbn in Hrun.
  - injection Hrun as <-. by split.
  - unfold getitem in Hrun at 1. destruct (d !! x) as [pw|] eqn:Hx; cbn in Hrun;
      [|discriminate].
    destruct (comprehension _ l) as [ks|] eqn:Hl; [|discriminate].
    injection Hrun as <-. destruct (IH ks eq_refl) as [-> Hall].
    split; [cbn; by rewrite Hx|]. constructor; by eauto.
Qed.

Lemma comprehension_uids_ok (d : gmap string _PwdEntry) (l : list string) :
  Forall (λ u, is_Some (d !! u)) l →
  comprehension (λ x, check pw <- getitem d x; Return (pw_uid pw)) l
  = Return ((λ x, default 0 (pw_uid <$> d !! x)) <$> l).
Proof.
  induction 1 as [|x l [pw Hx] Hl IH]; [done|].
  cbn. unfold getitem at 1. rewrite Hx. cbn. by rewrite IH.
Qed.

(** The key function of the sort of the stand-alone groups reads an
    attribute no group entry has: it can only succeed on the empty list. *)
Lemma comprehension_pw_gid (d : gmap string _GrpEntry) (l : list string) keys :
  comprehension (λ x, check gr <- getitem d x; _GrpEntry_getattr gr "pw_gid") l
  = Return keys →
  l = [] ∧ keys = [].
Proof.
  destruct l as [|x l]; cbn.
  - intros Hrun. injection Hrun as <-. done.
  - unfold getitem. destruct (d !! x); cbn; discriminate.
Qed.

Section AlterAll.
Context {V : Type} (f : V → V).

Lemma lookup_alter_all_None (l : list string) (d : gmap string V) (k : string) :
  d !! k = None → alter_all f l d !! k = None.
Proof.
  revert d. induction l as [|u l IH]; intros d Hk; [done|].
  cbn. apply IH. rewrite lookup_alter. case_decide; [subst; by rewrite Hk|done].
Qed.

Lemma lookup_alter_all_pres (P : V → Prop) (l : list string) (d : gmap string V)
    (k : string) (e : V) :
  (∀ x, P x → P (f x)) → d !! k = Some e → P e →
  ∃ e', alter_all f l d !! k = Some e' ∧ P e'.
Proof.
  intros Hpres. revert d e. induction l as [|u l IH]; intros d e Hk He; [by eauto|].
  cbn. destruct (decide (u = k)) as [->|Hne].
  - apply (IH _ (f e)); [|by auto]. by rewrite lookup_alter_eq, Hk.
  - apply (IH _ e); [|done]. by rewrite lookup_alter_ne.
Qed.

Lemma lookup_alter_all_in (P : V → Prop) (l : list string) (d : gmap string V)
    (k : string) (e' : V) :
  (∀ x, P (f x)) → k ∈ l → alter_all f l d !! k = Some e' → P e'.
Proof.
  intros Hf. revert d. induction l as [|u l IH]; intros d Hin Hk.
  - by apply elem_of_nil in Hin.
  - cbn in Hk. destruct (decide (u = k)) as [->|Hne].
    + destruct (d !! k) as [e|] eqn:Hd.
      * destruct (lookup_alter_all_pres P l (alter f k d) k (f e)) as (e'' & He'' & HP);
          [by auto|by rewrite lookup_alter_eq, Hd|by auto|]. congruence.
      * rewrite lookup_alter_all_None in Hk; [done|].
        by rewrite lookup_alter_eq, Hd.
    + apply elem_of_cons in Hin as [->|Hin]; [done|]. by eapply IH.
Qed.

Lemma lookup_alter_all_is_Some (l : list string) (d : gmap string V) (k : string) :
  is_Some (alter_all f l d !! k) ↔ is_Some (d !! k).
Proof.
  split.
  - intros [e' He']. destruct (d !! k) as [e|] eqn:Hd; [by eauto|].
    by rewrite lookup_alter_all_None in He'.
  - intros [e He].
    destruct (lookup_alter_all_pres (λ _, True) l d k e) as (e' & He' & _); by eauto.
Qed.

(** What the passes read back: a property [f] keeps is still there. *)
Lemma lookup_alter_all_back (P : V → Prop) (l : list string) (d : gmap string V)
    (k : string) (e e' : V) :
  (∀ x, P x → P (f x)) → d !! k = Some e → P e →
  alter_all f l d !! k = Some e' → P e'.
Proof.
  intros Hpres Hd He He'.
  destruct (lookup_alter_all_pres P l d k e) as (e'' & He'' & HP); try done.
  congruence.
Qed.

End AlterAll.

Lemma lookup_delete_all_notin {V} (l : list string) (d : gmap string V) (k : string) :
  k ∉ l → delete_all l d !! k = d !! k.
Proof.
  revert d. induction l as [|u l IH]; intros d Hk; [done|].
  apply not_elem_of_cons in Hk as [Hne Hk]. cbn.
  rewrite IH by done. by rewrite lookup_delete_ne.
Qed.

Lemma lookup_delete_all_in {V} (l : list string) (d : gmap string V) (k : string) :
  k ∈ l → delete_all l d !! k = None.
Proof.
  revert d. induction l as [|u l IH]; intros d Hk.
  - by apply elem_of_nil in Hk.
  - cbn. destruct (decide (k ∈ l)) as [Hin|Hnotin]; [by apply IH|].
    apply elem_of_cons in Hk as [->|Hk]; [|done].
    rewrite lookup_delete_all_notin by done. apply lookup_delete_eq.
Qed.

Lemma set_eq_true (l1 l2 : list string) :
  Py.set_eq l1 l2 = true ↔ ∀ x, x ∈ l1 ↔ x ∈ l2.
Proof.
  unfold Py.set_eq, Py.set_ge. rewrite andb_true_iff, !forallb_forall.
  split.
  - intros [H21 H12] x. split; intros Hx.
    + apply mem_true, H12. by apply list_elem_of_In.
    + apply mem_true, H21. by apply list_elem_of_In.
  - intros Heq. split; intros x Hx; apply mem_true, Heq; by apply list_elem_of_In.
Qed.

Lemma set_ge_true (l1 l2 : list string) :
  Py.set_ge l1 l2 = true ↔ ∀ x, x ∈ l2 → x ∈ l1.
Proof.
  unfold Py.set_ge. rewrite forallb_forall. split.
  - intros Hall x Hx. apply mem_true, Hall. by apply list_elem_of_In.
  - intros Hall x Hx. apply mem_true, Hall. by apply list_elem_of_In.
Qed.

Ltac step_for H :=
  match type of H with
  | context [for_ ?l (set_pwd_attr ?f) ?s] =>
      let Hl := fresh "Hloop" in
      let st := fresh "st" in
      let Hall := fresh "Hall" in
      destruct (for_ l (set_pwd_attr f) s) as [[[]|?] st] eqn:Hl; munfold;
      [apply for_set_pwd_attr in Hl as [-> Hall]; proj_simpl | discriminate H]
  end.

Lemma uid_alter_all_gecos (v : string) (l : list string)
    (d : gmap string _PwdEntry) (x : string) :
  default 0 (pw_uid <$> alter_all (with_pw_gecos v) l d !! x)
  = default 0 (pw_uid <$> d !! x).
Proof.
  destruct (d !! x) as [e|] eqn:Hd.
  - destruct (lookup_alter_all_pres (with_pw_gecos v) (λ e', pw_uid e' = pw_uid e)
                l d x e) as (e' & -> & He'); by auto.
  - by rewrite lookup_alter_all_None.
Qed.

Lemma fmap_ext_all {A B} (f g : A → B) (l : list A) :
  (∀ x, f x = g x) → f <$> l = g <$> l.
Proof. intros Hfg. induction l as [|x l IH]; [done|]. cbn. by rewrite Hfg, IH. Qed.

Lemma delete_absent {V} (d : gmap string V) (k : string) :
  haskey d k = false → d = delete k d.
Proof.
  unfold haskey. intros Hk. apply bool_decide_eq_false in Hk.
  symmetry. apply delete_id. destruct (d !! k) eqn:Hd; [|done]. exfalso. by eauto.
Qed.

(** Two objects with the same attribute values are the same object. *)
Lemma PasswdGroupShadow_ext (a b : PasswdGroupShadow) :
  valid a = valid b →
  defs a = defs b →
  systemUserList a = systemUserList b →
  normalUserList a = normalUserList b →
  softwareUserList a = softwareUserList b →
  deprecatedUserList a = deprecatedUserList b →
  pwdDict a = pwdDict b →
  systemGroupList a = systemGroupList b →
  deviceGroupList a = deviceGroupList b →
  perUserGroupList a = perUserGroupList b →
  standAloneGroupList a = standAloneGroupList b →
  softwareGroupList a = softwareGroupList b →
  deprecatedGroupList a = deprecatedGroupList b →
  secondaryGroupsDict a = secondaryGroupsDict b →
  grpDict a = grpDict b →
  shadowEntryList a = shadowEntryList b →
  shDict a = shDict b →
  subUidEntryList a = subUidEntryList b →
  subUidDict a = subUidDict b →
  subGidEntryList a = subGidEntryList b →
  subGidDict a = subGidDict b →
  gshadowFile a = gshadowFile b →
  a = b.
Proof. destruct a, b. cbn. intros. by subst. Qed.

Lemma _fixate_Return self self' :
  _fixate self = (Return tt, self') →
  self' = fixated self ∧ fixate_returns self.
Proof.
  unfold _fixate. munfold. intros H.
  destruct (Py.set_eq (systemUserList self) _stdSystemUserList) eqn:Hsys; munfold;
    [|discriminate H].
  proj_simpl. step_for H.
  destruct (comprehension _ (normalUserList self)) as [keys|] eqn:Hkeys; munfold;
    [|discriminate H].
  apply comprehension_uids in Hkeys as [-> Hnormal]. proj_simpl.
  rewrite (fmap_ext_all _ (uid_of self)) in H
    by (intros; apply uid_alter_all_gecos).
  rewrite sort_keyed_fmap in H.
  set (normal := Py.sort_le (λ x y, uid_of self x <=? uid_of self y)
                   (normalUserList self)) in *.
  step_for H. step_for H.
  rewrite for_delete_shadow in H. munfold. proj_simpl.
  destruct (Py.set_eq (systemGroupList self) _stdSystemGroupList) eqn:Hsysg; munfold;
    [|discriminate H].
  proj_simpl.
  rewrite ?sort_keyed_fmap in H. fold normal in H.
  destruct (Py.set_eq (perUserGroupList self) normal) eqn:Hper; munfold;
    [|discriminate H].
  proj_simpl.
  destruct (comprehension _ (standAloneGroupList self)) as [gkeys|] eqn:Hgkeys;
    munfold; [|discriminate H].
  apply comprehension_pw_gid in Hgkeys as [Hsa ->]. proj_simpl.
  rewrite ?sort_keyed_fmap in H. fold normal in H.
  destruct (haskey (secondaryGroupsDict self) "root") eqn:Hroot; munfold; proj_simpl.
  all: rewrite ?sort_keyed_fmap in H; fold normal in H.
  all: destruct (Py.set_ge (shadowEntryList self) (_stdSystemUserList ++ normal))
         eqn:Hsh; munfold; [|discriminate H]; proj_simpl.
  all: rewrite ?sort_keyed_fmap in H; fold normal in H.
  all: cbv zeta in H; munfold; proj_simpl.
  all: match type of H with
       | context [match (add_missing ?a ?b ?c ?d ?e).1 with _ => _ end] =>
           destruct ((add_missing a b c d e).1) as [[]|] eqn:Hadd_uid;
           munfold; proj_simpl; [|discriminate H]
       end.
  all: match type of H with
       | context [match (add_missing ?a ?b ?c ?d ?e).1 with _ => _ end] =>
           destruct ((add_missing a b c d e).1) as [[]|] eqn:Hadd_gid;
           munfold; proj_simpl; [|discriminate H]
       end.
  all: injection H as <-.
  all: assert (Hret : fixate_returns self);
    [split;
     [ exact Hsys | exact Hsysg | exact Hper | exact Hsh
     | rewrite !Forall_app; split; [exact Hall|split];
       (eapply Forall_impl; [eassumption|]); cbn beta; intros x Hx;
       rewrite ?lookup_alter_all_is_Some in Hx; exact Hx
     | exact Hsa
     | exact Hadd_uid
     | exact Hadd_gid ]|].
  all: split; [|exact Hret].
  all: apply PasswdGroupShadow_ext; proj_simpl; unfold fixated; proj_simpl;
    fold normal; try reflexivity.
  all: try (rewrite sort_keyed_fmap; reflexivity).
  all: try (rewrite Hsa; reflexivity).
  apply delete_absent, Hroot.
Qed.

(** ** The records [_fixate] leaves *)

Lemma fixated_pwd_lookup self (u : string) (e : _PwdEntry) :
  pwdDict self !! u = Some e →
  ∃ e', pwdDict (fixated self) !! u = Some e'
    ∧ pw_uid e' = pw_uid e
    ∧ (u ∈ systemUserList (fixated self) ++ normalUserList (fixated self) →
       pw_gecos e' = "")
    ∧ (u ∈ softwareUserList self → pw_shell e' = "/sbin/nologin").
Proof.
  intros He. unfold fixated. proj_simpl.
  set (normal := Py.sort_le _ (normalUserList self)).
  set (g := with_pw_gecos "").
  set (h := with_pw_shell "/sbin/nologin").
  destruct (lookup_alter_all_pres g (λ x, pw_uid x = pw_uid e)
              _stdSystemUserList (pwdDict self) u e)
    as (e1 & He1 & Hu1); [intros x Hx; exact Hx|exact He|reflexivity|].
  assert (Hg1 : u ∈ _stdSystemUserList → pw_gecos e1 = "").
  { intros Hin. by eapply (lookup_alter_all_in g (λ x, pw_gecos x = "")). }
  destruct (lookup_alter_all_pres g
              (λ x, pw_uid x = pw_uid e ∧ (u ∈ _stdSystemUserList → pw_gecos x = ""))
              normal (alter_all g _stdSystemUserList (pwdDict self)) u e1)
    as (e2 & He2 & Hu2 & Hg2);
    [intros x [Hx1 Hx2]; split; [exact Hx1|intros _; reflexivity]
    |exact He1|by split|].
  assert (Hg2' : u ∈ normal → pw_gecos e2 = "").
  { intros Hin. by eapply (lookup_alter_all_in g (λ x, pw_gecos x = "")). }
  destruct (lookup_alter_all_pres h
              (λ x, pw_uid x = pw_uid e
                    ∧ (u ∈ _stdSystemUserList ++ normal → pw_gecos x = ""))
              (softwareUserList self)
              (alter_all g normal (alter_all g _stdSystemUserList (pwdDict self)))
              u e2)
    as (e3 & He3 & Hu3 & Hg3);
    [intros x [Hx1 Hx2]; split; [exact Hx1|exact Hx2]|exact He2| |].
  { split; [done|]. intros [?|?]%elem_of_app; auto. }
  exists e3. split; [done|]. split; [done|]. split; [done|].
  intros Hin. by eapply (lookup_alter_all_in h (λ x, pw_shell x = "/sbin/nologin")).
Qed.

Lemma fixated_pwd_None self (u : string) :
  pwdDict self !! u = None → pwdDict (fixated self) !! u = None.
Proof.
  intros Hu. unfold fixated. proj_simpl.
  by do 3 apply lookup_alter_all_None.
Qed.

Lemma uid_of_fixated self (u : string) : uid_of (fixated self) u = uid_of self u.
Proof.
  unfold uid_of. destruct (pwdDict self !! u) as [e|] eqn:He.
  - destruct (fixated_pwd_lookup self u e He) as (e' & -> & Hu & _). cbn. done.
  - by rewrite fixated_pwd_None.
Qed.

Lemma elem_of_sorted_normal self (u : string) :
  u ∈ normalUserList (fixated self) ↔ u ∈ normalUserList self.
Proof. unfold fixated. proj_simpl. by rewrite sort_le_perm. Qed.

Lemma fixated_grp_lookup self (g : string) :
  grpDict (fixated self) !! g
  = (λ e, standardize_members (scrub_member "root" e)) <$> grpDict self !! g.
Proof.
  unfold fixated. proj_simpl. rewrite !lookup_fmap.
  by destruct (grpDict self !! g).
Qed.

Lemma gr_gid_scrub (u : string) (e : _GrpEntry) :
  gr_gid (standardize_members (scrub_member u e)) = gr_gid e.
Proof. unfold standardize_members, scrub_member. by destruct (Py.mem _ _). Qed.

Lemma standardize_members_clean (e : _GrpEntry) :
  gr_mem (standardize_members e)
  = Py.join "," (_nonEmptySplit (gr_mem (standardize_members e)) comma).
Proof.
  unfold standardize_members. cbn [gr_mem with_gr_mem].
  by rewrite nonEmptySplit_join_idemp.
Qed.

(** ** Subordinate ids *)

Lemma aligned_step (lo cnt a : Z) :
  (a - lo) mod cnt = 0 → (a + cnt - lo) mod cnt = 0.
Proof.
  intros Ha. replace (a + cnt - lo) with ((a - lo) + 1 * cnt) by lia.
  by rewrite Z_mod_plus_full.
Qed.

Lemma foldl_max_spec (lo hi cnt : Z) (vals : list _SubUidGidEntry) (m : Z) :
  Forall (subid_ok lo hi cnt) vals →
  0 < cnt →
  lo ≤ m ∧ (m - lo) mod cnt = 0 →
  let r := foldl (λ m obj, Z.max (start obj + count obj) m) m vals in
  lo ≤ r ∧ (r - lo) mod cnt = 0.
Proof.
  intros Hvals Hcnt. revert m.
  induction Hvals as [|obj vals (Hr & Ha & Hc) Hvals IH]; intros m Hm; [done|].
  cbn [foldl]. apply IH.
  destruct (Z.max_spec (start obj + count obj) m) as [[_ ->]|[_ ->]]; [done|].
  rewrite Hc. split; [lia|]. by apply aligned_step.
Qed.

Lemma subid_next_spec (lo hi cnt : Z) (d : gmap string _SubUidGidEntry) :
  map_Forall (λ _ obj, subid_ok lo hi cnt obj) d →
  0 < cnt →
  lo ≤ subid_next lo d ∧ (subid_next lo d - lo) mod cnt = 0.
Proof.
  intros Hall Hcnt. unfold subid_next.
  apply (foldl_max_spec lo hi cnt); [|done|].
  - apply Forall_forall. intros obj Hobj.
    apply elem_of_values in Hobj as [k Hk]. by eapply Hall.
  - split; [lia|]. by rewrite Z.sub_diag, Z.mod_0_l by lia.
Qed.

Lemma add_missing_spec (lo hi cnt : Z) (l : list string) (m : Z)
    (d : gmap string _SubUidGidEntry) :
  0 < cnt → lo ≤ m → (m - lo) mod cnt = 0 →
  (add_missing hi cnt l m d).1 = Return tt →
  map_Forall (λ _ obj, subid_ok lo hi cnt obj) d →
  map_Forall (λ _ obj, subid_ok lo hi cnt obj) (add_missing hi cnt l m d).2.
Proof.
  intros Hcnt. revert m d. induction l as [|u l IH]; intros m d Hlo Hal Hrun Hall.
  - done.
  - cbn [add_missing] in *. destruct (haskey d u); [by apply IH|].
    destruct (m <? hi) eqn:Hhi; [|done].
    apply Z.ltb_lt in Hhi. apply IH; [lia|by apply aligned_step|done|].
    apply map_Forall_insert_2; [|done]. repeat split; cbn; [lia|lia|done].
Qed.

(** After the loop every listed name has an entry. *)
Lemma add_missing_keys (hi cnt : Z) (l : list string) (m : Z)
    (d : gmap string _SubUidGidEntry) (k : string) :
  (add_missing hi cnt l m d).1 = Return tt →
  is_Some ((add_missing hi cnt l m d).2 !! k) ↔ k ∈ l ∨ is_Some (d !! k).
Proof.
  revert m d. induction l as [|u l IH]; intros m d Hrun; cbn [add_missing] in *.
  - rewrite elem_of_nil. tauto.
  - unfold haskey in *.
    destruct (bool_decide (is_Some (d !! u))) eqn:Hu.
    + apply bool_decide_eq_true in Hu. rewrite IH by done. rewrite elem_of_cons.
      split; [tauto|]. intros [[->|?]|?]; tauto.
    + destruct (m <? hi); [|done]. rewrite IH by done.
      rewrite elem_of_cons, lookup_insert_is_Some. 
      destruct (decide (u = k)) as [->|Hne]; [tauto|].
      split; [intros [?|[?|[? ?]]]; tauto|].
      intros [[?|?]|?]; [congruence|tauto|tauto].
Qed.

Lemma check_subid_ok (lo hi cnt : Z) (obj : _SubUidGidEntry) :
  cnt ≠ 0 → subid_ok lo hi cnt obj → check_subid lo hi cnt obj = Return tt.
Proof.
  intros Hcnt ((Hlo & Hhi) & Hal & Hc). unfold check_subid, py_mod.
  replace (lo <=? start obj) with true by (symmetry; by apply Z.leb_le).
  replace (start obj <? hi) with true by (symmetry; by apply Z.ltb_lt).
  replace (cnt =? 0) with false by (symmetry; by apply Z.eqb_neq).
  cbn [andb negb raise_if obind]. rewrite Hal, Hc, !Z.eqb_refl. reflexivity.
Qed.

Lemma ofor_items_ok {V} (d : gmap string V) (body : string * V → Outcome unit) :
  map_Forall (λ k v, body (k, v) = Return tt) d →
  ofor (Py.items d) body = Return tt.
Proof.
  intros Hall. apply ofor_ok. intros [k v] Hin.
  apply elem_of_map_to_list in Hin. by apply Hall.
Qed.

Lemma lookup_drop_redundant {V} (l : list string) (d : gmap string V)
    (k : string) (v : V) :
  drop_redundant l d !! k = Some v ↔ d !! k = Some v ∧ k ∈ l.
Proof. unfold drop_redundant. by rewrite map_lookup_filter_Some. Qed.

Lemma obind_tt {A} (o : Outcome A) (k : A → Outcome unit) (a : A) :
  o = Return a → k a = Return tt → obind o k = Return tt.
Proof. by intros -> ?. Qed.

Lemma slice_first {A} (l1 l2 : list A) : Py.slice (l1 ++ l2) 0 (length l1) = l1.
Proof. unfold Py.slice. cbn. apply take_app_length. Qed.

Lemma slice_second {A} (l1 l2 : list A) :
  Py.slice (l1 ++ l2) (0 + length l1) (length l2) = l2.
Proof.
  unfold Py.slice. cbn. rewrite drop_app_length. apply firstn_all.
Qed.
Lemma fixated_subids (lo hi cnt : Z) (l l' : list string)
    (d : gmap string _SubUidGidEntry) :
  0 < cnt →
  (∀ u, u ∈ l → u ∈ l') →
  map_Forall (λ u obj, u ∈ l' → subid_ok lo hi cnt obj) d →
  (add_missing hi cnt l (subid_next lo (drop_redundant l d)) (drop_redundant l d)).1
  = Return tt →
  map_Forall (λ _ obj, subid_ok lo hi cnt obj)
    (add_missing hi cnt l (subid_next lo (drop_redundant l d)) (drop_redundant l d)).2.
Proof.
  intros Hcnt Hsub Hall Hrun.
  assert (Hkept : map_Forall (λ _ obj, subid_ok lo hi cnt obj) (drop_redundant l d)).
  { intros u obj Hu. apply lookup_drop_redundant in Hu as [Hu Hin].
    by apply (Hall u obj Hu), Hsub. }
  destruct (subid_next_spec lo hi cnt _ Hkept Hcnt) as [Hlo Hal].
  by apply (add_missing_spec lo).
Qed.

Lemma sub_users_fixated self (u : string) :
  u ∈ normalUserList (fixated self) ++ softwareUserList self → u ∈ sub_users self.
Proof.
  unfold sub_users. rewrite !elem_of_app, elem_of_sorted_normal. tauto.
Qed.

Lemma stage2_fixated self :
  fixate_returns self → beyond_repair_ok self →
  _verifyStage2 (fixated self) = Return tt.
Proof.
  intros [_ _ _ _ Hrec Hsa Hroom_u Hroom_g]
         ((Hcu & Hcg) & Hswu & Hswg & Hdep & Hgsh & Hsubu & Hsubg & Hsys).
  pose proof (proj1 (Forall_forall _ _) Hrec) as Hrec'.
  assert (Hpw : ∀ u, u ∈ _stdSystemUserList ++ normalUserList (fixated self)
                       ++ softwareUserList self →
                ∃ e e', pwdDict self !! u = Some e
                  ∧ pwdDict (fixated self) !! u = Some e'
                  ∧ pw_uid e' = pw_uid e
                  ∧ (u ∈ _stdSystemUserList ++ normalUserList (fixated self) →
                     pw_gecos e' = "")
                  ∧ (u ∈ softwareUserList self → pw_shell e' = "/sbin/nologin")).
  { intros u Hu. destruct (Hrec' u) as [e He].
    { rewrite !elem_of_app in *. rewrite elem_of_sorted_normal in Hu. tauto. }
    destruct (fixated_pwd_lookup self u e He) as (e' & He' & H1 & H2 & H3).
    exists e, e'. by repeat split. }
  set (s' := fixated self) in *.
  unfold _verifyStage2. cbv zeta.
  (* check system user list *)
  eapply obind_tt.
  { change (systemUserList s') with _stdSystemUserList.
    rewrite bool_decide_eq_false_2 by (by intros Hne). reflexivity. }
  eapply obind_tt.
  { apply ofor_ok. intros u Hu. change (systemUserList s') with _stdSystemUserList in Hu.
    destruct (Hpw u) as (e & e' & _ & He' & _ & Hg & _);
      [rewrite elem_of_app; by left|].
    unfold getitem. rewrite He'. cbn [obind].
    rewrite bool_decide_eq_false_2; [done|].
    intros Hne. apply Hne, Hg. rewrite elem_of_app. by left. }
  (* check normal user list *)
  eapply obind_tt.
  { apply comprehension_uids_ok. apply Forall_forall. intros u Hu.
    destruct (Hpw u) as (e & e' & _ & He' & _); [|by eauto].
    rewrite !elem_of_app. tauto. }
  eapply obind_tt.
  { rewrite bool_decide_eq_false_2; [reflexivity|]. intros Hne. apply Hne.
    rewrite (fmap_ext_all _ (uid_of self)) by (intros; apply uid_of_fixated).
    unfold Py.sorted_int. rewrite sort_le_fmap. f_equal.
    symmetry. apply sort_le_idemp. intros x y. rewrite !Z.leb_le. lia. }
  eapply obind_tt.
  { apply ofor_ok. intros u Hu.
    destruct (Hpw u) as (e & e' & _ & He' & _ & Hg & _);
      [rewrite !elem_of_app; tauto|].
    unfold getitem. rewrite He'. cbn [obind].
    rewrite bool_decide_eq_false_2; [done|].
    intros Hne. apply Hne, Hg. rewrite elem_of_app. by right. }
  (* check software user list *)
  eapply obind_tt.
  { apply ofor_ok. intros u Hu. change (softwareUserList s') with (softwareUserList self) in Hu.
    destruct (Hpw u) as (e & e' & He & He' & Huid & _ & Hshell);
      [rewrite !elem_of_app; tauto|].
    unfold getitem. rewrite He'. cbn [obind].
    pose proof (proj1 (Forall_forall _ _) Hswu u Hu) as Hlt.
    unfold uid_of in Hlt. rewrite He in Hlt. cbn in Hlt.
    change (defs s') with (defs self).
    replace (uidMin (defs self) <=? pw_uid e') with false
      by (symmetry; apply Z.leb_gt; lia).
    cbn [raise_if obind].
    rewrite bool_decide_eq_false_2 by (intros Hne; by apply Hne, Hshell).
    cbn [raise_if obind]. unfold haskey.
    rewrite bool_decide_eq_false_2; [done|]. intros [sh Hsh].
    apply lookup_drop_redundant in Hsh as [Hsh _].
    by rewrite lookup_delete_all_in in Hsh. }
  (* check stand-alone group list *)
  eapply obind_tt.
  { change (standAloneGroupList s') with (standAloneGroupList self).
    rewrite Hsa. reflexivity. }
  eapply obind_tt; [reflexivity|].
  (* check software group list *)
  eapply obind_tt.
  { apply ofor_ok. intros g Hg.
    change (softwareGroupList s') with (softwareGroupList self) in Hg.
    destruct (proj1 (Forall_forall _ _) Hswg g Hg) as [[gr Hgr] Hlt].
    unfold gid_of in Hlt. rewrite Hgr in Hlt. cbn in Hlt.
    unfold getitem, s'. rewrite fixated_grp_lookup, Hgr. cbn [fmap option_fmap option_map obind].
    rewrite gr_gid_scrub. change (defs (fixated self)) with (defs self).
    replace (gidMin (defs self) <=? gr_gid gr) with false
      by (symmetry; apply Z.leb_gt; lia).
    reflexivity. }
  (* check secondary groups for root *)
  eapply obind_tt.
  { unfold haskey. change (secondaryGroupsDict s') with (delete "root" (secondaryGroupsDict self)).
    rewrite lookup_delete_eq.
    rewrite bool_decide_eq_false_2 by (intros [? ?]; discriminate). reflexivity. }
  (* check secondary groups dict *)
  eapply obind_tt.
  { apply ofor_items_ok. intros u glist Hu.
    change (secondaryGroupsDict s') with (delete "root" (secondaryGroupsDict self)) in Hu.
    apply lookup_delete_Some in Hu as [Hne Hu].
    destruct (Py.mem u _) eqn:Hmem; [|reflexivity]. cbn [negb].
    apply mem_true in Hmem.
    apply ofor_ok. intros g Hg.
    change (deprecatedGroupList s') with (deprecatedGroupList self).
    assert (Hk : u ∈ known_users self).
    { unfold known_users. change (systemUserList s') with _stdSystemUserList in Hmem.
      change (softwareUserList s') with (softwareUserList self) in Hmem.
      rewrite !elem_of_app in *. unfold s' in Hmem.
      rewrite elem_of_sorted_normal in Hmem. tauto. }
    pose proof (Hdep u glist Hu (not_eq_sym Hne) Hk) as Hall.
    pose proof (proj1 (Forall_forall _ _) Hall g Hg) as Hnd.
    apply mem_false in Hnd. by rewrite Hnd. }
  (* check group member field *)
  eapply obind_tt.
  { apply ofor_items_ok. intros g e He. unfold s' in He.
    rewrite fixated_grp_lookup in He.
    destruct (grpDict self !! g) as [e0|]; [|discriminate He].
    injection He as <-.
    rewrite bool_decide_eq_false_2; [reflexivity|].
    intros Hne. apply Hne, standardize_members_clean. }
  (* check /etc/shadow *)
  change (shadowEntryList s') with (systemUserList s' ++ normalUserList s').
  eapply obind_tt.
  { rewrite slice_first. rewrite bool_decide_eq_false_2 by (by intros Hne). reflexivity. }
  eapply obind_tt.
  { rewrite slice_second. rewrite bool_decide_eq_false_2 by (by intros Hne). reflexivity. }
  eapply obind_tt.
  { rewrite length_app. rewrite bool_decide_eq_false_2 by (by intros Hne). reflexivity. }
  (* check /etc/gshadow *)
  change (gshadowFile s') with (gshadowFile self). rewrite Hgsh.
  cbn [_readFile universal_newlines obind String.length Nat.ltb Nat.leb raise_if].
  (* check subuid entry list *)
  change (subUidEntryList s') with (normalUserList s' ++ softwareUserList s').
  eapply obind_tt.
  { rewrite slice_first. rewrite bool_decide_eq_false_2 by (by intros Hne). reflexivity. }
  eapply obind_tt.
  { rewrite slice_second. rewrite bool_decide_eq_false_2 by (by intros Hne). reflexivity. }
  eapply obind_tt.
  { rewrite length_app. rewrite bool_decide_eq_false_2 by (by intros Hne). reflexivity. }
  (* check subuid value range *)
  eapply obind_tt.
  { apply ofor_items_ok. intros u obj Hu. change (defs s') with (defs self).
    apply check_subid_ok; [lia|].
    eapply (fixated_subids _ _ _ _ (sub_users self) (subUidDict self));
      [exact Hcu|apply sub_users_fixated|exact Hsubu|exact Hroom_u|exact Hu]. }
  (* check subgid entry list *)
  eapply obind_tt.
  { rewrite bool_decide_eq_false_2 by (by intros Hne). reflexivity. }
  (* check subgid value range *)
  apply ofor_items_ok. intros u obj Hu. change (defs s') with (defs self).
  apply check_subid_ok; [lia|].
  eapply (fixated_subids _ _ _ _ (sub_users self) (subGidDict self));
    [exact Hcg|apply sub_users_fixated|exact Hsubg|exact Hroom_g|exact Hu].
Qed.

(** ** Stage 1 as a proposition *)

Lemma obind_inv {A} (o : Outcome A) (k : A → Outcome unit) :
  obind o k = Return tt → ∃ a, o = Return a ∧ k a = Return tt.
Proof. destruct o as [a|e]; cbn; [by eauto|discriminate]. Qed.

Lemma raise_if_inv (b : bool) (e : Exn) : raise_if b e = Return tt → b = false.
Proof. by destruct b. Qed.

Lemma normal_user_check self (u : string) :
  (check pw <- getitem (pwdDict self) u;
   check _ <- raise_if (negb ((uidMin (defs self) <=? pw_uid pw)
                              && (pw_uid pw <? uidMax (defs self))))
                PgsFormatError;
   check pw <- getitem (pwdDict self) u;
   check gr <- getitem (grpDict self) u;
   check _ <- raise_if (negb (pw_uid pw =? gr_gid gr)) PgsFormatError;
   check sh <- getitem (shDict self) u;
   check _ <- raise_if (String.length (sh_encpwd sh) <=? 4)%nat PgsFormatError;
   raise_if (negb (haskey (shDict self) u)) PgsFormatError) = Return tt
  ↔ normal_user_ok self u.
Proof.
  unfold normal_user_ok, getitem, haskey. split.
  - destruct (pwdDict self !! u) as [pw|]; cbn [obind]; [|discriminate].
    destruct (uidMin (defs self) <=? pw_uid pw) eqn:Hlo; [|discriminate].
    destruct (pw_uid pw <? uidMax (defs self)) eqn:Hhi; [|discriminate].
    cbn [andb negb raise_if obind].
    destruct (grpDict self !! u) as [gr|]; cbn [obind]; [|discriminate].
    destruct (pw_uid pw =? gr_gid gr) eqn:Heq; [|discriminate].
    cbn [andb negb raise_if obind].
    destruct (shDict self !! u) as [sh|]; cbn [obind]; [|discriminate].
    destruct (String.length (sh_encpwd sh) <=? 4)%nat eqn:Hlen; [discriminate|].
    intros _. exists pw, gr, sh.
    apply Z.leb_le in Hlo. apply Z.ltb_lt in Hhi. apply Z.eqb_eq in Heq.
    apply Nat.leb_gt in Hlen. by repeat split.
  - intros (pw & gr & sh & -> & -> & -> & [Hlo Hhi] & Heq & Hlen). cbn [obind].
    apply Z.leb_le in Hlo. apply Z.ltb_lt in Hhi. apply Z.eqb_eq in Heq.
    apply Nat.leb_gt in Hlen. rewrite Hlo, Hhi, Heq, Hlen.
    cbn [andb negb raise_if obind].
    rewrite bool_decide_eq_true_2 by eauto. reflexivity.
Qed.

Lemma standAlone_check self (g : string) :
  (check gr <- getitem (grpDict self) g;
   raise_if (negb ((gidMin (defs self) <=? gr_gid gr)
                   && (gr_gid gr <? gidMax (defs self))))
     PgsFormatError) = Return tt
  ↔ is_Some (grpDict self !! g)
    ∧ gidMin (defs self) ≤ gid_of self g < gidMax (defs self).
Proof.
  unfold getitem, gid_of. destruct (grpDict self !! g) as [gr|];
    cbn [obind fmap option_fmap option_map default from_option id].
  - split.
    + intros Hr. apply raise_if_inv, negb_false_iff, andb_true_iff in Hr as [Hlo Hhi].
      apply Z.leb_le in Hlo. apply Z.ltb_lt in Hhi. split; [by eauto|lia].
    + intros [_ [Hlo Hhi]]. apply Z.leb_le in Hlo. apply Z.ltb_lt in Hhi.
      by rewrite Hlo, Hhi.
  - split; [discriminate|]. by intros [[? ?] _].
Qed.

Lemma ofor_Return_iff {A} (l : list A) (body : A → Outcome unit) :
  ofor l body = Return tt ↔ Forall (λ x, body x = Return tt) l.
Proof.
  rewrite Forall_forall. split; [apply ofor_inv|apply ofor_ok].
Qed.

Lemma _verifyStage1_Return self : _verifyStage1 self = Return tt ↔ stage1_ok self.
Proof.
  unfold _verifyStage1. split.
  - intros H.
    apply obind_inv in H as ([] & H1 & H). apply raise_if_inv, negb_false_iff in H1.
    apply obind_inv in H as ([] & H2 & H). apply ofor_Return_iff in H2.
    apply obind_inv in H as ([] & H3 & H). apply ofor_Return_iff in H3.
    apply obind_inv in H as ([] & H4 & H). apply raise_if_inv, negb_false_iff in H4.
    apply obind_inv in H as ([] & H5 & H). apply raise_if_inv, negb_false_iff in H5.
    apply ofor_Return_iff in H.
    split; try done.
    + eapply Forall_impl; [exact H2|]. intros u Hu. cbn beta in Hu.
      apply raise_if_inv, negb_false_iff in Hu. by apply bool_decide_eq_true in Hu.
    + eapply Forall_impl; [exact H3|]. intros u Hu. by apply normal_user_check.
    + eapply Forall_impl; [exact H|]. intros g Hg. by apply standAlone_check.
  - intros [H1 H2 H3 H4 H5 H6].
    rewrite H1. cbn [negb raise_if obind].
    rewrite (proj2 (ofor_Return_iff _ _)); cbn [obind].
    2:{ eapply Forall_impl; [exact H2|]. intros u Hu. cbn beta. unfold haskey.
        by rewrite bool_decide_eq_true_2. }
    rewrite (proj2 (ofor_Return_iff _ _)); cbn [obind].
    2:{ eapply Forall_impl; [exact H3|]. intros u Hu. by apply normal_user_check. }
    rewrite H4, H5. cbn [negb raise_if obind].
    apply ofor_Return_iff.
    eapply Forall_impl; [exact H6|]. intros g Hg. by apply standAlone_check.
Qed.

Lemma set_eq_refl (l : list string) : Py.set_eq l l = true.
Proof. by apply set_eq_true. Qed.

Lemma stage1_fixated self :
  stage1_ok self → fixate_returns self → beyond_repair_ok self →
  stage1_ok (fixated self).
Proof.
  intros [S1 S2 S3 S4 S5 S6] [_ _ _ _ Hrec Hsa _ _]
         (_ & Hswu & _ & _ & _ & _ & _ & Hsys).
  pose proof (proj1 (Forall_forall _ _) S2) as S2'.
  pose proof (proj1 (Forall_forall _ _) S3) as S3'.
  pose proof (proj1 (Forall_forall _ _) Hswu) as Hswu'.
  pose proof (proj1 (Forall_forall _ _) Hsys) as Hsys'.
  pose proof (proj1 (set_eq_true _ _) S1) as S1'.
  assert (Hshadow : ∀ u sh,
    u ∈ _stdSystemUserList ++ normalUserList (fixated self) →
    u ∉ softwareUserList self →
    shDict self !! u = Some sh → shDict (fixated self) !! u = Some sh).
  { intros u sh Hu Hns Hsh. unfold fixated. proj_simpl.
    apply lookup_drop_redundant. split; [|exact Hu].
    by rewrite lookup_delete_all_notin. }
  split.
  - reflexivity.
  - apply Forall_forall. intros u Hu.
    change (systemUserList (fixated self)) with _stdSystemUserList in Hu.
    destruct (S2' u) as [sh Hsh]; [by apply S1'|].
    exists sh. apply Hshadow; [rewrite elem_of_app; by left|by apply Hsys'|done].
  - apply Forall_forall. intros u Hu.
    pose proof (proj1 (elem_of_sorted_normal self u) Hu) as Hu0.
    destruct (S3' u Hu0) as (pw & gr & sh & Hpw & Hgr & Hsh & Hrange & Hgid & Hlen).
    destruct (fixated_pwd_lookup self u pw Hpw) as (pw' & Hpw' & Huid & _).
    exists pw', (standardize_members (scrub_member "root" gr)), sh.
    split; [exact Hpw'|]. split; [by rewrite fixated_grp_lookup, Hgr|].
    split.
    { apply Hshadow; [rewrite elem_of_app; by right| |done].
      intros Hsw. specialize (Hswu' u Hsw). unfold uid_of in Hswu'.
      rewrite Hpw in Hswu'. cbn in Hswu'. lia. }
    rewrite gr_gid_scrub, Huid. change (defs (fixated self)) with (defs self).
    split; [exact Hrange|]. split; [exact Hgid|exact Hlen].
  - reflexivity.
  - apply set_eq_refl.
  - change (standAloneGroupList (fixated self)) with (standAloneGroupList self).
    rewrite Hsa. constructor.
Qed.

(** The claim of C4 fails: the sample with a software user of uid 20000
    passes stage 1, [_fixate] returns, and stage 2 still raises
    [PgsFormatError] on the result. *)
Lemma fixate_leaves_high_software_uid :
  _verifyStage1 sample_high_uid = Return tt
  ∧ (_fixate sample_high_uid).1 = Return tt
  ∧ _verifyStage2 (_fixate sample_high_uid).2 = Raise PgsFormatError.
Proof.
  split; [vm_compute; reflexivity|].
  split; vm_compute; reflexivity.
Qed.

(** C4, amended.  For an object that passes stage 1 and on which
    [_fixate] returns, verification of the result raises nothing in either
    stage provided the object meets what stage 2 demands and [_fixate] does
    not touch: positive block sizes, software users and groups with ids
    below [uidMin] and [gidMin], no user but [root] recorded as a member of
    a deprecated group, an empty gshadow file, valid subordinate-id entries
    for the users who keep them, and no system user listed as a software
    user. *)
Theorem fixate_then_verify (self self' : PasswdGroupShadow) :
  _verifyStage1 self = Return tt →
  _fixate self = (Return tt, self') →
  beyond_repair_ok self →
  _verifyStage1 self' = Return tt
  ∧ _verifyStage2 self' = Return tt
  ∧ (valid self = true → verify self' = (Return tt, self')).
Proof.
  intros Hstage1 Hfix Hok.
  apply _fixate_Return in Hfix as [-> Hret].
  apply _verifyStage1_Return in Hstage1.
  assert (H1 : _verifyStage1 (fixated self) = Return tt).
  { apply _verifyStage1_Return. by apply stage1_fixated. }
  assert (H2 : _verifyStage2 (fixated self) = Return tt).
  { by apply stage2_fixated. }
  split; [exact H1|]. split; [exact H2|].
  intros Hvalid. unfold verify. munfold.
  change (valid (fixated self)) with (valid self). rewrite Hvalid. munfold.
  rewrite H1. munfold. rewrite H2. reflexivity.
Qed.

Lemma fixate_then_verify_witness :
  _verifyStage1 (_fixate sample).2 = Return tt
  ∧ _verifyStage2 (_fixate sample).2 = Return tt
  ∧ (valid sample = true → verify (_fixate sample).2 = (Return tt, (_fixate sample).2)).
Proof.
  apply (fixate_then_verify sample (_fixate sample).2).
  - vm_compute. reflexivity.
  - vm_compute. reflexivity.
  - apply (by_computation (beyond_repair_ok sample)). vm_compute. reflexivity.
Defined.


(** ** What a loaded object satisfies *)

Section Loaded.
Context `{Externals}.

(** The parsers and stage 1 return only with an object that passes
    stage 1. *)
Lemma parse_and_verify_Return_stage1 (ld : LoginDefs) (fs : Files) :
  (parse_and_verify ld fs).1 = Return tt → stage1_ok (parse_and_verify ld fs).2.
Proof.
  unfold parse_and_verify, do_parsing. munfold.
  destruct (_parsePasswd _ _) as [[[]|?] s1]; [|discriminate].
  destruct (_parseGroup _ _ _) as [[[]|?] s2]; [|discriminate].
  destruct (_parseShadow _ _) as [[[]|?] s3]; [|discriminate].
  destruct (_parseSubUid _ _) as [[[]|?] s4]; [|discriminate].
  destruct (_parseSubGid _ _) as [[[]|?] s5]; [|discriminate].
  destruct (_verifyStage1 s5) as [[]|?] eqn:Hstage1; [|discriminate].
  intros _. by apply _verifyStage1_Return.
Qed.

(** A loaded object holds a group: stage 1 wants the group [root] on the
    list of system groups, and the loader has stored its record. *)
Lemma parse_and_verify_Return_has_group (ld : LoginDefs) (fs : Files) :
  (parse_and_verify ld fs).1 = Return tt → grpDict (parse_and_verify ld fs).2 ≠ ∅.
Proof.
  intros Hret. apply parse_and_verify_Return_stage1 in Hret.
  pose proof (parse_and_verify_consistent ld fs) as Hc.
  destruct Hret as [_ _ _ Hsys _ _]. destruct Hc as [_ _ Hj _ _ _ _].
  set (self := (parse_and_verify ld fs).2) in *.
  assert (Hroot : "root" ∈ systemGroupList self).
  { apply (proj1 (set_eq_true _ _) Hsys). unfold _stdSystemGroupList.
    apply list_elem_of_here. }
  unfold joinable in Hj. apply listed_in_app in Hj as [Hj _].
  destruct (proj1 (Forall_forall _ _) Hj _ Hroot) as [e He].
  intros Hempty. rewrite Hempty, lookup_empty in He. discriminate.
Qed.

Variable re_search : string → string → option string.

(** [__init__] returns only with an object that passes stage 1. *)
Lemma __init___Return_stage1 (lock : Outcome Z) (readOnly : bool)
    (loginDefFile : option string) (fs : Files) :
  (__init__ re_search lock readOnly loginDefFile fs).1 = Return tt →
  stage1_ok (__init__ re_search lock readOnly loginDefFile fs).2.
Proof.
  destruct (__init___cases re_search lock readOnly loginDefFile fs)
    as [(e & _ & ->) | [(ld & e & _ & _ & _ & ->) | (ld & _ & _ & ->)]];
    [discriminate|discriminate|].
  apply parse_and_verify_Return_stage1.
Qed.

(** An object [__init__] has returned holds a group. *)
Lemma __init___Return_has_group (lock : Outcome Z) (readOnly : bool)
    (loginDefFile : option string) (fs : Files) :
  (__init__ re_search lock readOnly loginDefFile fs).1 = Return tt →
  grpDict (__init__ re_search lock readOnly loginDefFile fs).2 ≠ ∅.
Proof.
  destruct (__init___cases re_search lock readOnly loginDefFile fs)
    as [(e & _ & ->) | [(ld & e & _ & _ & _ & ->) | (ld & _ & _ & ->)]];
    [discriminate|discriminate|].
  apply parse_and_verify_Return_has_group.
Qed.
End Loaded.

(** ** Idempotence of the repair *)

Lemma sort_le_ext {A} (le1 le2 : A → A → bool) (l : list A) :
  (∀ x y, le1 x y = le2 x y) → Py.sort_le le1 l = Py.sort_le le2 l.
Proof.
  intros Hle. induction l as [|x l IH]; [done|].
  cbn. fold (Py.sort_le le1 l). fold (Py.sort_le le2 l). rewrite IH.
  generalize (Py.sort_le le2 l). intros l'.
  induction l' as [|y l' IH']; [done|]. cbn. by rewrite Hle, IH'.
Qed.

Lemma normal_fixated_twice self :
  normalUserList (fixated (fixated self)) = normalUserList (fixated self).
Proof.
  unfold fixated at 1. proj_simpl.
  rewrite (sort_le_ext _ (λ x y, uid_of self x <=? uid_of self y))
    by (intros; by rewrite !uid_of_fixated).
  unfold fixated. proj_simpl. apply sort_le_idemp.
  intros x y. rewrite !Z.leb_le. lia.
Qed.

(** For an assignment [f] that is idempotent, the pass changes exactly the
    records of the listed names. *)
Lemma lookup_alter_all {V} (f : V → V) (l : list string) (d : gmap string V)
    (k : string) :
  (∀ x, f (f x) = f x) →
  alter_all f l d !! k = if decide (k ∈ l) then f <$> d !! k else d !! k.
Proof.
  intros Hf. revert d. induction l as [|u l IH]; intros d.
  - cbn. by rewrite decide_False by apply not_elem_of_nil.
  - cbn [alter_all]. rewrite IH.
    destruct (decide (u = k)) as [->|Hne].
    + rewrite lookup_alter_eq, (decide_True (P := k ∈ k :: l))
        by apply list_elem_of_here.
      destruct (decide (k ∈ l)); [|done].
      destruct (d !! k); cbn; [|done]. by rewrite Hf.
    + rewrite lookup_alter_ne by done.
      destruct (decide (k ∈ l)) as [Hin|Hnin].
      * by rewrite decide_True by (by apply list_elem_of_further).
      * rewrite decide_False; [done|].
        intros [?|?]%elem_of_cons; [congruence|done].
Qed.

Lemma pwdDict_fixated self :
  pwdDict (fixated self)
  = alter_all (with_pw_shell "/sbin/nologin") (softwareUserList self)
      (alter_all (with_pw_gecos "") (normalUserList (fixated self))
         (alter_all (with_pw_gecos "") _stdSystemUserList (pwdDict self))).
Proof. reflexivity. Qed.

Lemma pwdDict_fixated_twice self :
  pwdDict (fixated (fixated self)) = pwdDict (fixated self).
Proof.
  apply map_eq. intros k.
  assert (Hg : ∀ x, with_pw_gecos "" (with_pw_gecos "" x) = with_pw_gecos "" x)
    by done.
  assert (Hh : ∀ x, with_pw_shell "/sbin/nologin" (with_pw_shell "/sbin/nologin" x)
                    = with_pw_shell "/sbin/nologin" x) by done.
  rewrite (pwdDict_fixated (fixated self)), normal_fixated_twice.
  change (softwareUserList (fixated self)) with (softwareUserList self).
  rewrite !lookup_alter_all by done.
  rewrite (pwdDict_fixated self).
  rewrite !lookup_alter_all by done.
  destruct (pwdDict self !! k) as [e|];
    repeat (case_decide; cbn [fmap option_fmap option_map]); reflexivity.
Qed.

Lemma elem_of_remove {A} `{EqDecision A} (x y : A) (l : list A) :
  y ∈ Py.remove x l → y ∈ l.
Proof.
  induction l as [|z l IH]; cbn; [done|].
  case_decide; [by apply list_elem_of_further|].
  intros [->|Hy]%elem_of_cons; [apply list_elem_of_here|].
  by apply list_elem_of_further, IH.
Qed.

Lemma remove_tokens (x : string) (l : list string) :
  Forall token l → Forall token (Py.remove x l).
Proof.
  rewrite !Forall_forall. intros Hall y Hy. by eapply Hall, elem_of_remove.
Qed.

Lemma scrub_standardize_twice (e : _GrpEntry) :
  "root" ∉ Py.remove "root" (_nonEmptySplit (gr_mem e) comma) →
  standardize_members (scrub_member "root" (standardize_members (scrub_member "root" e)))
  = standardize_members (scrub_member "root" e).
Proof.
  intros Honce.
  set (e1 := standardize_members (scrub_member "root" e)).
  assert (Hnoroot : "root" ∉ _nonEmptySplit (gr_mem e1) comma).
  { unfold e1, standardize_members, scrub_member.
    destruct (Py.mem "root" (_nonEmptySplit (gr_mem e) comma)) eqn:Hm;
      cbn [gr_mem with_gr_mem].
    - rewrite nonEmptySplit_join_idemp, nonEmptySplit_join; [done|].
      apply remove_tokens, nonEmptySplit_tokens.
    - rewrite nonEmptySplit_join_idemp. by apply mem_false. }
  unfold scrub_member at 1. apply mem_false in Hnoroot. rewrite Hnoroot.
  unfold standardize_members at 1.
  assert (Hclean := standardize_members_clean (scrub_member "root" e)).
  fold e1 in Hclean. rewrite <- Hclean. apply with_gr_mem_same.
Qed.

Lemma lookup_delete_all {V} (l : list string) (d : gmap string V) (k : string) :
  delete_all l d !! k = if decide (k ∈ l) then None else d !! k.
Proof.
  case_decide; [by apply lookup_delete_all_in|by apply lookup_delete_all_notin].
Qed.

Lemma drop_delete_twice {V} (l sw : list string) (d : gmap string V) :
  drop_redundant l (delete_all sw (drop_redundant l (delete_all sw d)))
  = drop_redundant l (delete_all sw d).
Proof.
  apply map_eq. intros k. apply option_eq. intros v.
  rewrite !lookup_drop_redundant, !lookup_delete_all.
  case_decide; [split; [by intros [? _]|by intros [? _]]|].
  rewrite lookup_drop_redundant, lookup_delete_all.
  rewrite decide_False by done. tauto.
Qed.

Lemma add_missing_present (hi cnt : Z) (l : list string) (m : Z)
    (d : gmap string _SubUidGidEntry) :
  Forall (λ u, is_Some (d !! u)) l → add_missing hi cnt l m d = (Return tt, d).
Proof.
  induction 1 as [|u l Hu Hl IH]; [done|].
  cbn [add_missing]. unfold haskey. by rewrite bool_decide_eq_true_2.
Qed.

Lemma drop_redundant_all {V} (l : list string) (d : gmap string V) :
  (∀ k, is_Some (d !! k) → k ∈ l) → drop_redundant l d = d.
Proof.
  intros Hkeys. apply map_eq. intros k. apply option_eq. intros v.
  rewrite lookup_drop_redundant. split; [by intros [? _]|].
  intros Hk. split; [done|]. apply Hkeys. by eauto.
Qed.

Lemma subid_twice (lo hi cnt : Z) (l : list string) (m : Z)
    (d : gmap string _SubUidGidEntry) :
  let r := add_missing hi cnt l (subid_next lo (drop_redundant l d))
             (drop_redundant l d) in
  r.1 = Return tt →
  add_missing hi cnt l m (drop_redundant l r.2) = (Return tt, r.2).
Proof.
  intros r Hrun.
  assert (Hkeys : ∀ k, is_Some (r.2 !! k) ↔ k ∈ l).
  { intros k. unfold r. rewrite add_missing_keys by exact Hrun.
    split; [|by left]. intros [?|[v Hv]]; [done|].
    by apply lookup_drop_redundant in Hv as [_ ?]. }
  rewrite drop_redundant_all by (intros k; apply Hkeys).
  apply add_missing_present, Forall_forall. intros u Hu. by apply Hkeys.
Qed.

(** The object [_fixate] leaves is a fixed point of the repair, provided no
    member field named [root] twice. *)
Lemma fixated_idempotent self :
  fixate_returns self → root_listed_once self →
  fixated (fixated self) = fixated self.
Proof.
  intros Hret Honce.
  pose proof (normal_fixated_twice self) as Hnormal.
  assert (Hsubs : normalUserList (fixated (fixated self))
                  ++ softwareUserList (fixated self)
                  = normalUserList (fixated self) ++ softwareUserList self)
    by (by rewrite Hnormal).
  apply PasswdGroupShadow_ext; try reflexivity.
  - exact Hnormal.
  - apply pwdDict_fixated_twice.
  - exact Hnormal.
  - change (delete "root" (delete "root" (secondaryGroupsDict self))
            = delete "root" (secondaryGroupsDict self)).
    apply delete_id, lookup_delete_eq.
  - apply map_eq. intros g. rewrite (fixated_grp_lookup (fixated self)).
    rewrite fixated_grp_lookup. destruct (grpDict self !! g) as [e|] eqn:He; [|done].
    cbn. f_equal. apply scrub_standardize_twice. by apply (Honce g e).
  - change (_stdSystemUserList ++ normalUserList (fixated (fixated self))
            = _stdSystemUserList ++ normalUserList (fixated self)).
    by rewrite Hnormal.
  - change (drop_redundant
              (_stdSystemUserList ++ normalUserList (fixated (fixated self)))
              (delete_all (softwareUserList self)
                 (drop_redundant (_stdSystemUserList ++ normalUserList (fixated self))
                    (delete_all (softwareUserList self) (shDict self))))
            = drop_redundant (_stdSystemUserList ++ normalUserList (fixated self))
                (delete_all (softwareUserList self) (shDict self))).
    rewrite Hnormal. apply drop_delete_twice.
  - exact Hsubs.
  - change (subUidDict (fixated (fixated self)))
      with (add_missing (subUidMax (defs self)) (subUidCount (defs self))
              (normalUserList (fixated (fixated self)) ++ softwareUserList (fixated self))
              (subid_next (subUidMin (defs self))
                 (drop_redundant
                    (normalUserList (fixated (fixated self))
                     ++ softwareUserList (fixated self))
                    (subUidDict (fixated self))))
              (drop_redundant
                 (normalUserList (fixated (fixated self))
                  ++ softwareUserList (fixated self))
                 (subUidDict (fixated self)))).2.
    rewrite Hsubs.
    change (subUidDict (fixated self))
      with (add_missing (subUidMax (defs self)) (subUidCount (defs self))
              (normalUserList (fixated self) ++ softwareUserList self)
              (subid_next (subUidMin (defs self))
                 (drop_redundant (normalUserList (fixated self) ++ softwareUserList self)
                    (subUidDict self)))
              (drop_redundant (normalUserList (fixated self) ++ softwareUserList self)
                 (subUidDict self))).2.
    rewrite (subid_twice (subUidMin (defs self))); [reflexivity|].
    apply (subUid_room self Hret).
  - exact Hsubs.
  - change (subGidDict (fixated (fixated self)))
      with (add_missing (subGidMax (defs self)) (subGidCount (defs self))
              (normalUserList (fixated (fixated self)) ++ softwareUserList (fixated self))
              (subid_next (subGidMin (defs self))
                 (drop_redundant
                    (normalUserList (fixated (fixated self))
                     ++ softwareUserList (fixated self))
                    (subGidDict (fixated self))))
              (drop_redundant
                 (normalUserList (fixated (fixated self))
                  ++ softwareUserList (fixated self))
                 (subGidDict (fixated self)))).2.
    rewrite Hsubs.
    change (subGidDict (fixated self))
      with (add_missing (subGidMax (defs self)) (subGidCount (defs self))
              (normalUserList (fixated self) ++ softwareUserList self)
              (subid_next (subGidMin (defs self))
                 (drop_redundant (normalUserList (fixated self) ++ softwareUserList self)
                    (subGidDict self)))
              (drop_redundant (normalUserList (fixated self) ++ softwareUserList self)
                 (subGidDict self))).2.
    rewrite (subid_twice (subGidMin (defs self))); [reflexivity|].
    apply (subGid_room self Hret).
Qed.

Lemma for_set_pwd_attr_ok (f : _PwdEntry → _PwdEntry) (l : list string) self :
  Forall (λ u, is_Some (pwdDict self !! u)) l →
  for_ l (set_pwd_attr f) self = (Return tt, set_pwdDict (alter_all f l) self).
Proof.
  revert self. induction l as [|u l IH]; intros self Hall.
  - cbn. by destruct self.
  - apply Forall_cons in Hall as [[e Hu] Hall].
    cbn [for_]. unfold set_pwd_attr at 1, setattr_in. munfold. rewrite Hu. munfold.
    rewrite IH.
    + proj_simpl. by rewrite (insert_as_alter f _ _ _ Hu).
    + proj_simpl. eapply Forall_impl; [exact Hall|]. intros x [e' He'].
      destruct (decide (u = x)) as [->|Hne].
      * rewrite lookup_insert_eq. by eauto.
      * rewrite lookup_insert_ne by done. by eauto.
Qed.

(** [_fixate] returns on exactly the objects that meet [fixate_returns],
    and leaves [fixated self]. *)
Lemma _fixate_runs self :
  fixate_returns self → _fixate self = (Return tt, fixated self).
Proof.
  intros [Hsys Hsysg Hper Hsh Hrec Hsa Hroom_u Hroom_g].
  apply Forall_app in Hrec as [Hrec_sys Hrec]. apply Forall_app in Hrec as [Hrec_n Hrec_sw].
  set (normal := normalUserList (fixated self)) in *.
  unfold _fixate. munfold. rewrite Hsys. munfold. proj_simpl.
  rewrite for_set_pwd_attr_ok by (proj_simpl; exact Hrec_sys). munfold. proj_simpl.
  rewrite comprehension_uids_ok.
  2:{ eapply Forall_impl; [exact Hrec_n|]. intros x Hx.
      by apply lookup_alter_all_is_Some. }
  munfold. proj_simpl.
  rewrite (fmap_ext_all _ (uid_of self)) by (intros; apply uid_alter_all_gecos).
  rewrite sort_keyed_fmap. change (Py.sort_le (λ x y, uid_of self x <=? uid_of self y) (normalUserList self)) with normal.
  rewrite for_set_pwd_attr_ok.
  2:{ proj_simpl. apply Forall_forall. intros x Hx.
      apply lookup_alter_all_is_Some.
      apply (proj1 (Forall_forall _ _) Hrec_n). by apply elem_of_sorted_normal. }
  munfold. proj_simpl.
  rewrite for_set_pwd_attr_ok.
  2:{ proj_simpl. eapply Forall_impl; [exact Hrec_sw|]. intros x Hx.
      by do 2 apply lookup_alter_all_is_Some. }
  munfold. proj_simpl.
  rewrite for_delete_shadow. munfold. proj_simpl.
  rewrite Hsysg. munfold. proj_simpl.
  rewrite ?sort_keyed_fmap. change (Py.sort_le (λ x y, uid_of self x <=? uid_of self y) (normalUserList self)) with normal.
  rewrite Hper. munfold. proj_simpl. rewrite Hsa.
  cbn [comprehension]. munfold. proj_simpl.
  rewrite ?sort_keyed_fmap. change (Py.sort_le (λ x y, uid_of self x <=? uid_of self y) (normalUserList self)) with normal.
  destruct (haskey (secondaryGroupsDict self) "root") eqn:Hroot; munfold; proj_simpl.
  all: rewrite ?sort_keyed_fmap; change (Py.sort_le (λ x y, uid_of self x <=? uid_of self y) (normalUserList self)) with normal.
  all: rewrite Hsh; munfold; proj_simpl.
  all: rewrite ?sort_keyed_fmap; change (Py.sort_le (λ x y, uid_of self x <=? uid_of self y) (normalUserList self)) with normal.
  all: cbv zeta; munfold; proj_simpl.
  all: rewrite ?sort_keyed_fmap; change (Py.sort_le (λ x y, uid_of self x <=? uid_of self y) (normalUserList self)) with normal.
  all: rewrite Hroom_u; munfold; proj_simpl.
  all: rewrite ?sort_keyed_fmap; change (Py.sort_le (λ x y, uid_of self x <=? uid_of self y) (normalUserList self)) with normal.
  all: rewrite Hroom_g; munfold; proj_simpl.
  all: f_equal.
  all: apply PasswdGroupShadow_ext; proj_simpl; unfold normal, fixated; proj_simpl;
    try reflexivity.
  all: try (rewrite sort_keyed_fmap; reflexivity).
  all: try (rewrite Hsa; reflexivity).
  apply delete_absent, Hroot.
Qed.

Lemma fixate_returns_fixated self :
  fixate_returns self → fixate_returns (fixated self).
Proof.
  intros Hret. pose proof Hret as [_ _ _ _ Hrec Hsa Hroom_u Hroom_g].
  pose proof (normal_fixated_twice self) as Hnormal.
  split.
  - reflexivity.
  - reflexivity.
  - rewrite Hnormal. apply set_eq_refl.
  - rewrite Hnormal. by apply set_ge_true.
  - apply Forall_forall. intros u Hu.
    change (softwareUserList (fixated self)) with (softwareUserList self) in Hu.
    destruct (proj1 (Forall_forall _ _) Hrec u) as [e He].
    { rewrite !elem_of_app in *. rewrite elem_of_sorted_normal in Hu. tauto. }
    destruct (fixated_pwd_lookup self u e He) as (e' & He' & _). by eauto.
  - exact Hsa.
  - rewrite Hnormal. change (softwareUserList (fixated self)) with (softwareUserList self).
    change (defs (fixated self)) with (defs self).
    change (subUidDict (fixated self))
      with (add_missing (subUidMax (defs self)) (subUidCount (defs self))
              (normalUserList (fixated self) ++ softwareUserList self)
              (subid_next (subUidMin (defs self))
                 (drop_redundant (normalUserList (fixated self) ++ softwareUserList self)
                    (subUidDict self)))
              (drop_redundant (normalUserList (fixated self) ++ softwareUserList self)
                 (subUidDict self))).2.
    by rewrite (subid_twice (subUidMin (defs self))).
  - rewrite Hnormal. change (softwareUserList (fixated self)) with (softwareUserList self).
    change (defs (fixated self)) with (defs self).
    change (subGidDict (fixated self))
      with (add_missing (subGidMax (defs self)) (subGidCount (defs self))
              (normalUserList (fixated self) ++ softwareUserList self)
              (subid_next (subGidMin (defs self))
                 (drop_redundant (normalUserList (fixated self) ++ softwareUserList self)
                    (subGidDict self)))
              (drop_redundant (normalUserList (fixated self) ++ softwareUserList self)
                 (subGidDict self))).2.
    by rewrite (subid_twice (subGidMin (defs self))).
Qed.

(** [_fixate] is idempotent on every object on which it returns and whose
    member fields name [root] at most once: the second run returns and
    leaves the object the first run produced.  A member field that names
    [root] twice is the only obstacle. *)
Theorem _fixate_idempotent_when_root_listed_once (self self' : PasswdGroupShadow) :
  _fixate self = (Return tt, self') →
  root_listed_once self →
  _fixate self' = (Return tt, self').
Proof.
  intros Hfix Honce. apply _fixate_Return in Hfix as [-> Hret].
  rewrite (_fixate_runs (fixated self)) by (by apply fixate_returns_fixated).
  by rewrite fixated_idempotent.
Qed.

Lemma _fixate_idempotent_when_root_listed_once_witness :
  _fixate (_fixate sample).2 = (Return tt, (_fixate sample).2).
Proof.
  apply (_fixate_idempotent_when_root_listed_once sample).
  - vm_compute. reflexivity.
  - apply (by_computation (root_listed_once sample)). vm_compute. reflexivity.
Defined.

(** ** Running [_fixate] twice *)

(** C5.  [_fixate] is not idempotent on the sample whose group [wheel]
    lists [root] twice: both runs return; the first removes one [root] from
    the member field of [wheel] and leaves the other, the second removes
    that one, so the second run changes the object the first run produced. *)
Theorem _fixate_twice_differs :
  (sample_init sample_files_root_twice).1 = Return tt
  ∧ (_fixate sample_root_twice).1 = Return tt
  ∧ (_fixate (_fixate sample_root_twice).2).1 = Return tt
  ∧ gr_mem <$> grpDict sample_root_twice !! "wheel" = Some "root,root"
  ∧ gr_mem <$> grpDict (_fixate sample_root_twice).2 !! "wheel" = Some "root"
  ∧ gr_mem <$> grpDict (_fixate (_fixate sample_root_twice).2).2 !! "wheel" = Some ""
  ∧ (_fixate (_fixate sample_root_twice).2).2 ≠ (_fixate sample_root_twice).2.
Proof.
  split; [vm_compute; reflexivity|].
  split; [vm_compute; reflexivity|].
  split; [vm_compute; reflexivity|].
  split; [vm_compute; reflexivity|].
  split; [vm_compute; reflexivity|].
  split; [vm_compute; reflexivity|].
  intros Heq.
  assert (Hw : gr_mem <$> grpDict (_fixate (_fixate sample_root_twice).2).2 !! "wheel"
               = gr_mem <$> grpDict (_fixate sample_root_twice).2 !! "wheel")
    by (by rewrite Heq).
  vm_compute in Hw. discriminate.
Qed.

(** ** Every record the loader reads is classified *)

Ltac solve_listed k :=
  let u := fresh "u" in
  intros u;
  repeat match goal with Hx : ∀ x : string, _ ↔ _ |- _ => specialize (Hx u) end;
  unfold all_users, all_groups in *; proj_simpl;
  rewrite ?elem_of_app, ?list_elem_of_singleton in *;
  destruct (decide (k = u)) as [->|?];
  [rewrite ?lookup_insert_eq; split; [intros _; tauto|intros _; by eexists]
  |rewrite ?lookup_insert_ne by done; intuition congruence].

Ltac solve_classified Hc k :=
  cbn [snd];
  destruct Hc as [? ? ? ? ? ? ? ? ? ?];
  split; proj_simpl;
  first [assumption
        |by apply map_Forall_insert_2
        |solve_listed k].


Section LoadClassified.
Context `{Externals}.

Lemma _PwdEntry_init_name (t : list string) (e : _PwdEntry) :
  _PwdEntry_init t = Return e →
  pw_name e = item t 0 ∧ is_Some (int (item t 2)).
Proof.
  unfold _PwdEntry_init, int_. destruct (raise_if _ _) as [[]|?]; [|discriminate].
  cbn [obind]. destruct (int (item t 2)) as [uid|]; [|discriminate].
  cbn [obind]. destruct (int (item t 3)) as [gid|]; [|discriminate].
  cbn [obind]. intros [= <-]. split; [reflexivity|by eexists].
Qed.

Lemma _GrpEntry_init_name (t : list string) (e : _GrpEntry) :
  _GrpEntry_init t = Return e →
  gr_name e = item t 0 ∧ gr_mem e = item t 3 ∧ is_Some (int (item t 2)).
Proof.
  unfold _GrpEntry_init, int_. destruct (raise_if _ _) as [[]|?]; [|discriminate].
  cbn [obind]. destruct (int (item t 2)) as [gid|]; [|discriminate].
  cbn [obind]. intros [= <-]. by eauto.
Qed.

Lemma _parsePasswd_classified (passwdFile : option string) self :
  classified self → classified (_parsePasswd passwdFile self).2.
Proof.
  unfold _parsePasswd. destruct passwdFile as [buf|]; [|done].
  munfold. cbn [_readFile]. apply for_preserves. clear self.
  intros line self Hc. destruct (skipped line); [exact Hc|].
  unfold _parsePasswd_fields. munfold.
  set (t := Py.split colon line).
  destruct (raise_if _ _) as [[]|?]; [|exact Hc].
  destruct (_PwdEntry_init _) as [e|?] eqn:He; [|exact Hc].
  apply _PwdEntry_init_name in He as [Hname [uid Huid]].
  unfold int_. rewrite Huid.
  destruct (Py.mem _ _stdSystemUserList); [solve_classified Hc (item t 0)|].
  proj_simpl. destruct (_ && _); [solve_classified Hc (item t 0)|].
  destruct (Py.mem _ _stdDeprecatedUserList); solve_classified Hc (item t 0).
Qed.

(** The member loop never raises: it adds the group to the index entry of
    every member named. *)
Lemma member_loop (g : string) (l : list string) self :
  for_ l (λ u,
    if bool_decide (u = "") then ret tt
    else
      do self <- this;
      do _ <- when (negb (haskey (secondaryGroupsDict self) u))
                (update (set_secondaryGroupsDict (insert u [])));
      do self <- this;
      do glist <- lift (getitem (secondaryGroupsDict self) u);
      update (set_secondaryGroupsDict (insert u (glist ++ [g])))) self
  = (Return tt,
     set_secondaryGroupsDict (λ index, foldl (index_add g) index l) self).
Proof.
  revert self. induction l as [|u l IH]; intros self.
  - cbn [for_ foldl]. unfold ret. f_equal. by destruct self.
  - cbn [for_ foldl]. unfold bind at 1.
    assert (Hadd : index_add g (secondaryGroupsDict self) u
                   = if bool_decide (u = "") then secondaryGroupsDict self
                     else <[u := default [] (secondaryGroupsDict self !! u) ++ [g]]>
                            (secondaryGroupsDict self)) by reflexivity.
    destruct (bool_decide (u = "")).
    + unfold ret at 1. rewrite IH. f_equal. destruct self. unfold set_secondaryGroupsDict. proj_simpl.
      by rewrite Hadd.
    + munfold. unfold haskey, getitem.
      destruct (secondaryGroupsDict self !! u) as [glist|] eqn:Hu.
      * rewrite bool_decide_eq_true_2 by (by eexists). cbn [negb]. rewrite Hu.
        rewrite IH. f_equal. destruct self. unfold set_secondaryGroupsDict. proj_simpl. by rewrite Hadd.
      * rewrite bool_decide_eq_false_2 by (by intros [? ?]). cbn [negb].
        proj_simpl. rewrite lookup_insert_eq. rewrite IH. f_equal.
        destruct self. unfold set_secondaryGroupsDict. proj_simpl. rewrite Hadd.
        by rewrite insert_insert_eq.
Qed.

Lemma _parseGroup_classified (groupFile : option string) (normal : list string) self :
  classified self → classified (_parseGroup groupFile normal self).2.
Proof.
  unfold _parseGroup. destruct groupFile as [buf|]; [|done].
  munfold. cbn [_readFile]. apply for_preserves. clear self.
  intros line self Hc. destruct (skipped line); [exact Hc|].
  unfold _parseGroup_fields.
  set (t := Py.split colon line).
  pose proof (member_loop (item t 0) (Py.split comma (item t 3))) as Hloop.
  munfold.
  destruct (raise_if _ _) as [[]|?]; [|exact Hc].
  destruct (_GrpEntry_init _) as [e|?] eqn:He; [|exact Hc].
  apply _GrpEntry_init_name in He as (Hname & Hmem & [gid Hgid]).
  unfold int_. rewrite Hgid.
  destruct (Py.mem _ _stdSystemGroupList);
    [|destruct (Py.mem _ normal);
      [|destruct (Py.mem _ _stdDeviceGroupList);
        [|destruct (Py.mem _ _stdDeprecatedGroupList);
          [|proj_simpl; destruct (_ && _)]]]].
  all: rewrite Hloop; solve_classified Hc (item t 0).
Qed.

Lemma _parseShadow_classified (shadowFile : option string) self :
  classified self → classified (_parseShadow shadowFile self).2.
Proof.
  unfold _parseShadow. destruct shadowFile as [buf|]; [|done].
  munfold. cbn [_readFile]. apply for_preserves. clear self.
  intros line self Hc. destruct (skipped line); [exact Hc|].
  cbv zeta. set (t := Py.split colon line).
  destruct (raise_if _ _) as [[]|?]; [|exact Hc].
  unfold _ShadowEntry_init. destruct (raise_if _ _) as [[]|?]; [|exact Hc].
  cbn [obind]. solve_classified Hc (item t 0).
Qed.

Lemma _parseSubUid_classified (subuidFile : option string) self :
  classified self → classified (_parseSubUid subuidFile self).2.
Proof.
  unfold _parseSubUid. destruct subuidFile as [buf|]; [|done].
  apply for_preserves. clear self.
  intros line self Hc. destruct (skipped line); [exact Hc|].
  unfold _parseSubId_fields. munfold. set (t := Py.split colon line).
  destruct (raise_if _ _) as [[]|?]; [|exact Hc].
  destruct (int_ _) as [s|?]; [|exact Hc].
  destruct (int_ _) as [c|?]; [|exact Hc].
  solve_classified Hc (item t 0).
Qed.

Lemma _parseSubGid_classified (subgidFile : option string) self :
  classified self → classified (_parseSubGid subgidFile self).2.
Proof.
  unfold _parseSubGid. destruct subgidFile as [buf|]; [|done].
  apply for_preserves. clear self.
  intros line self Hc. destruct (skipped line); [exact Hc|].
  unfold _parseSubId_fields. munfold. set (t := Py.split colon line).
  destruct (raise_if _ _) as [[]|?]; [|exact Hc].
  destruct (int_ _) as [s|?]; [|exact Hc].
  destruct (int_ _) as [c|?]; [|exact Hc].
  solve_classified Hc (item t 0).
Qed.

Lemma blank_classified (ld : LoginDefs) (fs : Files) : classified (blank ld fs).
Proof.
  split; try (intros u; cbn; rewrite lookup_empty; split;
              [by intros [? ?]|by intros ?%elem_of_nil]);
    exact (map_Forall_empty _).
Qed.

Lemma parse_and_verify_classified (ld : LoginDefs) (fs : Files) :
  classified (parse_and_verify ld fs).2.
Proof.
  unfold parse_and_verify, do_parsing. munfold.
  pose proof (_parsePasswd_classified (passwd fs) _ (blank_classified ld fs)) as H1.
  destruct (_parsePasswd _ _) as [[[]|?] s1]; [|exact H1]. cbn [snd] in H1.
  pose proof (_parseGroup_classified (group fs) (normalUserList s1) _ H1) as H2.
  destruct (_parseGroup _ _ _) as [[[]|?] s2]; [|exact H2]. cbn [snd] in H2.
  pose proof (_parseShadow_classified (shadow fs) _ H2) as H3.
  destruct (_parseShadow _ _) as [[[]|?] s3]; [|exact H3]. cbn [snd] in H3.
  pose proof (_parseSubUid_classified (subuid fs) _ H3) as H4.
  destruct (_parseSubUid _ _) as [[[]|?] s4]; [|exact H4]. cbn [snd] in H4.
  pose proof (_parseSubGid_classified (subgid fs) _ H4) as H5.
  destruct (_parseSubGid _ _) as [[[]|?] s5]; [|exact H5]. cbn [snd] in H5.
  destruct (_verifyStage1 s5); exact H5.
Qed.

Variable re_search : string → string → option string.

(** Whatever the files hold and however [__init__] ends, the object it
    leaves has every record it stored on one of the category or entry lists
    and a record for every listed name, and each record is stored under
    the name it carries. *)
Theorem __init___classifies_every_record (lock : Outcome Z) (readOnly : bool)
    (loginDefFile : option string) (fs : Files) :
  classified (__init__ re_search lock readOnly loginDefFile fs).2.
Proof.
  destruct (__init___cases re_search lock readOnly loginDefFile fs)
    as [(e & _ & ->) | [(ld & e & _ & _ & _ & ->) | (ld & _ & _ & ->)]].
  - apply blank_classified.
  - apply blank_classified.
  - apply parse_and_verify_classified.
Qed.
End LoadClassified.
(** ** The index the loader builds *)

Lemma index_add_mono (g : string) (index : gmap string (list string))
    (u u' g' : string) :
  g' ∈ default [] (index !! u') → g' ∈ default [] (index_add g index u !! u').
Proof.
  unfold index_add. destruct (bool_decide (u = "")); [done|].
  destruct (decide (u = u')) as [->|Hne].
  - rewrite lookup_insert_eq. cbn. intros Hin. apply elem_of_app. by left.
  - by rewrite lookup_insert_ne.
Qed.

Lemma foldl_index_add_mono (g : string) (l : list string)
    (index : gmap string (list string)) (u' g' : string) :
  g' ∈ default [] (index !! u') →
  g' ∈ default [] (foldl (index_add g) index l !! u').
Proof.
  revert index. induction l as [|u l IH]; intros index Hin; [done|].
  cbn [foldl]. apply IH. by apply index_add_mono.
Qed.

Lemma foldl_index_add_in (g : string) (l : list string)
    (index : gmap string (list string)) (u : string) :
  u ∈ l → u ≠ "" → g ∈ default [] (foldl (index_add g) index l !! u).
Proof.
  revert index. induction l as [|x l IH]; intros index Hin Hne.
  - by apply elem_of_nil in Hin.
  - cbn [foldl]. apply elem_of_cons in Hin as [->|Hin]; [|by apply IH].
    apply foldl_index_add_mono. unfold index_add.
    rewrite bool_decide_eq_false_2 by done. rewrite lookup_insert_eq. cbn.
    apply elem_of_app. right. apply list_elem_of_here.
Qed.

Lemma index_complete_line (self self' : PasswdGroupShadow) (k : string)
    (e : _GrpEntry) :
  index_complete self →
  grpDict self' = <[k := e]> (grpDict self) →
  secondaryGroupsDict self'
  = foldl (index_add k) (secondaryGroupsDict self) (Py.split comma (gr_mem e)) →
  index_complete self'.
Proof.
  intros Hc Hgrp Hindex g e' u. unfold secondary_groups. rewrite Hgrp, Hindex.
  destruct (decide (k = g)) as [->|Hne].
  - rewrite lookup_insert_eq. intros [= <-] Hu.
    unfold _nonEmptySplit in Hu. apply list_elem_of_filter in Hu as [Hne Hu].
    by apply foldl_index_add_in.
  - rewrite lookup_insert_ne by done. intros He' Hu.
    apply foldl_index_add_mono. exact (Hc g e' u He' Hu).
Qed.

Section LoadIndex.
Context `{Externals}.

Lemma _parsePasswd_grp (passwdFile : option string) self :
  index_complete self → index_complete (_parsePasswd passwdFile self).2.
Proof.
  unfold _parsePasswd. destruct passwdFile as [buf|]; [|done].
  munfold. cbn [_readFile]. apply for_preserves. clear self.
  intros line self Hc. destruct (skipped line); [exact Hc|].
  unfold _parsePasswd_fields. munfold.
  destruct (raise_if _ _) as [[]|?]; [|exact Hc].
  destruct (_PwdEntry_init _) as [e|?]; [|exact Hc].
  destruct (Py.mem _ _stdSystemUserList); [exact Hc|].
  destruct (int_ _) as [uid|?]; [|exact Hc].
  proj_simpl. destruct (_ && _); [exact Hc|].
  destruct (Py.mem _ _stdDeprecatedUserList); exact Hc.
Qed.

Lemma _parseGroup_index (groupFile : option string) (normal : list string) self :
  index_complete self → index_complete (_parseGroup groupFile normal self).2.
Proof.
  unfold _parseGroup. destruct groupFile as [buf|]; [|done].
  munfold. cbn [_readFile]. apply for_preserves. clear self.
  intros line self Hc. destruct (skipped line); [exact Hc|].
  unfold _parseGroup_fields.
  set (t := Py.split colon line).
  pose proof (member_loop (item t 0) (Py.split comma (item t 3))) as Hloop.
  munfold.
  destruct (raise_if _ _) as [[]|?]; [|exact Hc].
  destruct (_GrpEntry_init _) as [e|?] eqn:He; [|exact Hc].
  apply _GrpEntry_init_name in He as (Hname & Hmem & [gid Hgid]).
  unfold int_. rewrite Hgid.
  destruct (Py.mem _ _stdSystemGroupList);
    [|destruct (Py.mem _ normal);
      [|destruct (Py.mem _ _stdDeviceGroupList);
        [|destruct (Py.mem _ _stdDeprecatedGroupList);
          [|proj_simpl; destruct (_ && _)]]]].
  all: rewrite Hloop; cbn [snd].
  all: apply (index_complete_line self _ (item t 0) e Hc); [reflexivity|].
  all: by rewrite Hmem.
Qed.

Lemma _parseShadow_grp (shadowFile : option string) self :
  index_complete self → index_complete (_parseShadow shadowFile self).2.
Proof.
  unfold _parseShadow. destruct shadowFile as [buf|]; [|done].
  munfold. cbn [_readFile]. apply for_preserves. clear self.
  intros line self Hc. destruct (skipped line); [exact Hc|].
  cbv zeta. destruct (raise_if _ _) as [[]|?]; [|exact Hc].
  destruct (_ShadowEntry_init _) as [e|?]; exact Hc.
Qed.

Lemma _parseSubId_grp set_dict set_list (file : option string) self :
  (∀ f s, grpDict (set_dict f s) = grpDict s
          ∧ secondaryGroupsDict (set_dict f s) = secondaryGroupsDict s) →
  (∀ f s, grpDict (set_list f s) = grpDict s
          ∧ secondaryGroupsDict (set_list f s) = secondaryGroupsDict s) →
  index_complete self →
  index_complete
    (match file with
     | None => ret tt
     | Some buf =>
         for_ (Py.split newline (universal_newlines buf)) (λ line,
           if skipped line then ret tt
           else _parseSubId_fields set_dict set_list (Py.split colon line))
     end self).2.
Proof.
  intros Hdict Hlist. destruct file as [buf|]; [|done].
  apply for_preserves. clear self.
  intros line self Hc. destruct (skipped line); [exact Hc|].
  unfold _parseSubId_fields. munfold.
  destruct (raise_if _ _) as [[]|?]; [|exact Hc].
  destruct (int_ _) as [s|?]; [|exact Hc].
  destruct (int_ _) as [c|?]; [|exact Hc].
  cbn [snd]. intros g e u. unfold secondary_groups.
  destruct (Hlist (λ l, l ++ [item (Py.split colon line) 0])
              (set_dict (insert (item (Py.split colon line) 0)
                 (mk_SubUidGidEntry (item (Py.split colon line) 0) s c)) self))
    as [-> ->].
  destruct (Hdict (insert (item (Py.split colon line) 0)
                 (mk_SubUidGidEntry (item (Py.split colon line) 0) s c)) self)
    as [-> ->].
  apply Hc.
Qed.

Lemma parse_and_verify_index (ld : LoginDefs) (fs : Files) :
  index_complete (parse_and_verify ld fs).2.
Proof.
  assert (H0 : index_complete (blank ld fs)).
  { intros g e u Hg. cbn in Hg. by rewrite lookup_empty in Hg. }
  unfold parse_and_verify, do_parsing. munfold.
  pose proof (_parsePasswd_grp (passwd fs) _ H0) as H1.
  destruct (_parsePasswd _ _) as [[[]|?] s1]; [|exact H1]. cbn [snd] in H1.
  pose proof (_parseGroup_index (group fs) (normalUserList s1) _ H1) as H2.
  destruct (_parseGroup _ _ _) as [[[]|?] s2]; [|exact H2]. cbn [snd] in H2.
  pose proof (_parseShadow_grp (shadow fs) _ H2) as H3.
  destruct (_parseShadow _ _) as [[[]|?] s3]; [|exact H3]. cbn [snd] in H3.
  pose proof (_parseSubId_grp set_subUidDict set_subUidEntryList (subuid fs) s3
                ltac:(done) ltac:(done) H3) as H4.
  change (index_complete (_parseSubUid (subuid fs) s3).2) in H4.
  destruct (_parseSubUid _ _) as [[[]|?] s4]; [|exact H4]. cbn [snd] in H4.
  pose proof (_parseSubId_grp set_subGidDict set_subGidEntryList (subgid fs) s4
                ltac:(done) ltac:(done) H4) as H5.
  change (index_complete (_parseSubGid (subgid fs) s4).2) in H5.
  destruct (_parseSubGid _ _) as [[[]|?] s5]; [|exact H5]. cbn [snd] in H5.
  destruct (_verifyStage1 s5); exact H5.
Qed.

Variable re_search : string → string → option string.

(** Whatever the files hold and however [__init__] ends, the index it
    has built lists, for every member a stored group record names, that
    group among the secondary groups of the member. *)
Theorem __init___indexes_every_member (lock : Outcome Z) (readOnly : bool)
    (loginDefFile : option string) (fs : Files) :
  index_complete (__init__ re_search lock readOnly loginDefFile fs).2.
Proof.
  assert (H0 : ∀ ld, index_complete (blank ld fs)).
  { intros ld g e u Hg. cbn in Hg. by rewrite lookup_empty in Hg. }
  destruct (__init___cases re_search lock readOnly loginDefFile fs)
    as [(e & _ & ->) | [(ld & e & _ & _ & _ & ->) | (ld & _ & _ & ->)]].
  - apply H0.
  - apply H0.
  - apply parse_and_verify_index.
Qed.
End LoadIndex.
(** ** How loading can fail *)




Section LoadErrors.
Context `{Externals}.







Variable re_search : string → string → option string.


End LoadErrors.

(** ** The repair pass and stand-alone groups *)

Lemma set_eq_sorted_normal self (l : list string) :
  Py.set_eq l (normalUserList self) = true →
  Py.set_eq l (normalUserList (fixated self)) = true.
Proof.
  rewrite !set_eq_true. intros Heq x. rewrite Heq.
  symmetry. apply elem_of_sorted_normal.
Qed.

Lemma sort_standAlone_raises (self : PasswdGroupShadow) :
  stage1_ok self →
  listed_in (systemUserList self ++ softwareUserList self) (pwdDict self) →
  standAloneGroupList self ≠ [] →
  (_fixate self).1 = Raise (AttributeError "pw_gid").
Proof.
  intros [Hsys _ Hnormal Hsysg Hper Hsa] Hrec Hne.
  apply listed_in_app in Hrec as [Hrec_sys Hrec_sw].
  assert (Hrec_std : Forall (λ u, is_Some (pwdDict self !! u)) _stdSystemUserList).
  { apply Forall_forall. intros u Hu.
    apply (proj1 (Forall_forall _ _) Hrec_sys).
    by apply (proj1 (set_eq_true _ _) Hsys). }
  assert (Hrec_n : Forall (λ u, is_Some (pwdDict self !! u)) (normalUserList self)).
  { eapply Forall_impl; [exact Hnormal|]. intros u (pw & _ & _ & Hpw & _). by eauto. }
  apply set_eq_sorted_normal in Hper.
  set (normal := normalUserList (fixated self)) in *.
  unfold _fixate. munfold. rewrite Hsys. munfold. proj_simpl.
  rewrite for_set_pwd_attr_ok by (proj_simpl; exact Hrec_std). munfold. proj_simpl.
  rewrite comprehension_uids_ok.
  2:{ eapply Forall_impl; [exact Hrec_n|]. intros x Hx.
      by apply lookup_alter_all_is_Some. }
  munfold. proj_simpl.
  rewrite (fmap_ext_all _ (uid_of self)) by (intros; apply uid_alter_all_gecos).
  rewrite sort_keyed_fmap. change (Py.sort_le (λ x y, uid_of self x <=? uid_of self y) (normalUserList self)) with normal.
  rewrite for_set_pwd_attr_ok.
  2:{ proj_simpl. apply Forall_forall. intros x Hx.
      apply lookup_alter_all_is_Some.
      apply (proj1 (Forall_forall _ _) Hrec_n). by apply elem_of_sorted_normal. }
  munfold. proj_simpl.
  rewrite for_set_pwd_attr_ok.
  2:{ proj_simpl. eapply Forall_impl; [exact Hrec_sw|]. intros x Hx.
      by do 2 apply lookup_alter_all_is_Some. }
  munfold. proj_simpl.
  rewrite for_delete_shadow. munfold. proj_simpl.
  rewrite Hsysg. munfold. proj_simpl.
  rewrite ?sort_keyed_fmap. change (Py.sort_le (λ x y, uid_of self x <=? uid_of self y) (normalUserList self)) with normal.
  rewrite Hper. munfold. proj_simpl.
  destruct (standAloneGroupList self) as [|g rest]; [done|].
  apply Forall_cons in Hsa as [[[gr Hg] _] _].
  cbn [comprehension]. unfold getitem at 1. rewrite Hg. reflexivity.
Qed.

(** With one stand-alone group on the list, [_fixate] gets as far as the
    sort of that list and ends there: the key function of the sort reads
    the attribute [pw_gid] of a group entry. *)
Theorem _fixate_standAlone_AttributeError (self : PasswdGroupShadow) :
  stage1_ok self →
  listed_in (systemUserList self ++ softwareUserList self) (pwdDict self) →
  standAloneGroupList self ≠ [] →
  (_fixate self).1 = Raise (AttributeError "pw_gid").
Proof. exact (sort_standAlone_raises self). Qed.

Lemma _fixate_standAlone_AttributeError_witness :
  (_fixate sample_staff).1 = Raise (AttributeError "pw_gid").
Proof.
  apply _fixate_standAlone_AttributeError.
  - apply _verifyStage1_Return. vm_compute. reflexivity.
  - apply (by_computation (Forall _ _)). vm_compute. reflexivity.
  - vm_compute. discriminate.
Defined.
(** ** What the repair pass leaves alone *)

Lemma filter_remove_ne {A} `{EqDecision A} (x : A) (l : list A) :
  filter (λ y, y ≠ x) (Py.remove x l) = filter (λ y, y ≠ x) l.
Proof.
  induction l as [|y l IH]; cbn [Py.remove]; [done|].
  destruct (decide (x = y)) as [<-|Hne].
  - by rewrite (filter_cons_False _ x l) by (intros Hx; by apply Hx).
  - rewrite !filter_cons. by rewrite IH.
Qed.

Lemma same_group_fixated (e : _GrpEntry) :
  same_group e (standardize_members (scrub_member "root" e)).
Proof.
  unfold same_group, standardize_members, scrub_member.
  destruct (Py.mem "root" (_nonEmptySplit (gr_mem e) comma));
    cbn [gr_name gr_passwd gr_gid gr_mem with_gr_mem].
  - repeat split.
    rewrite nonEmptySplit_join_idemp, nonEmptySplit_join
      by apply remove_tokens, nonEmptySplit_tokens.
    apply filter_remove_ne.
  - repeat split. by rewrite nonEmptySplit_join_idemp.
Qed.

Lemma same_account_fixated self (u : string) (e : _PwdEntry) :
  pwdDict self !! u = Some e →
  ∃ e', pwdDict (fixated self) !! u = Some e' ∧ same_account e e'.
Proof.
  intros He. unfold fixated. proj_simpl.
  assert (Hg : ∀ v x, same_account e x → same_account e (with_pw_gecos v x))
    by (intros v x Hx; exact Hx).
  assert (Hs : ∀ v x, same_account e x → same_account e (with_pw_shell v x))
    by (intros v x Hx; exact Hx).
  destruct (lookup_alter_all_pres (with_pw_gecos "") (same_account e)
              _stdSystemUserList (pwdDict self) u e (Hg "") He)
    as (e1 & He1 & H1); [by repeat split|].
  destruct (lookup_alter_all_pres (with_pw_gecos "") (same_account e)
              (Py.sort_le (λ x y, uid_of self x <=? uid_of self y) (normalUserList self))
              _ u e1 (Hg "") He1 H1) as (e2 & He2 & H2).
  exact (lookup_alter_all_pres (with_pw_shell "/sbin/nologin") (same_account e)
           (softwareUserList self) _ u e2 (Hs "/sbin/nologin") He2 H2).
Qed.

(** When [_fixate] returns, every passwd record and every group record is
    still there and no record has been added; a passwd record differs from
    the one before at most in comment and shell, a group record at most in
    its member field, which still names the members other than [root] in
    their order; the normal users are the same, reordered, and the other
    user lists are as before. *)
Theorem _fixate_keeps_records (self self' : PasswdGroupShadow) :
  _fixate self = (Return tt, self') →
  (∀ u, option_Forall2 same_account (pwdDict self !! u) (pwdDict self' !! u))
  ∧ (∀ g, option_Forall2 same_group (grpDict self !! g) (grpDict self' !! g))
  ∧ normalUserList self' ≡ₚ normalUserList self
  ∧ softwareUserList self' = softwareUserList self
  ∧ deprecatedUserList self' = deprecatedUserList self.
Proof.
  intros Hfix. apply _fixate_Return in Hfix as [-> _].
  split; [|split; [|split; [|split]]].
  - intros u. destruct (pwdDict self !! u) as [e|] eqn:He.
    + destruct (same_account_fixated self u e He) as (e' & -> & Hsame).
      by constructor.
    + rewrite fixated_pwd_None by done. constructor.
  - intros g. rewrite fixated_grp_lookup.
    destruct (grpDict self !! g) as [e|]; cbn; constructor.
    apply same_group_fixated.
  - unfold fixated. proj_simpl. apply sort_le_perm.
  - reflexivity.
  - reflexivity.
Qed.

Lemma _fixate_keeps_records_witness :
  (∀ u, option_Forall2 same_account (pwdDict sample !! u)
          (pwdDict (_fixate sample).2 !! u))
  ∧ (∀ g, option_Forall2 same_group (grpDict sample !! g)
            (grpDict (_fixate sample).2 !! g))
  ∧ normalUserList (_fixate sample).2 ≡ₚ normalUserList sample
  ∧ softwareUserList (_fixate sample).2 = softwareUserList sample
  ∧ deprecatedUserList (_fixate sample).2 = deprecatedUserList sample.
Proof.
  apply _fixate_keeps_records. vm_compute. reflexivity.
Defined.
(** ** Adding a user and removing it again *)

Lemma scrub_member_empty (username : string) (e : _GrpEntry) :
  gr_mem e = "" → scrub_member username e = e.
Proof. intros Hm. unfold scrub_member. by rewrite Hm. Qed.

Section AddRemove.
Context `{Externals}.

(** On an open object in which [username] occurs nowhere, a call of
    [addNormalUser] that returns is undone by [removeNormalUser]: the
    object is again what it was. *)
Theorem add_then_remove_restores (self self' : PasswdGroupShadow)
    (username password : string) :
  user_absent self username →
  shDict self !! username = None →
  subUidDict self !! username = None →
  subGidDict self !! username = None →
  secondaryGroupsDict self !! username = None →
  addNormalUser username password self = (Return tt, self') →
  removeNormalUser username self' = (Return tt, self).
Proof.
  intros (Hn & Hp & Hsh & Hu & Hg & Hmem) Hshd Hsud Hsgd Hidx Hadd.
  unfold addNormalUser in Hadd. munfold.
  destruct (valid self) eqn:Hvalid; munfold; [|discriminate Hadd].
  destruct (pwdDict self !! username) as [?|] eqn:Hpw.
  { rewrite bool_decide_eq_true_2 in Hadd by (by eexists). discriminate Hadd. }
  rewrite bool_decide_eq_false_2 in Hadd by (by intros [? ?]). munfold.
  destruct (grpDict self !! username) as [?|] eqn:Hgr.
  { rewrite bool_decide_eq_true_2 in Hadd by (by eexists). discriminate Hadd. }
  rewrite bool_decide_eq_false_2 in Hadd by (by intros [? ?]). munfold.
  destruct (addNormalUser_newUid _ self 1000) as [newUid|?]; munfold;
    [|discriminate Hadd].
  destruct (encrypt password) as [encpwd|?] eqn:Hhash; munfold;
    [|discriminate Hadd].
  cbv zeta in Hadd. injection Hadd as <-.
  assert (Hlast : ∀ l : list string, username ∉ l →
            Py.mem username (l ++ [username]) = true
            ∧ Py.remove username (l ++ [username]) = l).
  { intros l Hl. split; [|by apply remove_app_last].
    apply mem_true, elem_of_app. right. apply list_elem_of_here. }
  destruct (Hlast _ Hn) as [Hn1 Hn2]. destruct (Hlast _ Hp) as [Hp1 Hp2].
  destruct (Hlast _ Hsh) as [Hsh1 Hsh2]. destruct (Hlast _ Hu) as [Hu1 Hu2].
  destruct (Hlast _ Hg) as [Hg1 Hg2].
  assert (Hgrp : ∀ e, gr_mem e = "" →
            scrub_member username <$> <[username := e]> (grpDict self)
            = <[username := e]> (grpDict self)).
  { intros e He. rewrite fmap_insert, scrub_member_empty by done. f_equal.
    apply fmap_same. intros k e' Hk. unfold scrub_member.
    specialize (Hmem k e' Hk). cbn in Hmem. apply mem_false in Hmem.
    by rewrite Hmem. }
  unfold removeNormalUser, delitem. munfold. proj_simpl. rewrite Hvalid. munfold.
  rewrite Hg1. munfold. proj_simpl. rewrite lookup_insert_eq. munfold. proj_simpl.
  rewrite Hu1. munfold. proj_simpl. rewrite lookup_insert_eq. munfold. proj_simpl.
  rewrite Hsh1. munfold. proj_simpl. rewrite lookup_insert_eq. munfold. proj_simpl.
  rewrite Hidx. rewrite bool_decide_eq_false_2 by (by intros [? ?]). munfold. proj_simpl.
  rewrite Hgrp by reflexivity.
  rewrite Hp1. munfold. proj_simpl. rewrite lookup_insert_eq. munfold. proj_simpl.
  rewrite Hn1. munfold. proj_simpl. rewrite lookup_insert_eq. munfold. proj_simpl.
  f_equal. apply PasswdGroupShadow_ext; proj_simpl; try reflexivity; try assumption.
  all: by rewrite delete_insert_id.
Qed.
End AddRemove.

Lemma add_then_remove_restores_witness :
  removeNormalUser "carol" (@addNormalUser demo "carol" "secret" sample).2
  = (Return tt, sample).
Proof.
  apply (@add_then_remove_restores demo sample _ "carol" "secret").
  - apply (by_computation (user_absent sample "carol")). vm_compute. reflexivity.
  - vm_compute. reflexivity.
  - vm_compute. reflexivity.
  - vm_compute. reflexivity.
  - vm_compute. reflexivity.
  - vm_compute. reflexivity.
Defined.

(** ** Adding a user keeps stage 1 *)

Section AddStage1.
Context `{Externals}.

Lemma normal_user_ok_ext self self' (u : string) :
  pwdDict self' !! u = pwdDict self !! u →
  grpDict self' !! u = grpDict self !! u →
  shDict self' !! u = shDict self !! u →
  defs self' = defs self →
  normal_user_ok self u → normal_user_ok self' u.
Proof.
  intros Hp Hg Hs Hd (pw & gr & sh & ? & ? & ? & ? & ? & ?).
  exists pw, gr, sh. rewrite Hp, Hg, Hs, Hd. tauto.
Qed.

(** An object that passes stage 1 still passes it after [addNormalUser]
    has returned, when the range of normal users configured in login.defs
    covers the range [1000, 10000) the new uid is taken from and the hash
    of the password is longer than four characters. *)
Theorem addNormalUser_keeps_stage1 (self self' : PasswdGroupShadow)
    (username password : string) :
  stage1_ok self →
  uidMin (defs self) ≤ 1000 →
  10000 ≤ uidMax (defs self) →
  (∀ encpwd, encrypt password = Return encpwd →
             (4 < String.length encpwd)%nat) →
  addNormalUser username password self = (Return tt, self') →
  stage1_ok self'.
Proof.
  intros [Hsys Hsyssh Hnormal Hsysg Hper Hsa] Hlo Hhi Hlen Hadd.
  pose proof (addNormalUser_newUid_spec self (Z.to_nat 9001) 1000 ltac:(lia)) as Hloop.
  unfold addNormalUser in Hadd. munfold.
  destruct (valid self) eqn:Hvalid; munfold; [|discriminate Hadd].
  destruct (pwdDict self !! username) as [?|] eqn:Hpw.
  { rewrite bool_decide_eq_true_2 in Hadd by (by eexists). discriminate Hadd. }
  rewrite bool_decide_eq_false_2 in Hadd by (by intros [? ?]). munfold.
  destruct (grpDict self !! username) as [?|] eqn:Hgr.
  { rewrite bool_decide_eq_true_2 in Hadd by (by eexists). discriminate Hadd. }
  rewrite bool_decide_eq_false_2 in Hadd by (by intros [? ?]). munfold.
  destruct (addNormalUser_newUid _ self 1000) as [newUid|?]; munfold;
    [|discriminate Hadd].
  destruct (encrypt password) as [encpwd|?] eqn:Hhash; munfold;
    [|discriminate Hadd].
  destruct Hloop as (Hrange & _ & _).
  specialize (Hlen encpwd eq_refl).
  cbv zeta in Hadd. injection Hadd as <-.
  split; proj_simpl.
  - exact Hsys.
  - eapply Forall_impl; [exact Hsyssh|]. intros u [sh Hu].
    destruct (decide (username = u)) as [->|Hne].
    + rewrite lookup_insert_eq. by eexists.
    + rewrite lookup_insert_ne by done. by eexists.
  - apply Forall_app. split.
    + apply Forall_forall. intros u Hu.
      pose proof (proj1 (Forall_forall _ _) Hnormal u Hu) as Hok.
      assert (Hne : username ≠ u).
      { intros ->. destruct Hok as (pw & _ & _ & Hpw' & _). congruence. }
      eapply normal_user_ok_ext; [| | | |exact Hok]; proj_simpl;
        try reflexivity; by rewrite lookup_insert_ne.
    + apply Forall_singleton. eexists _, _, _. proj_simpl.
      rewrite !lookup_insert_eq. repeat split; cbn; try done; lia.
  - exact Hsysg.
  - apply set_eq_true. intros x. rewrite !elem_of_app.
    by rewrite (proj1 (set_eq_true _ _) Hper x).
  - eapply Forall_impl; [exact Hsa|]. intros g [[gr Hg] Hgid].
    assert (Hne : username ≠ g) by (intros ->; congruence).
    unfold gid_of in *. proj_simpl. rewrite lookup_insert_ne by done.
    split; [by eexists|done].
Qed.
End AddStage1.

Lemma addNormalUser_keeps_stage1_witness :
  stage1_ok (@addNormalUser demo "carol" "secret" sample).2.
Proof.
  apply (@addNormalUser_keeps_stage1 demo sample _ "carol" "secret").
  - apply _verifyStage1_Return. vm_compute. reflexivity.
  - vm_compute. discriminate.
  - vm_compute. discriminate.
  - intros encpwd [= <-]. vm_compute. lia.
  - vm_compute. reflexivity.
Defined.
(** ** Joining a group *)

Section Join.
Context `{Externals}.

(** What a join that returns has found. *)
Lemma join_Return_inv (self s1 : PasswdGroupShadow) (username groupname : string) :
  modifyNormalUser username MUSER_JOIN_GROUP [groupname] self = (Return tt, s1) →
  valid self = true
  ∧ Py.mem username (normalUserList self) = true
  ∧ Py.mem groupname (joinable self) = true
  ∧ is_Some (grpDict self !! groupname).
Proof.
  unfold modifyNormalUser, getitem, joinable. munfold. intros H0.
  destruct (valid self); munfold; [|discriminate H0].
  destruct (Py.mem username (normalUserList self)); munfold; [|discriminate H0].
  change (MUSER_JOIN_GROUP =? MUSER_SET_PASSWORD) with false in H0.
  change (MUSER_JOIN_GROUP =? MUSER_SET_SHELL) with false in H0.
  change (MUSER_JOIN_GROUP =? MUSER_JOIN_GROUP) with true in H0.
  cbn [length Nat.eqb head default from_option id] in H0. munfold.
  destruct (Py.mem groupname _); munfold; [|discriminate H0].
  repeat split.
  destruct (grpDict self !! groupname) as [e|] eqn:He; [by eexists|]. exfalso.
  destruct (secondaryGroupsDict self !! username) as [glist|] eqn:Hidx.
  - rewrite bool_decide_eq_true_2 in H0 by eauto. cbn [negb] in H0. munfold.
    rewrite Hidx in H0. munfold.
    destruct (negb (Py.mem groupname glist)); munfold; proj_simpl;
      rewrite He in H0; discriminate H0.
  - rewrite bool_decide_eq_false_2 in H0 by (intros [? ?]; discriminate).
    cbn [negb] in H0. munfold. proj_simpl. rewrite lookup_insert_eq in H0. munfold.
    destruct (negb (Py.mem groupname [])); munfold; proj_simpl;
      rewrite He in H0; discriminate H0.
Qed.

(** The object a join leaves. *)
Lemma join_runs (self : PasswdGroupShadow) (username groupname : string)
    (e : _GrpEntry) :
  valid self = true →
  Py.mem username (normalUserList self) = true →
  Py.mem groupname (joinable self) = true →
  grpDict self !! groupname = Some e →
  let glist := default [] (secondaryGroupsDict self !! username) in
  let ulist := _nonEmptySplit (gr_mem e) comma in
  modifyNormalUser username MUSER_JOIN_GROUP [groupname] self
  = (Return tt,
     set_grpDict
       (λ d, if Py.mem username ulist then d
             else <[groupname := with_gr_mem (Py.join "," (ulist ++ [username])) e]> d)
       (set_secondaryGroupsDict
          (insert username (if Py.mem groupname glist then glist
                            else glist ++ [groupname])) self)).
Proof.
  intros Hvalid Hnormal Hjoin He glist ulist. unfold joinable in Hjoin.
  assert (Hsame : ∀ s, set_grpDict (λ d, d) s = s) by (by intros []).
  unfold modifyNormalUser. munfold. rewrite Hvalid. munfold.
  rewrite Hnormal. munfold.
  change (MUSER_JOIN_GROUP =? MUSER_SET_PASSWORD) with false.
  change (MUSER_JOIN_GROUP =? MUSER_SET_SHELL) with false.
  change (MUSER_JOIN_GROUP =? MUSER_JOIN_GROUP) with true.
  cbn [length Nat.eqb head default from_option id]. munfold. rewrite Hjoin. munfold.
  unfold glist, getitem.
  destruct (secondaryGroupsDict self !! username) as [gl|] eqn:Hgl;
    cbn [default from_option id].
  - rewrite bool_decide_eq_true_2 by eauto. cbn [negb]. munfold. rewrite Hgl. munfold.
    destruct (Py.mem groupname gl); cbn [negb]; munfold; proj_simpl; rewrite He;
      munfold; fold ulist; destruct (Py.mem username ulist); cbn [negb];
      rewrite ?Hsame; try reflexivity.
    all: f_equal; apply PasswdGroupShadow_ext; proj_simpl; try reflexivity.
    all: symmetry; by apply insert_id.
  - rewrite bool_decide_eq_false_2 by (intros [? ?]; discriminate). cbn [negb].
    munfold. proj_simpl. rewrite lookup_insert_eq. munfold.
    replace (Py.mem groupname []) with false
      by (symmetry; apply mem_false, not_elem_of_nil).
    cbn [negb app]. munfold. proj_simpl. rewrite He. munfold. fold ulist.
    destruct (Py.mem username ulist); cbn [negb]; rewrite ?Hsame.
    all: f_equal; apply PasswdGroupShadow_ext; proj_simpl; try reflexivity.
    all: by apply insert_insert_eq.
Qed.

(** A join that returns has made the membership visible on both sides, in
    the index entry of the user and in the member field of the group, and
    joining once more changes nothing.  The user name must be one a member
    field can hold. *)
Theorem join_group_idempotent (self s1 : PasswdGroupShadow)
    (username groupname : string) :
  token username →
  modifyNormalUser username MUSER_JOIN_GROUP [groupname] self = (Return tt, s1) →
  groupname ∈ secondary_groups s1 username
  ∧ (∃ l, members s1 groupname = Some l ∧ username ∈ l)
  ∧ modifyNormalUser username MUSER_JOIN_GROUP [groupname] s1 = (Return tt, s1).
Proof.
  intros Htok Hrun.
  destruct (join_Return_inv _ _ _ _ Hrun) as (Hvalid & Hnormal & Hjoin & [e He]).
  rewrite (join_runs self username groupname e Hvalid Hnormal Hjoin He) in Hrun.
  cbv zeta in Hrun. injection Hrun as <-.
  set (glist := default [] (secondaryGroupsDict self !! username)).
  set (ulist := _nonEmptySplit (gr_mem e) comma).
  set (glist' := if Py.mem groupname glist then glist else glist ++ [groupname]).
  set (s1 := set_grpDict _ _).
  assert (Hback : _nonEmptySplit (Py.join "," (ulist ++ [username])) comma
                  = ulist ++ [username]).
  { apply nonEmptySplit_join, Forall_app. split; [apply nonEmptySplit_tokens|].
    by apply Forall_singleton. }
  assert (Hg' : Py.mem groupname glist' = true).
  { unfold glist'. destruct (Py.mem groupname glist) eqn:Hm; [done|].
    apply mem_true, elem_of_app. right. apply list_elem_of_here. }
  assert (Hidx : secondaryGroupsDict s1 !! username = Some glist').
  { unfold s1. proj_simpl. apply lookup_insert_eq. }
  assert (He1 : ∃ e1, grpDict s1 !! groupname = Some e1
                  ∧ Py.mem username (_nonEmptySplit (gr_mem e1) comma) = true).
  { unfold s1. proj_simpl. fold ulist.
    destruct (Py.mem username ulist) eqn:Hm.
    - exists e. by split.
    - eexists. split; [apply lookup_insert_eq|]. cbn [gr_mem with_gr_mem].
      rewrite Hback. apply mem_true, elem_of_app. right. apply list_elem_of_here. }
  destruct He1 as (e1 & He1 & Hu1).
  split; [|split].
  - unfold secondary_groups. rewrite Hidx. by apply mem_true.
  - unfold members. rewrite He1. eexists. split; [reflexivity|]. by apply mem_true.
  - rewrite (join_runs s1 username groupname e1); try done.
    cbv zeta. rewrite Hidx. cbn [default from_option id]. rewrite Hg', Hu1.
    f_equal. apply PasswdGroupShadow_ext; proj_simpl; try reflexivity.
    by apply insert_id.
Qed.
End Join.

Lemma join_group_idempotent_witness :
  "audio" ∈ secondary_groups
              (@modifyNormalUser demo "alice" MUSER_JOIN_GROUP ["audio"] sample).2
              "alice"
  ∧ (∃ l, members (@modifyNormalUser demo "alice" MUSER_JOIN_GROUP ["audio"] sample).2
            "audio" = Some l ∧ "alice" ∈ l)
  ∧ @modifyNormalUser demo "alice" MUSER_JOIN_GROUP ["audio"]
      (@modifyNormalUser demo "alice" MUSER_JOIN_GROUP ["audio"] sample).2
    = (Return tt, (@modifyNormalUser demo "alice" MUSER_JOIN_GROUP ["audio"] sample).2).
Proof.
  apply (@join_group_idempotent demo sample).
  - split; [discriminate|reflexivity].
  - vm_compute. reflexivity.
Defined.
(** ** The subordinate-id ranges handed out *)

Lemma foldl_max_ge (vals : list _SubUidGidEntry) (m : Z) :
  let r := foldl (λ m obj, Z.max (start obj + count obj) m) m vals in
  m ≤ r ∧ ∀ o, o ∈ vals → start o + count o ≤ r.
Proof.
  revert m. induction vals as [|obj vals IH]; intros m; cbn [foldl].
  - split; [lia|]. by intros o ?%elem_of_nil.
  - destruct (IH (Z.max (start obj + count obj) m)) as [Hm Hall].
    split; [lia|]. intros o [->|Ho]%elem_of_cons; [lia|by apply Hall].
Qed.

Lemma subid_next_ge (lo : Z) (d : gmap string _SubUidGidEntry) :
  lo ≤ subid_next lo d
  ∧ ∀ k o, d !! k = Some o → start o + count o ≤ subid_next lo d.
Proof.
  unfold subid_next. destruct (foldl_max_ge (Py.values d) lo) as [Hlo Hall].
  split; [done|]. intros k o Hk. apply Hall. apply elem_of_values. by eauto.
Qed.

Lemma foldl_max_attained (vals : list _SubUidGidEntry) (m : Z) :
  let r := foldl (λ m obj, Z.max (start obj + count obj) m) m vals in
  r = m ∨ ∃ o, o ∈ vals ∧ r = start o + count o.
Proof.
  revert m. induction vals as [|obj vals IH]; intros m; cbn [foldl]; [by left|].
  destruct (IH (Z.max (start obj + count obj) m)) as [Hr|(o & Ho & Hr)].
  - cbv zeta in Hr. rewrite Hr.
    destruct (Z.max_spec (start obj + count obj) m) as [[_ ->]|[_ ->]];
      [by left|].
    right. exists obj. split; [apply list_elem_of_here|done].
  - right. exists o. split; [by apply list_elem_of_further|done].
Qed.

Lemma subid_next_attained (lo : Z) (d : gmap string _SubUidGidEntry) :
  subid_next lo d = lo
  ∨ ∃ k o, d !! k = Some o ∧ subid_next lo d = start o + count o.
Proof.
  unfold subid_next.
  destruct (foldl_max_attained (Py.values d) lo) as [Hr|(o & Ho & Hr)];
    [by left|].
  right. apply elem_of_values in Ho as [k Hk]. by exists k, o.
Qed.

Section AddSubid.
Context `{Externals}.

(** The two subordinate-id entries of a user [addNormalUser] has added
    start at the configured minimum or at the end of the highest range
    handed out so far, whichever is higher, and nowhere else, and have the
    configured size; the entries of the other users are as before. *)
Theorem addNormalUser_fresh_ranges (self self' : PasswdGroupShadow)
    (username password : string) :
  addNormalUser username password self = (Return tt, self') →
  (∃ obj, subUidDict self' !! username = Some obj
          ∧ fresh_range (subUidMin (defs self)) (subUidCount (defs self))
              (subUidDict self) username obj)
  ∧ (∃ obj, subGidDict self' !! username = Some obj
            ∧ fresh_range (subGidMin (defs self)) (subGidCount (defs self))
                (subGidDict self) username obj)
  ∧ (∀ k, k ≠ username →
       subUidDict self' !! k = subUidDict self !! k
       ∧ subGidDict self' !! k = subGidDict self !! k).
Proof.
  intros Hadd. unfold addNormalUser in Hadd. munfold.
  destruct (valid self) eqn:Hvalid; munfold; [|discriminate Hadd].
  destruct (negb _); munfold; [|discriminate Hadd].
  destruct (negb _); munfold; [|discriminate Hadd].
  destruct (addNormalUser_newUid _ self 1000) as [newUid|?]; munfold;
    [|discriminate Hadd].
  destruct (encrypt password) as [encpwd|?] eqn:Hhash; munfold;
    [|discriminate Hadd].
  cbv zeta in Hadd. injection Hadd as <-. proj_simpl.
  destruct (subid_next_ge (subUidMin (defs self)) (subUidDict self)) as [Hu1 Hu2].
  destruct (subid_next_ge (subGidMin (defs self)) (subGidDict self)) as [Hg1 Hg2].
  split; [|split].
  - eexists. split; [apply lookup_insert_eq|].
    repeat split; try done. apply subid_next_attained.
  - eexists. split; [apply lookup_insert_eq|].
    repeat split; try done. apply subid_next_attained.
  - intros k Hk. by rewrite !lookup_insert_ne.
Qed.
End AddSubid.

Lemma addNormalUser_fresh_ranges_witness :
  let self' := (@addNormalUser demo "carol" "secret" sample).2 in
  (∃ obj, subUidDict self' !! "carol" = Some obj
          ∧ fresh_range (subUidMin (defs sample)) (subUidCount (defs sample))
              (subUidDict sample) "carol" obj)
  ∧ (∃ obj, subGidDict self' !! "carol" = Some obj
            ∧ fresh_range (subGidMin (defs sample)) (subGidCount (defs sample))
                (subGidDict sample) "carol" obj)
  ∧ (∀ k, k ≠ "carol" →
       subUidDict self' !! k = subUidDict sample !! k
       ∧ subGidDict self' !! k = subGidDict sample !! k).
Proof.
  apply (@addNormalUser_fresh_ranges demo sample _ "carol" "secret").
  vm_compute. reflexivity.
Defined.

(** ** The ranges [_fixate] adds *)

Lemma add_missing_keeps (hi cnt : Z) (l : list string) (m : Z)
    (d : gmap string _SubUidGidEntry) (k : string) (o : _SubUidGidEntry) :
  d !! k = Some o → (add_missing hi cnt l m d).2 !! k = Some o.
Proof.
  revert m d. induction l as [|u l IH]; intros m d Hk; cbn [add_missing]; [done|].
  unfold haskey. destruct (bool_decide (is_Some (d !! u))) eqn:Hu; [by apply IH|].
  destruct (m <? hi); [|done]. apply IH.
  apply bool_decide_eq_false in Hu.
  rewrite lookup_insert_ne; [done|]. intros ->. apply Hu. by eexists.
Qed.

Lemma add_missing_apart (hi cnt : Z) (l : list string) (m : Z)
    (d : gmap string _SubUidGidEntry) :
  0 ≤ cnt →
  (∀ k o, d !! k = Some o → start o + count o ≤ m) →
  ∀ k1 o1, d !! k1 = None → (add_missing hi cnt l m d).2 !! k1 = Some o1 →
    m ≤ start o1 ∧ count o1 = cnt
    ∧ ∀ k2 o2, k2 ≠ k1 → (add_missing hi cnt l m d).2 !! k2 = Some o2 →
        ranges_apart o1 o2.
Proof.
  intros Hcnt. revert m d. induction l as [|u l IH]; intros m d Hends k1 o1 Hnone Hk1.
  { cbn in Hk1. congruence. }
  cbn [add_missing] in *. unfold haskey in *.
  destruct (bool_decide (is_Some (d !! u))) eqn:Hu; [by apply IH|].
  apply bool_decide_eq_false in Hu.
  destruct (m <? hi) eqn:Hhi; [|cbn in Hk1; congruence].
  set (e := mk_SubUidGidEntry u m cnt) in *.
  assert (Hends' : ∀ k o, <[u := e]> d !! k = Some o → start o + count o ≤ m + cnt).
  { intros k o. destruct (decide (u = k)) as [->|Hne].
    - rewrite lookup_insert_eq. intros [= <-]. cbn. lia.
    - rewrite lookup_insert_ne by done. intros Hk. specialize (Hends k o Hk). lia. }
  specialize (IH (m + cnt) (<[u := e]> d) Hends').
  destruct (decide (u = k1)) as [->|Hne].
  - assert (o1 = e) as ->.
    { pose proof (add_missing_keeps hi cnt l (m + cnt) (<[k1 := e]> d) k1 e
                    (lookup_insert_eq _ _ _)) as Hkeep. congruence. }
    split; [cbn; lia|]. split; [done|].
    intros k2 o2 Hk2 Ho2.
    destruct (d !! k2) as [o|] eqn:Hd2.
    + pose proof (add_missing_keeps hi cnt l (m + cnt) (<[k1 := e]> d) k2 o) as Hkeep.
      rewrite lookup_insert_ne in Hkeep by done. specialize (Hkeep Hd2).
      assert (o2 = o) as -> by congruence.
      right. specialize (Hends k2 o Hd2). cbn. lia.
    + destruct (IH k2 o2) as (Hstart & _ & _); [by rewrite lookup_insert_ne|done|].
      left. cbn. lia.
  - destruct (IH k1 o1) as (Hstart & Hc & Hapart); [by rewrite lookup_insert_ne|done|].
    split; [lia|]. split; [done|]. exact Hapart.
Qed.

Lemma fixated_added_apart (lo hi cnt : Z) (subs : list string)
    (d : gmap string _SubUidGidEntry) :
  0 ≤ cnt →
  added_apart lo cnt d
    (add_missing hi cnt subs (subid_next lo (drop_redundant subs d))
       (drop_redundant subs d)).2.
Proof.
  intros Hcnt u obj Hnone Hobj.
  set (d0 := drop_redundant subs d) in *.
  destruct (subid_next_ge lo d0) as [Hlo Hends].
  assert (Hnone0 : d0 !! u = None).
  { destruct (d0 !! u) as [o|] eqn:Hd; [|done].
    apply lookup_drop_redundant in Hd as [Hd _]. congruence. }
  destruct (add_missing_apart _ _ subs _ d0 Hcnt Hends u obj Hnone0 Hobj)
    as (Hstart & Hc & Hapart).
  split; [lia|]. split; [done|]. exact Hapart.
Qed.

(** A subordinate-id range [_fixate] adds for a user that had none meets
    no range of another user that is in the table afterwards, be it kept
    or added; it has the configured size and starts at the configured
    minimum or above.  This holds for the uid ranges and for the gid
    ranges. *)
Theorem _fixate_adds_ranges_apart (self self' : PasswdGroupShadow) :
  _fixate self = (Return tt, self') →
  0 ≤ subUidCount (defs self) →
  0 ≤ subGidCount (defs self) →
  added_apart (subUidMin (defs self)) (subUidCount (defs self))
    (subUidDict self) (subUidDict self')
  ∧ added_apart (subGidMin (defs self)) (subGidCount (defs self))
      (subGidDict self) (subGidDict self').
Proof.
  intros Hfix Hu Hg. apply _fixate_Return in Hfix as [-> _].
  unfold fixated. proj_simpl. split; by apply fixated_added_apart.
Qed.

Lemma _fixate_adds_ranges_apart_witness :
  added_apart (subUidMin (defs sample)) (subUidCount (defs sample))
    (subUidDict sample) (subUidDict (_fixate sample).2)
  ∧ added_apart (subGidMin (defs sample)) (subGidCount (defs sample))
      (subGidDict sample) (subGidDict (_fixate sample).2).
Proof.
  apply _fixate_adds_ranges_apart.
  - vm_compute. reflexivity.
  - vm_compute. discriminate.
  - vm_compute. discriminate.
Defined.
(** ** Decimal numbers *)

Lemma digits_string_of_uint (d : Decimal.uint) (acc : Z) :
  0 ≤ acc →
  digits acc (NilEmpty.string_of_uint d)
  = Some match acc with
         | Z.pos p => Z.pos (Pos.of_uint_acc d p)
         | _ => Z.of_N (Pos.of_uint d)
         end.
Proof.
  revert acc. induction d as [|d IH|d IH|d IH|d IH|d IH|d IH|d IH|d IH|d IH|d IH];
    intros acc Hacc; cbn [NilEmpty.string_of_uint digits];
    [by destruct acc| | | | | | | | | |].
  all: match goal with
       | |- context [digit ?c] =>
           let v := eval vm_compute in (digit c) in change (digit c) with v
       end.
  all: cbv beta iota; rewrite IH by lia; destruct acc as [|p|p]; try lia;
    [reflexivity|].
  all: cbn [Z.mul Z.add Pos.of_uint_acc]; try reflexivity.
  all: do 3 f_equal; apply Pos.add_comm.
Qed.

Lemma string_of_uint_head (d : Decimal.uint) :
  d ≠ Decimal.Nil →
  ∃ c s, NilEmpty.string_of_uint d = String c s ∧ Ascii.eqb c "-" = false.
Proof. destruct d; [done|..]; intros _; cbn; by eauto. Qed.

Lemma to_uint_not_Nil (p : positive) : Pos.to_uint p ≠ Decimal.Nil.
Proof.
  intros Hnil. pose proof (DecimalPos.Unsigned.of_to p) as Hp.
  rewrite Hnil in Hp. discriminate Hp.
Qed.

(** The instance [demo] reads back what ["%d"] prints. *)
Lemma int_decimal_fmt_d (z : Z) : int_decimal (fmt_d z) = Some z.
Proof.
  unfold fmt_d. destruct z as [|p|p]; [reflexivity| |].
  - cbn [Z.to_int NilZero.string_of_int]. unfold NilZero.string_of_uint.
    pose proof (to_uint_not_Nil p) as Hne.
    destruct (string_of_uint_head _ Hne) as (c & s & Hs & Hc).
    destruct (Pos.to_uint p) eqn:Hu; [done|..].
    all: rewrite <- Hu in *; unfold int_decimal; rewrite Hs, Hc, <- Hs.
    all: rewrite digits_string_of_uint by lia.
    all: by rewrite DecimalPos.Unsigned.of_to.
  - cbn [Z.to_int NilZero.string_of_int]. unfold NilZero.string_of_uint.
    pose proof (to_uint_not_Nil p) as Hne.
    destruct (string_of_uint_head _ Hne) as (c & s & Hs & Hc).
    destruct (Pos.to_uint p) eqn:Hu; [done|..].
    all: rewrite <- Hu in *; unfold int_decimal.
    all: change (Ascii.eqb "-" "-") with true; cbv iota.
    all: rewrite Hs, <- Hs, digits_string_of_uint by lia.
    all: by rewrite DecimalPos.Unsigned.of_to.
Qed.

Lemma demo_int_reads_fmt_d : @int_reads_fmt_d demo.
Proof. exact int_decimal_fmt_d. Qed.
(** ** Text files: lines and fields *)

Lemma append_assoc (a b c : string) : (a +:+ b) +:+ c = a +:+ (b +:+ c).
Proof.
  induction a as [|x a IH]; [done|]. rewrite !append_cons_l. by rewrite IH.
Qed.

Lemma append_nil_r (a : string) : a +:+ "" = a.
Proof. induction a as [|x a IH]; [done|]. rewrite append_cons_l. by rewrite IH. Qed.

Lemma unlines_app (l1 l2 : list string) :
  unlines (l1 ++ l2) = unlines l1 +:+ unlines l2.
Proof.
  induction l1 as [|x l1 IH]; [done|].
  cbn [app unlines foldr]. fold (unlines (l1 ++ l2)). fold (unlines l1).
  rewrite IH. rewrite append_assoc. f_equal.
Qed.

Lemma split_unlines (ls : list string) :
  Forall (λ x, contains newline x = false) ls →
  Py.split newline (unlines ls) = ls ++ [""].
Proof.
  induction 1 as [|x ls Hx Hls IH]; [done|].
  cbn [unlines foldr]. fold (unlines ls). rewrite split_app by done. by rewrite IH.
Qed.

Lemma contains_app (c : ascii) (a b : string) :
  contains c (a +:+ b) = contains c a || contains c b.
Proof.
  induction a as [|x a IH]; [done|].
  rewrite append_cons_l. cbn [contains]. rewrite IH. by rewrite orb_assoc.
Qed.

(** The fields of a line. *)
Lemma split_fields (c : ascii) (fields : list string) (last : string) :
  Forall (λ x, contains c x = false) fields →
  contains c last = false →
  Py.split c (foldr (λ x acc, x +:+ String c acc) last fields) = fields ++ [last].
Proof.
  intros Hall Hlast. induction Hall as [|x l Hx Hl IH]; cbn [foldr app].
  - by apply split_free.
  - rewrite split_app by done. by rewrite IH.
Qed.

Lemma plain_colon (s : string) : plain s = true → contains colon s = false.
Proof. unfold plain. intros [H1 H2]%andb_true_iff. by apply negb_true_iff. Qed.

Lemma plain_one_line (s : string) : plain s = true → one_line s = true.
Proof. unfold plain. by intros [H1 H2]%andb_true_iff. Qed.

Lemma one_line_app (a b : string) : one_line (a +:+ b) = one_line a && one_line b.
Proof.
  unfold one_line. rewrite !contains_app.
  destruct (contains newline a), (contains newline b),
    (contains carriage_return a), (contains carriage_return b); reflexivity.
Qed.

(** ** Reading in text mode *)

(** A text without carriage return is read as it is. *)
Lemma universal_newlines_id (s : string) :
  contains carriage_return s = false → universal_newlines s = s.
Proof.
  induction s as [|c s IH]; [done|].
  cbn [contains universal_newlines]. intros [Hc Hs]%orb_false_iff.
  rewrite Hc. by rewrite IH.
Qed.

Lemma contains_unlines (c : ascii) (ls : list string) :
  c ≠ newline →
  Forall (λ x, contains c x = false) ls → contains c (unlines ls) = false.
Proof.
  intros Hc. induction 1 as [|x ls Hx Hls IH]; [done|].
  cbn [unlines foldr]. fold (unlines ls). rewrite contains_app, Hx.
  cbn [contains orb]. rewrite IH, orb_false_r. apply Ascii.eqb_neq. congruence.
Qed.

(** The lines of a written file, read back. *)
Lemma read_unlines (ls : list string) :
  Forall (λ x, one_line x = true) ls →
  Py.split newline (universal_newlines (unlines ls)) = ls ++ [""].
Proof.
  intros Hls.
  assert (Hboth : Forall (λ x, contains newline x = false) ls
                  ∧ Forall (λ x, contains carriage_return x = false) ls).
  { split; (eapply Forall_impl; [exact Hls|]); cbn; unfold one_line;
      intros x [H1 H2]%andb_true_iff; by apply negb_true_iff. }
  destruct Hboth as [Hlf Hcr].
  rewrite universal_newlines_id by (by apply contains_unlines).
  by apply split_unlines.
Qed.

(** ** The file a block of writes leaves *)

Lemma write_entries_ok {V} (to_str : V → string) (d : gmap string V)
    (l : list string) (es : list V) (buf : string) :
  Forall2 (λ u e, d !! u = Some e) l es →
  write_entries to_str d l buf = (Return tt, buf +:+ unlines (to_str <$> es)).
Proof.
  intros Hall. revert buf. induction Hall as [|u e l es Hu Hl IH]; intros buf.
  - cbn. by rewrite append_nil_r.
  - unfold write_entries in *. cbn [wfor]. unfold wbind at 1.
    unfold wbind at 1, getitem. rewrite Hu. cbn [wlift]. unfold wret at 1.
    unfold wbind at 1, write at 1 2. rewrite IH.
    cbn [fmap list_fmap unlines foldr]. fold (unlines (to_str <$> es)).
    by rewrite !append_assoc.
Qed.

(** ** Loops over lines *)

Lemma for_app {A} (l1 l2 : list A) (body : A → M unit) self :
  for_ (l1 ++ l2) body self
  = match for_ l1 body self with
    | (Return _, self') => for_ l2 body self'
    | (Raise e, self') => (Raise e, self')
    end.
Proof.
  revert self. induction l1 as [|x l1 IH]; intros self; [done|].
  cbn [app for_]. unfold bind. destruct (body x self) as [[[]|e] s]; [apply IH|done].
Qed.

Lemma for_effect {A B} (line : A → B) (body : B → M unit)
    (eff : A → PasswdGroupShadow → PasswdGroupShadow) (P : PasswdGroupShadow → Prop)
    (l : list A) self :
  (∀ x s, x ∈ l → P s → body (line x) s = (Return tt, eff x s) ∧ P (eff x s)) →
  P self →
  for_ (line <$> l) body self = (Return tt, foldl (λ s x, eff x s) self l)
  ∧ P (foldl (λ s x, eff x s) self l).
Proof.
  revert self. induction l as [|x l IH]; intros self Hbody HP; [done|].
  cbn [fmap list_fmap for_ foldl]. unfold bind.
  destruct (Hbody x self (list_elem_of_here _ _) HP) as [-> HP'].
  apply IH; [|done]. intros y s Hy. apply Hbody. by apply list_elem_of_further.
Qed.

Lemma for_skip (body : string → M unit) (line : string) (rest : list string) self :
  skipped line = true →
  for_ (line :: rest) (λ line, if skipped line then ret tt else body line) self
  = for_ rest (λ line, if skipped line then ret tt else body line) self.
Proof. intros Hs. cbn [for_]. unfold bind. by rewrite Hs. Qed.

Lemma for_skip_last (body : string → M unit) (line : string) self :
  skipped line = true →
  for_ [line] (λ line, if skipped line then ret tt else body line) self
  = (Return tt, self).
Proof. intros Hs. by rewrite for_skip. Qed.
(** ** Folding a loop body over a list *)

Lemma foldl_proj_same {A B} (p : PasswdGroupShadow → B)
    (eff : A → PasswdGroupShadow → PasswdGroupShadow) (l : list A) self :
  (∀ x s, p (eff x s) = p s) → p (foldl (λ s x, eff x s) self l) = p self.
Proof.
  intros Hp. revert self. induction l as [|x l IH]; intros self; [done|].
  cbn [foldl]. by rewrite IH, Hp.
Qed.

Lemma foldl_proj_snoc {A} (p : PasswdGroupShadow → list string) (k : A → string)
    (eff : A → PasswdGroupShadow → PasswdGroupShadow) (l : list A) self :
  (∀ x s, p (eff x s) = p s ++ [k x]) →
  p (foldl (λ s x, eff x s) self l) = p self ++ (k <$> l).
Proof.
  intros Hp. revert self. induction l as [|x l IH]; intros self.
  - cbn. by rewrite app_nil_r.
  - cbn [foldl fmap list_fmap]. rewrite IH, Hp. by rewrite <- app_assoc.
Qed.

Lemma foldl_proj_insert {A V} (p : PasswdGroupShadow → gmap string V)
    (k : A → string) (v : A → V)
    (eff : A → PasswdGroupShadow → PasswdGroupShadow) (l : list A) self :
  (∀ x s, p (eff x s) = <[k x := v x]> (p s)) →
  p (foldl (λ s x, eff x s) self l) = foldl (λ d x, <[k x := v x]> d) (p self) l.
Proof.
  intros Hp. revert self. induction l as [|x l IH]; intros self; [done|].
  cbn [foldl]. by rewrite IH, Hp.
Qed.

Lemma lookup_foldl_insert_notin {A V} (k : A → string) (v : A → V) (l : list A)
    (d : gmap string V) (x : string) :
  x ∉ k <$> l → foldl (λ d y, <[k y := v y]> d) d l !! x = d !! x.
Proof.
  revert d. induction l as [|y l IH]; intros d Hx; [done|].
  cbn [foldl]. cbn [fmap list_fmap] in Hx. apply not_elem_of_cons in Hx as [Hne Hx].
  rewrite IH by done. by rewrite lookup_insert_ne.
Qed.

Lemma lookup_foldl_insert_in {A V} (k : A → string) (v : A → V) (l : list A)
    (d : gmap string V) (y : A) :
  y ∈ l → (∀ y', y' ∈ l → k y' = k y → v y' = v y) →
  foldl (λ d y, <[k y := v y]> d) d l !! k y = Some (v y).
Proof.
  revert d y. induction l as [|z l IH]; intros d y Hy Hsame.
  - by apply elem_of_nil in Hy.
  - cbn [foldl]. destruct (decide (k y ∈ k <$> l)) as [Hk|Hk].
    + apply list_elem_of_fmap in Hk as (y' & Hky & Hy').
      assert (Hv : v y' = v y) by (apply Hsame; [by apply list_elem_of_further|done]).
      rewrite Hky, <- Hv. apply IH; [done|].
      intros y'' Hy'' Hk''. rewrite Hv. apply Hsame; [by apply list_elem_of_further|].
      congruence.
    + apply elem_of_cons in Hy as [->|Hy].
      * rewrite lookup_foldl_insert_notin by done. apply lookup_insert_eq.
      * exfalso. apply Hk. apply list_elem_of_fmap. by exists y.
Qed.

Lemma lookup_all {V} (d : gmap string V) (l : list string) :
  Forall (λ u, is_Some (d !! u)) l → ∃ es, Forall2 (λ u e, d !! u = Some e) l es.
Proof.
  induction 1 as [|u l [e He] Hl [es Hes]]; [by exists []|].
  exists (e :: es). by constructor.
Qed.

(** The dictionary a parser rebuilds from the records of the listed names
    is the dictionary they were taken from, each record passed through
    [f], when every record is listed and stored under its own name. *)
Lemma foldl_insert_rebuilds {V} (key : V → string) (f : V → V)
    (d : gmap string V) (l : list string) (es : list V) :
  Forall2 (λ u e, d !! u = Some e) l es →
  (∀ u, is_Some (d !! u) → u ∈ l) →
  map_Forall (λ u e, key e = u) d →
  foldl (λ d' e, <[key e := f e]> d') ∅ es = f <$> d.
Proof.
  intros Hes Hlisted Hkeyed.
  assert (Hin : ∀ e, e ∈ es → d !! key e = Some e).
  { intros e He. apply list_elem_of_lookup in He as [i Hi].
    destruct (Forall2_lookup_r _ _ _ _ _ Hes Hi) as (u & Hu & Hd).
    by rewrite (Hkeyed u e Hd). }
  apply map_eq. intros x. rewrite lookup_fmap.
  destruct (d !! x) as [e|] eqn:Hx; cbn.
  - assert (He : e ∈ es).
    { assert (Hxl : x ∈ l) by (apply Hlisted; by eexists).
      apply list_elem_of_lookup in Hxl as [i Hi].
      destruct (Forall2_lookup_l _ _ _ _ _ Hes Hi) as (e' & He' & Hd).
      apply list_elem_of_lookup. exists i. congruence. }
    rewrite <- (Hkeyed x e Hx).
    apply (lookup_foldl_insert_in key f es ∅ e He).
    intros e' He' Hk. f_equal. apply Hin in He'. rewrite Hk in He'.
    rewrite (Hkeyed x e Hx), Hx in He'. congruence.
  - rewrite lookup_foldl_insert_notin; [apply lookup_empty|].
    intros (e & -> & He)%list_elem_of_fmap. apply Hin in He. congruence.
Qed.
(** ** Writing /etc/shadow and reading it back *)

Lemma skipped_manageFlag (msrc : string) : skipped (manageFlag msrc) = true.
Proof. reflexivity. Qed.

Lemma contains_manageFlag (msrc : string) :
  one_line msrc = true → one_line (manageFlag msrc) = true.
Proof. intros Hm. unfold manageFlag. rewrite one_line_app, Hm. reflexivity. Qed.

(** A line that starts with a name is skipped only for a name that starts
    with the comment sign. *)
Lemma skipped_line (u rest : string) :
  plain_name u = true → skipped (u +:+ String colon rest) = false.
Proof.
  unfold plain_name. intros [_ Hu%negb_true_iff]%andb_true_iff.
  unfold skipped. destruct u as [|c u]; [reflexivity|].
  rewrite append_cons_l. rewrite bool_decide_eq_false_2 by discriminate.
  cbn [orb]. unfold Py.startswith in *. cbn [String.prefix] in *.
  destruct (ascii_dec "#" c); [|done]. by destruct u.
Qed.






(** ** Writing /etc/passwd and reading it back *)

Lemma contains_string_of_uint (c : ascii) (d : Decimal.uint) :
  digit c = None → contains c (NilEmpty.string_of_uint d) = false.
Proof.
  intros Hc. induction d; cbn [NilEmpty.string_of_uint contains]; [done|..].
  all: rewrite IHd, orb_false_r; apply Ascii.eqb_neq; intros <-; discriminate Hc.
Qed.

Lemma contains_fmt_d (c : ascii) (z : Z) :
  digit c = None → c ≠ "-"%char → contains c (fmt_d z) = false.
Proof.
  intros Hc Hminus. unfold fmt_d.
  assert (Hu : ∀ d, contains c (NilZero.string_of_uint d) = false).
  { intros d. unfold NilZero.string_of_uint. destruct d;
      try (by apply contains_string_of_uint).
    change (Ascii.eqb "0" c || false = false).
    rewrite orb_false_r. apply Ascii.eqb_neq. intros <-. discriminate Hc. }
  destruct z; cbn [Z.to_int NilZero.string_of_int contains]; rewrite ?Hu; try done.
  rewrite orb_false_r. apply Ascii.eqb_neq. congruence.
Qed.

Lemma plain_fmt_d (z : Z) : plain (fmt_d z) = true.
Proof.
  unfold plain, one_line. by rewrite !contains_fmt_d.
Qed.

Lemma plain_of_name (u : string) : plain_name u = true → plain u = true.
Proof. unfold plain_name. by intros [? _]%andb_true_iff. Qed.

Lemma foldl_proj_same_in {A B} (p : PasswdGroupShadow → B)
    (eff : A → PasswdGroupShadow → PasswdGroupShadow) (l : list A) self :
  (∀ x s, x ∈ l → p (eff x s) = p s) → p (foldl (λ s x, eff x s) self l) = p self.
Proof.
  revert self. induction l as [|x l IH]; intros self Hp; [done|].
  cbn [foldl]. rewrite IH.
  - apply Hp, list_elem_of_here.
  - intros y s Hy. apply Hp. by apply list_elem_of_further.
Qed.

Lemma foldl_proj_snoc_in {A} (p : PasswdGroupShadow → list string) (k : A → string)
    (eff : A → PasswdGroupShadow → PasswdGroupShadow) (l : list A) self :
  (∀ x s, x ∈ l → p (eff x s) = p s ++ [k x]) →
  p (foldl (λ s x, eff x s) self l) = p self ++ (k <$> l).
Proof.
  revert self. induction l as [|x l IH]; intros self Hp.
  - cbn. by rewrite app_nil_r.
  - cbn [foldl fmap list_fmap]. rewrite IH.
    + rewrite Hp by apply list_elem_of_here. by rewrite <- app_assoc.
    + intros y s Hy. apply Hp. by apply list_elem_of_further.
Qed.

Lemma foldl_proj_insert_in {A V} (p : PasswdGroupShadow → gmap string V)
    (k : A → string) (v : A → V)
    (eff : A → PasswdGroupShadow → PasswdGroupShadow) (l : list A) self :
  (∀ x s, x ∈ l → p (eff x s) = <[k x := v x]> (p s)) →
  p (foldl (λ s x, eff x s) self l) = foldl (λ d x, <[k x := v x]> d) (p self) l.
Proof.
  revert self. induction l as [|x l IH]; intros self Hp; [done|].
  cbn [foldl]. rewrite IH.
  - by rewrite Hp by apply list_elem_of_here.
  - intros y s Hy. apply Hp. by apply list_elem_of_further.
Qed.

Lemma foldl_insert_app {A V} (k : A → string) (v : A → V) (l1 l2 : list A)
    (d : gmap string V) :
  foldl (λ d x, <[k x := v x]> d) (foldl (λ d x, <[k x := v x]> d) d l1) l2
  = foldl (λ d x, <[k x := v x]> d) d (l1 ++ l2).
Proof. by rewrite foldl_app. Qed.

Section PasswdRoundTrip.
Context `{Externals}.
Hypothesis int_fmt_d : int_reads_fmt_d.

Lemma _pwd2str_fields (e : _PwdEntry) :
  plain (pw_name e) = true → plain (pw_gecos e) = true →
  plain (pw_dir e) = true → plain (pw_shell e) = true →
  Py.split colon (_pwd2str e)
  = [pw_name e; "x"; fmt_d (pw_uid e); fmt_d (pw_gid e); pw_gecos e; pw_dir e;
     pw_shell e]
  ∧ one_line (_pwd2str e) = true.
Proof.
  intros Hn Hg Hd Hs. split.
  - change (_pwd2str e)
      with (foldr (λ x acc, x +:+ String colon acc) (pw_shell e)
              [pw_name e; "x"; fmt_d (pw_uid e); fmt_d (pw_gid e); pw_gecos e;
               pw_dir e]).
    rewrite split_fields; [done| |by apply plain_colon].
    repeat constructor; try (by apply plain_colon); by apply plain_colon, plain_fmt_d.
  - unfold _pwd2str. rewrite !one_line_app.
    rewrite (plain_one_line _ Hn), (plain_one_line _ Hg), (plain_one_line _ Hd),
      (plain_one_line _ Hs), !(plain_one_line _ (plain_fmt_d _)). reflexivity.
Qed.

(** One line of the passwd file, read back. *)
Lemma _parsePasswd_line (e : _PwdEntry) self :
  plain_name (pw_name e) = true → plain (pw_gecos e) = true →
  plain (pw_dir e) = true → plain (pw_shell e) = true →
  (if skipped (_pwd2str e) then ret tt
   else _parsePasswd_fields (Py.split colon (_pwd2str e))) self
  = (Return tt,
     set_user_list (user_category (defs self) (pw_name e) (pw_uid e))
       (λ l, l ++ [pw_name e])
       (set_pwdDict (insert (pw_name e) (with_pw_passwd "x" e)) self)).
Proof.
  intros Hn Hg Hd Hs. pose proof (plain_of_name _ Hn) as Hp.
  change (skipped (_pwd2str e))
    with (skipped (pw_name e +:+ String colon
            ("x" +:+ ":" +:+ fmt_d (pw_uid e) +:+ ":" +:+ fmt_d (pw_gid e) +:+ ":"
             +:+ pw_gecos e +:+ ":" +:+ pw_dir e +:+ ":" +:+ pw_shell e))).
  rewrite skipped_line by done.
  destruct (_pwd2str_fields e Hp Hg Hd Hs) as [-> _].
  unfold _parsePasswd_fields, _PwdEntry_init, int_, item. munfold.
  cbn [length Nat.eqb negb raise_if obind lookup list_lookup default from_option id].
  rewrite !int_fmt_d. cbn [obind]. proj_simpl.
  unfold user_category.
  destruct (Py.mem (pw_name e) _stdSystemUserList); [reflexivity|].
  destruct (_ && _); [reflexivity|].
  destruct (Py.mem (pw_name e) _stdDeprecatedUserList); reflexivity.
Qed.

Lemma passwd_body_ok (msrc : string) self (es1 es2 es3 es4 : list _PwdEntry) :
  Forall2 (λ u e, pwdDict self !! u = Some e) (systemUserList self) es1 →
  Forall2 (λ u e, pwdDict self !! u = Some e) (normalUserList self) es2 →
  Forall2 (λ u e, pwdDict self !! u = Some e) (softwareUserList self) es3 →
  Forall2 (λ u e, pwdDict self !! u = Some e) (deprecatedUserList self) es4 →
  passwd_body msrc self ""
  = (Return tt,
     unlines ([manageFlag msrc; ""] ++ (_pwd2str <$> es1) ++ [""]
              ++ (_pwd2str <$> es2) ++ [""] ++ (_pwd2str <$> es3) ++ [""]
              ++ (_pwd2str <$> es4))).
Proof.
  intros H1 H2 H3 H4. unfold passwd_body, wbind, write.
  rewrite (write_entries_ok _ _ _ es1) by done.
  rewrite (write_entries_ok _ _ _ es2) by done.
  rewrite (write_entries_ok _ _ _ es3) by done.
  rewrite (write_entries_ok _ _ _ es4) by done.
  rewrite !unlines_app, append_nil_l.
  change (unlines [""]) with (String newline "").
  change (unlines [manageFlag msrc; ""])
    with (manageFlag msrc +:+ String newline (String newline "")).
  rewrite !append_assoc. reflexivity.
Qed.

(** The records of the names of a list, and what is known of each. *)
Lemma listed_records (self : PasswdGroupShadow) (l : list string) (c : UserCategory) :
  map_Forall (λ u e, u ∈ all_users self ∧ pw_name e = u
                     ∧ plain_name u = true ∧ plain (pw_gecos e) = true
                     ∧ plain (pw_dir e) = true ∧ plain (pw_shell e) = true)
    (pwdDict self) →
  listed_in l (pwdDict self) →
  Forall (λ u, user_category (defs self) u (uid_of self u) = c) l →
  ∃ es, Forall2 (λ u e, pwdDict self !! u = Some e) l es
        ∧ pw_name <$> es = l
        ∧ ∀ e, e ∈ es →
            plain_name (pw_name e) = true ∧ plain (pw_gecos e) = true
            ∧ plain (pw_dir e) = true ∧ plain (pw_shell e) = true
            ∧ user_category (defs self) (pw_name e) (pw_uid e) = c.
Proof.
  intros Hclean Hl Hc. destruct (lookup_all _ _ Hl) as [es Hes]. exists es.
  split; [done|].
  assert (Hkey : ∀ u e, pwdDict self !! u = Some e →
            pw_name e = u ∧ plain_name (pw_name e) = true ∧ plain (pw_gecos e) = true
            ∧ plain (pw_dir e) = true ∧ plain (pw_shell e) = true).
  { intros u e Hu. destruct (Hclean u e Hu) as (_ & <- & ? & ? & ? & ?). done. }
  clear Hclean Hl. induction Hes as [|u e l es Hu Hes IH].
  - split; [done|]. by intros e ?%elem_of_nil.
  - apply Forall_cons in Hc as [Hcu Hc]. destruct (IH Hc) as [Hnames Hall].
    destruct (Hkey u e Hu) as (Hname & Hrest).
    split; [cbn; by rewrite Hnames, Hname|].
    intros e' [->|He']%elem_of_cons; [|by apply Hall].
    destruct Hrest as (? & ? & ? & ?). repeat split; try done.
    rewrite Hname. unfold uid_of in Hcu. by rewrite Hu in Hcu.
Qed.

(** The text [_writePasswd] writes, and what [_parsePasswd] makes of it. *)
Lemma passwd_written (msrc : string) (self : PasswdGroupShadow) :
  one_line msrc = true →
  passwd_writable self →
  ∃ buf, passwd_body msrc self "" = (Return tt, buf)
    ∧ ∀ s0, defs s0 = defs self → all_users s0 = [] → pwdDict s0 = ∅ →
        _parsePasswd (Some buf) s0
        = (Return tt,
           set_systemUserList (λ _, systemUserList self)
             (set_normalUserList (λ _, normalUserList self)
                (set_softwareUserList (λ _, softwareUserList self)
                   (set_deprecatedUserList (λ _, deprecatedUserList self)
                      (set_pwdDict (λ _, with_pw_passwd "x" <$> pwdDict self)
                         s0))))).
Proof.
  intros Hmsrc (Hlisted & Hclean & Hc1 & Hc2 & Hc3 & Hc4).
  unfold all_users in Hlisted. rewrite !listed_in_app in Hlisted.
  destruct Hlisted as (Hl1 & Hl2 & Hl3 & Hl4).
  destruct (listed_records self _ _ Hclean Hl1 Hc1) as (es1 & Hes1 & Hn1 & Hin1).
  destruct (listed_records self _ _ Hclean Hl2 Hc2) as (es2 & Hes2 & Hn2 & Hin2).
  destruct (listed_records self _ _ Hclean Hl3 Hc3) as (es3 & Hes3 & Hn3 & Hin3).
  destruct (listed_records self _ _ Hclean Hl4 Hc4) as (es4 & Hes4 & Hn4 & Hin4).
  eexists. split; [by apply (passwd_body_ok msrc self es1 es2 es3 es4)|].
  intros s0 Hdefs Hl0 Hd0.
  unfold all_users in Hl0.
  apply app_eq_nil in Hl0 as [Hs1 Hl0]. apply app_eq_nil in Hl0 as [Hs2 Hl0].
  apply app_eq_nil in Hl0 as [Hs3 Hs4].
  set (eff := λ (e : _PwdEntry) (s : PasswdGroupShadow),
         set_user_list (user_category (defs self) (pw_name e) (pw_uid e))
           (λ l, l ++ [pw_name e])
           (set_pwdDict (insert (pw_name e) (with_pw_passwd "x" e)) s)).
  assert (Heff : ∀ (es : list _PwdEntry) (c : UserCategory) s,
    (∀ e, e ∈ es →
       plain_name (pw_name e) = true ∧ plain (pw_gecos e) = true
       ∧ plain (pw_dir e) = true ∧ plain (pw_shell e) = true
       ∧ user_category (defs self) (pw_name e) (pw_uid e) = c) →
    defs s = defs self →
    for_ (_pwd2str <$> es)
      (λ line, if skipped line then ret tt
               else _parsePasswd_fields (Py.split colon line)) s
    = (Return tt, foldl (λ s e, eff e s) s es)
    ∧ defs (foldl (λ s e, eff e s) s es) = defs self).
  { intros es c s Hin Hs.
    apply (for_effect _pwd2str _ eff (λ s, defs s = defs self)); [|done].
    intros e s' He Hs'. destruct (Hin e He) as (? & ? & ? & ? & ?).
    rewrite _parsePasswd_line by done. rewrite Hs'. split; [reflexivity|].
    unfold eff. by destruct (user_category _ _ _). }
  unfold _parsePasswd, bind at 1. cbn [_readFile lift]. unfold ret at 1.
  rewrite read_unlines.
  2:{ rewrite !Forall_app. repeat split;
        try (repeat constructor; by apply contains_manageFlag).
      all: apply Forall_fmap, Forall_forall; intros e He; cbn.
      1: destruct (Hin1 e He) as (Hn & ? & ? & ? & _).
      2: destruct (Hin2 e He) as (Hn & ? & ? & ? & _).
      3: destruct (Hin3 e He) as (Hn & ? & ? & ? & _).
      4: destruct (Hin4 e He) as (Hn & ? & ? & ? & _).
      all: apply _pwd2str_fields; try done; by apply plain_of_name. }
  rewrite <- !app_assoc. cbn [app].
  rewrite for_skip by apply skipped_manageFlag. rewrite for_skip by reflexivity.
  rewrite for_app. destruct (Heff es1 _ s0 Hin1 Hdefs) as [-> Hd1].
  rewrite for_skip by reflexivity.
  rewrite for_app. destruct (Heff es2 _ _ Hin2 Hd1) as [-> Hd2].
  rewrite for_skip by reflexivity.
  rewrite for_app. destruct (Heff es3 _ _ Hin3 Hd2) as [-> Hd3].
  rewrite for_skip by reflexivity.
  rewrite for_app. destruct (Heff es4 _ _ Hin4 Hd3) as [-> Hd4].
  rewrite for_skip_last by reflexivity.
  rewrite <- !foldl_app.
  f_equal. apply PasswdGroupShadow_ext; proj_simpl.
  all: try (apply (foldl_proj_same _ eff); intros e s; unfold eff;
            by destruct (user_category _ _ _)).
  - (* systemUserList *)
    rewrite !foldl_app.
    rewrite (foldl_proj_same_in systemUserList eff es4)
      by (intros e s He; unfold eff; by destruct (Hin4 e He) as (_ & _ & _ & _ & ->)).
    rewrite (foldl_proj_same_in systemUserList eff es3)
      by (intros e s He; unfold eff; by destruct (Hin3 e He) as (_ & _ & _ & _ & ->)).
    rewrite (foldl_proj_same_in systemUserList eff es2)
      by (intros e s He; unfold eff; by destruct (Hin2 e He) as (_ & _ & _ & _ & ->)).
    rewrite (foldl_proj_snoc_in systemUserList pw_name eff es1)
      by (intros e s He; unfold eff; by destruct (Hin1 e He) as (_ & _ & _ & _ & ->)).
    by rewrite Hs1, Hn1.
  - (* normalUserList *)
    rewrite !foldl_app.
    rewrite (foldl_proj_same_in normalUserList eff es4)
      by (intros e s He; unfold eff; by destruct (Hin4 e He) as (_ & _ & _ & _ & ->)).
    rewrite (foldl_proj_same_in normalUserList eff es3)
      by (intros e s He; unfold eff; by destruct (Hin3 e He) as (_ & _ & _ & _ & ->)).
    rewrite (foldl_proj_snoc_in normalUserList pw_name eff es2)
      by (intros e s He; unfold eff; by destruct (Hin2 e He) as (_ & _ & _ & _ & ->)).
    rewrite (foldl_proj_same_in normalUserList eff es1)
      by (intros e s He; unfold eff; by destruct (Hin1 e He) as (_ & _ & _ & _ & ->)).
    by rewrite Hs2, Hn2.
  - (* softwareUserList *)
    rewrite !foldl_app.
    rewrite (foldl_proj_same_in softwareUserList eff es4)
      by (intros e s He; unfold eff; by destruct (Hin4 e He) as (_ & _ & _ & _ & ->)).
    rewrite (foldl_proj_snoc_in softwareUserList pw_name eff es3)
      by (intros e s He; unfold eff; by destruct (Hin3 e He) as (_ & _ & _ & _ & ->)).
    rewrite (foldl_proj_same_in softwareUserList eff es2)
      by (intros e s He; unfold eff; by destruct (Hin2 e He) as (_ & _ & _ & _ & ->)).
    rewrite (foldl_proj_same_in softwareUserList eff es1)
      by (intros e s He; unfold eff; by destruct (Hin1 e He) as (_ & _ & _ & _ & ->)).
    by rewrite Hs3, Hn3.
  - (* deprecatedUserList *)
    rewrite !foldl_app.
    rewrite (foldl_proj_snoc_in deprecatedUserList pw_name eff es4)
      by (intros e s He; unfold eff; by destruct (Hin4 e He) as (_ & _ & _ & _ & ->)).
    rewrite (foldl_proj_same_in deprecatedUserList eff es3)
      by (intros e s He; unfold eff; by destruct (Hin3 e He) as (_ & _ & _ & _ & ->)).
    rewrite (foldl_proj_same_in deprecatedUserList eff es2)
      by (intros e s He; unfold eff; by destruct (Hin2 e He) as (_ & _ & _ & _ & ->)).
    rewrite (foldl_proj_same_in deprecatedUserList eff es1)
      by (intros e s He; unfold eff; by destruct (Hin1 e He) as (_ & _ & _ & _ & ->)).
    by rewrite Hs4, Hn4.
  - (* pwdDict *)
    rewrite (foldl_proj_insert pwdDict pw_name (with_pw_passwd "x") eff)
      by (intros e s; unfold eff; by destruct (user_category _ _ _)).
    rewrite Hd0.
    apply (foldl_insert_rebuilds pw_name (with_pw_passwd "x") (pwdDict self)
             (all_users self)).
    + unfold all_users. repeat apply Forall2_app; done.
    + intros u [e Hu]. by destruct (Hclean u e Hu) as (? & _).
    + intros u e Hu. by destruct (Hclean u e Hu) as (_ & ? & _).
Qed.

(** [_writePasswd] followed by [_parsePasswd]: when the file exists and the
    passwd table can be written and read back, the write returns, the old
    file is the backup, and parsing the new file into an object without
    users yields the four user lists as they were and the records as they
    were, with the password field ["x"] that [_pwd2str] writes for every
    record. *)
Theorem _writePasswd_then_parse (msrc : string) (self s0 : PasswdGroupShadow)
    (disk : Disk) :
  one_line msrc = true →
  is_Some (passwd (current disk)) →
  passwd_writable self →
  defs s0 = defs self →
  all_users s0 = [] →
  pwdDict s0 = ∅ →
  (_writePasswd msrc self disk).1 = Return tt
  ∧ passwd (backups (_writePasswd msrc self disk).2) = passwd (current disk)
  ∧ _parsePasswd (passwd (current (_writePasswd msrc self disk).2)) s0
    = (Return tt,
       set_systemUserList (λ _, systemUserList self)
         (set_normalUserList (λ _, normalUserList self)
            (set_softwareUserList (λ _, softwareUserList self)
               (set_deprecatedUserList (λ _, deprecatedUserList self)
                  (set_pwdDict (λ _, with_pw_passwd "x" <$> pwdDict self) s0))))).
Proof.
  intros Hmsrc [old Hold] Hw Hdefs Hl0 Hd0.
  destruct (passwd_written msrc self Hmsrc Hw) as (buf & Hbody & Hparse).
  unfold _writePasswd, rewrite_file. rewrite Hold. cbv zeta. rewrite Hbody.
  cbn [fst snd current backups passwd with_passwd].
  split; [done|]. split; [done|]. by apply Hparse.
Qed.
End PasswdRoundTrip.

Lemma _writePasswd_then_parse_witness :
  (_writePasswd "strict_pgs" sample sample_disk).1 = Return tt
  ∧ passwd (backups (_writePasswd "strict_pgs" sample sample_disk).2)
    = passwd (current sample_disk)
  ∧ @_parsePasswd demo
      (passwd (current (_writePasswd "strict_pgs" sample sample_disk).2))
      sample_blank
    = (Return tt,
       set_systemUserList (λ _, systemUserList sample)
         (set_normalUserList (λ _, normalUserList sample)
            (set_softwareUserList (λ _, softwareUserList sample)
               (set_deprecatedUserList (λ _, deprecatedUserList sample)
                  (set_pwdDict (λ _, with_pw_passwd "x" <$> pwdDict sample)
                     sample_blank))))).
Proof.
  apply (@_writePasswd_then_parse demo demo_int_reads_fmt_d).
  - reflexivity.
  - vm_compute. by eexists.
  - apply (by_computation (passwd_writable sample)). vm_compute. reflexivity.
  - reflexivity.
  - reflexivity.
  - reflexivity.
Defined.
(** ** Writing /etc/subuid and /etc/subgid and reading them back *)

Section SubIdRoundTrip.
Context `{Externals}.
Hypothesis int_fmt_d : int_reads_fmt_d.

Lemma _subuidgid2str_fields (e : _SubUidGidEntry) :
  plain (name e) = true →
  Py.split colon (_subuidgid2str e) = [name e; fmt_d (start e); fmt_d (count e)]
  ∧ one_line (_subuidgid2str e) = true.
Proof.
  intros Hn. split.
  - change (_subuidgid2str e)
      with (foldr (λ x acc, x +:+ String colon acc) (fmt_d (count e))
              [name e; fmt_d (start e)]).
    rewrite split_fields; [done| |by apply plain_colon, plain_fmt_d].
    repeat constructor; [by apply plain_colon|by apply plain_colon, plain_fmt_d].
  - unfold _subuidgid2str. rewrite !one_line_app.
    by rewrite (plain_one_line _ Hn), !(plain_one_line _ (plain_fmt_d _)).
Qed.

(** One line of a subordinate-id file, read back. *)
Lemma _parseSubId_line set_dict set_list (e : _SubUidGidEntry) self :
  plain_name (name e) = true →
  (if skipped (_subuidgid2str e) then ret tt
   else _parseSubId_fields set_dict set_list (Py.split colon (_subuidgid2str e))) self
  = (Return tt,
     set_list (λ l, l ++ [name e]) (set_dict (insert (name e) e) self)).
Proof.
  intros Hn. pose proof (plain_of_name _ Hn) as Hp.
  change (skipped (_subuidgid2str e))
    with (skipped (name e +:+ String colon
            (fmt_d (start e) +:+ ":" +:+ fmt_d (count e)))).
  rewrite skipped_line by done.
  destruct (_subuidgid2str_fields e Hp) as [-> _].
  unfold _parseSubId_fields, int_, item. munfold.
  cbn [length Nat.eqb negb raise_if lookup list_lookup default from_option id].
  rewrite !int_fmt_d. by destruct e.
Qed.

Lemma subid_body_ok (msrc : string) (l : list string)
    (d : gmap string _SubUidGidEntry) (es : list _SubUidGidEntry) :
  Forall2 (λ u e, d !! u = Some e) l es →
  (wdo _ <- write (manageFlag msrc +:+ String newline "");
   wdo _ <- write (String newline "");
   write_entries _subuidgid2str d l) ""
  = (Return tt, unlines ([manageFlag msrc; ""] ++ (_subuidgid2str <$> es))).
Proof.
  intros Hes. unfold wbind, write.
  rewrite (write_entries_ok _ _ _ es) by done.
  rewrite append_nil_l, !append_assoc. reflexivity.
Qed.

Lemma subid_records (l : list string) (d : gmap string _SubUidGidEntry) :
  subid_writable l d →
  ∃ es, Forall2 (λ u e, d !! u = Some e) l es
        ∧ name <$> es = l
        ∧ (∀ e, e ∈ es → plain_name (name e) = true)
        ∧ foldl (λ d' e, <[name e := e]> d') ∅ es = d.
Proof.
  intros [Hlisted Hclean]. destruct (lookup_all _ _ Hlisted) as [es Hes].
  exists es. split; [done|].
  assert (Hkey : ∀ u e, d !! u = Some e → name e = u ∧ plain_name (name e) = true).
  { intros u e Hu. by destruct (Hclean u e Hu) as (_ & <- & ?). }
  split; [|split].
  - clear Hclean Hlisted. induction Hes as [|u e l es Hu Hes IH]; [done|].
    cbn. by rewrite IH, (proj1 (Hkey u e Hu)).
  - intros e He. apply list_elem_of_lookup in He as [i Hi].
    destruct (Forall2_lookup_r _ _ _ _ _ Hes Hi) as (u & Hu & Hd).
    by apply (Hkey u e Hd).
  - rewrite (foldl_insert_rebuilds name (λ e, e) d l es); try done.
    + apply map_fmap_id.
    + intros u [e Hu]. by destruct (Hclean u e Hu) as (? & _).
    + intros u e Hu. by destruct (Hclean u e Hu) as (_ & ? & _).
Qed.

(** The lines of a subordinate-id file, read back into [s0]. *)
Lemma subid_lines_parse set_dict set_list (msrc : string)
    (es : list _SubUidGidEntry) s0 :
  one_line msrc = true →
  (∀ e, e ∈ es → plain_name (name e) = true) →
  for_ (Py.split newline
          (universal_newlines
             (unlines ([manageFlag msrc; ""] ++ (_subuidgid2str <$> es)))))
    (λ line, if skipped line then ret tt
             else _parseSubId_fields set_dict set_list (Py.split colon line)) s0
  = (Return tt,
     foldl (λ s e, set_list (λ l, l ++ [name e]) (set_dict (insert (name e) e) s))
       s0 es).
Proof.
  intros Hmsrc Hin. rewrite read_unlines.
  2:{ apply Forall_app. split.
      - repeat constructor. by apply contains_manageFlag.
      - apply Forall_fmap, Forall_forall. intros e He. cbn.
        apply _subuidgid2str_fields. by apply plain_of_name, Hin. }
  cbn [app]. rewrite for_skip by apply skipped_manageFlag.
  rewrite for_skip by reflexivity.
  rewrite for_app.
  match goal with
  | |- context [for_ (_subuidgid2str <$> es) ?body s0] =>
      destruct (for_effect _subuidgid2str body
                  (λ e s, set_list (λ l, l ++ [name e])
                            (set_dict (insert (name e) e) s))
                  (λ _, True) es s0) as [-> _]; [|done|]
  end.
  { intros e s He _. split; [|done]. by apply _parseSubId_line, Hin. }
  by rewrite for_skip_last.
Qed.

(** The text [_writeSubUid] writes, and what [_parseSubUid] makes of it. *)
Lemma subuid_written (msrc : string) (self : PasswdGroupShadow) :
  one_line msrc = true →
  subid_writable (subUidEntryList self) (subUidDict self) →
  ∃ buf, subuid_body msrc self "" = (Return tt, buf)
    ∧ ∀ s0, subUidEntryList s0 = [] → subUidDict s0 = ∅ →
        _parseSubUid (Some buf) s0
        = (Return tt,
           set_subUidEntryList (λ _, subUidEntryList self)
             (set_subUidDict (λ _, subUidDict self) s0)).
Proof.
  intros Hmsrc Hu.
  destruct (subid_records _ _ Hu) as (ues & Hues & Hun & Huin & Hudict).
  eexists. split; [by apply (subid_body_ok msrc _ _ ues)|].
  intros s0 Hul Hud.
  unfold _parseSubUid, bind at 1. cbn [_readFile lift]. unfold ret at 1.
  rewrite subid_lines_parse by done.
  f_equal. apply PasswdGroupShadow_ext; proj_simpl.
  all: try (by apply (foldl_proj_same _ _ ues s0)).
  - rewrite (foldl_proj_snoc subUidEntryList name) by done. by rewrite Hul, Hun.
  - rewrite (foldl_proj_insert subUidDict name (λ e, e)) by done.
    by rewrite Hud.
Qed.

Lemma subgid_written (msrc : string) (self : PasswdGroupShadow) :
  one_line msrc = true →
  subid_writable (subGidEntryList self) (subGidDict self) →
  ∃ buf, subgid_body msrc self "" = (Return tt, buf)
    ∧ ∀ s0, subGidEntryList s0 = [] → subGidDict s0 = ∅ →
        _parseSubGid (Some buf) s0
        = (Return tt,
           set_subGidEntryList (λ _, subGidEntryList self)
             (set_subGidDict (λ _, subGidDict self) s0)).
Proof.
  intros Hmsrc Hg.
  destruct (subid_records _ _ Hg) as (ges & Hges & Hgn & Hgin & Hgdict).
  eexists. split; [by apply (subid_body_ok msrc _ _ ges)|].
  intros s0 Hgl Hgd.
  unfold _parseSubGid, bind at 1. cbn [_readFile lift]. unfold ret at 1.
  rewrite subid_lines_parse by done.
  f_equal. apply PasswdGroupShadow_ext; proj_simpl.
  all: try (by apply (foldl_proj_same _ _ ges s0)).
  - rewrite (foldl_proj_snoc subGidEntryList name) by done. by rewrite Hgl, Hgn.
  - rewrite (foldl_proj_insert subGidDict name (λ e, e)) by done.
    by rewrite Hgd.
Qed.

(** [_writeSubUid] followed by [_parseSubUid], and [_writeSubGid] followed
    by [_parseSubGid]: when the table can be written and read back, the
    write returns, whether the file existed or not, and parsing the new
    file into an object without entries yields the entry list and the
    records that were written. *)
Theorem _writeSubIds_then_parse (msrc : string) (self s0 : PasswdGroupShadow)
    (disk : Disk) :
  one_line msrc = true →
  subid_writable (subUidEntryList self) (subUidDict self) →
  subid_writable (subGidEntryList self) (subGidDict self) →
  subUidEntryList s0 = [] → subUidDict s0 = ∅ →
  subGidEntryList s0 = [] → subGidDict s0 = ∅ →
  ((_writeSubUid msrc self disk).1 = Return tt
   ∧ _parseSubUid (subuid (current (_writeSubUid msrc self disk).2)) s0
     = (Return tt,
        set_subUidEntryList (λ _, subUidEntryList self)
          (set_subUidDict (λ _, subUidDict self) s0)))
  ∧ ((_writeSubGid msrc self disk).1 = Return tt
     ∧ _parseSubGid (subgid (current (_writeSubGid msrc self disk).2)) s0
       = (Return tt,
          set_subGidEntryList (λ _, subGidEntryList self)
            (set_subGidDict (λ _, subGidDict self) s0))).
Proof.
  intros Hmsrc Hu Hg Hul Hud Hgl Hgd.
  destruct (subuid_written msrc self Hmsrc Hu) as (ubuf & Hubody & Huparse).
  destruct (subgid_written msrc self Hmsrc Hg) as (gbuf & Hgbody & Hgparse).
  split.
  - unfold _writeSubUid, rewrite_file.
    destruct (subuid (current disk)); cbv zeta; rewrite Hubody;
      cbn [fst snd current subuid with_subuid]; (split; [done|by apply Huparse]).
  - unfold _writeSubGid, rewrite_file.
    destruct (subgid (current disk)); cbv zeta; rewrite Hgbody;
      cbn [fst snd current subgid with_subgid]; (split; [done|by apply Hgparse]).
Qed.
End SubIdRoundTrip.

Lemma _writeSubIds_then_parse_witness :
  ((_writeSubUid "strict_pgs" sample_fixated sample_disk).1 = Return tt
   ∧ @_parseSubUid demo
       (subuid (current (_writeSubUid "strict_pgs" sample_fixated sample_disk).2))
       sample_blank
     = (Return tt,
        set_subUidEntryList (λ _, subUidEntryList sample_fixated)
          (set_subUidDict (λ _, subUidDict sample_fixated) sample_blank)))
  ∧ ((_writeSubGid "strict_pgs" sample_fixated sample_disk).1 = Return tt
     ∧ @_parseSubGid demo
         (subgid (current (_writeSubGid "strict_pgs" sample_fixated sample_disk).2))
         sample_blank
       = (Return tt,
          set_subGidEntryList (λ _, subGidEntryList sample_fixated)
            (set_subGidDict (λ _, subGidDict sample_fixated) sample_blank))).
Proof.
  apply (@_writeSubIds_then_parse demo demo_int_reads_fmt_d).
  - reflexivity.
  - apply (by_computation (subid_writable _ _)). vm_compute. reflexivity.
  - apply (by_computation (subid_writable _ _)). vm_compute. reflexivity.
  - reflexivity.
  - reflexivity.
  - reflexivity.
  - reflexivity.
Defined.
(** ** Writing /etc/group and reading it back *)

Lemma foldl_proj_fold {A B} (p : PasswdGroupShadow → B) (g : A → B → B)
    (eff : A → PasswdGroupShadow → PasswdGroupShadow) (l : list A) self :
  (∀ x s, p (eff x s) = g x (p s)) →
  p (foldl (λ s x, eff x s) self l) = foldl (λ d x, g x d) (p self) l.
Proof.
  intros Hp. revert self. induction l as [|x l IH]; intros self; [done|].
  cbn [foldl]. by rewrite IH, Hp.
Qed.

(** A list that takes the names of one category. *)
Lemma foldl_proj_category {A C} `{EqDecision C} (p : PasswdGroupShadow → list string)
    (k : A → string) (cat : A → C) (c : C)
    (eff : A → PasswdGroupShadow → PasswdGroupShadow) (l : list A) self :
  (∀ x s, p (eff x s) = if decide (cat x = c) then p s ++ [k x] else p s) →
  p (foldl (λ s x, eff x s) self l) = p self ++ (k <$> filter (λ x, cat x = c) l).
Proof.
  intros Hp. revert self. induction l as [|x l IH]; intros self.
  - cbn. by rewrite app_nil_r.
  - cbn [foldl]. rewrite IH, Hp, filter_cons. case_decide.
    + cbn [fmap list_fmap]. by rewrite <- app_assoc.
    + done.
Qed.

Lemma filter_none {A} (P : A → Prop) `{∀ x, Decision (P x)} (l : list A) :
  Forall (λ x, ¬ P x) l → filter P l = [].
Proof.
  induction 1 as [|x l Hx Hl IH]; [done|]. by rewrite filter_cons_False.
Qed.

Lemma records_of_Forall2 {V} (d : gmap string V) (l : list string) :
  Forall (λ u, is_Some (d !! u)) l →
  Forall2 (λ u e, d !! u = Some e) l (records_of d l).
Proof.
  unfold records_of. induction 1 as [|u l [e He] Hl IH]; [constructor|].
  cbn [omap list_omap]. rewrite He. by constructor.
Qed.

Lemma records_of_app {V} (d : gmap string V) (l1 l2 : list string) :
  records_of d (l1 ++ l2) = records_of d l1 ++ records_of d l2.
Proof. unfold records_of. apply omap_app. Qed.

Lemma index_add_inv (g : string) (index : gmap string (list string))
    (u u' g' : string) :
  g' ∈ default [] (index_add g index u !! u') →
  g' ∈ default [] (index !! u') ∨ (g' = g ∧ u' = u ∧ u ≠ "").
Proof.
  unfold index_add. destruct (bool_decide (u = "")) eqn:Hu; [by left|].
  apply bool_decide_eq_false in Hu.
  destruct (decide (u = u')) as [->|Hne].
  - rewrite lookup_insert_eq. cbn. intros [Hin|Hin]%elem_of_app; [by left|].
    apply list_elem_of_singleton in Hin. by right.
  - rewrite lookup_insert_ne by done. by left.
Qed.

Lemma foldl_index_add_inv (g : string) (l : list string)
    (index : gmap string (list string)) (u' g' : string) :
  g' ∈ default [] (foldl (index_add g) index l !! u') →
  g' ∈ default [] (index !! u') ∨ (g' = g ∧ u' ∈ l ∧ u' ≠ "").
Proof.
  revert index. induction l as [|u l IH]; intros index Hin; [by left|].
  cbn [foldl] in Hin. apply IH in Hin as [Hin|(-> & Hu & Hne)].
  - apply index_add_inv in Hin as [Hin|(-> & -> & Hne)]; [by left|].
    right. repeat split; [apply list_elem_of_here|done].
  - right. repeat split; [by apply list_elem_of_further|done].
Qed.

(** The index of a list of group records names a group for a user exactly
    when the member field of a record of that group names the user. *)
Lemma member_index_spec (es : list _GrpEntry) (u g : string) :
  g ∈ default [] (member_index es !! u)
  ↔ ∃ e, e ∈ es ∧ gr_name e = g ∧ u ∈ _nonEmptySplit (gr_mem e) comma.
Proof.
  unfold member_index.
  assert (Hgen : ∀ index,
    g ∈ default []
          (foldl (λ index e, foldl (index_add (gr_name e)) index
                               (Py.split comma (gr_mem e))) index es !! u)
    ↔ g ∈ default [] (index !! u)
      ∨ ∃ e, e ∈ es ∧ gr_name e = g ∧ u ∈ _nonEmptySplit (gr_mem e) comma).
  { induction es as [|e es IH]; intros index.
    - cbn [foldl]. split; [by left|]. intros [?|(e & ?%elem_of_nil & _)]; done.
    - cbn [foldl]. rewrite IH. split.
      + intros [Hin|(e' & He' & Hg & Hu)].
        * apply foldl_index_add_inv in Hin as [Hin|(-> & Hu & Hne)]; [by left|].
          right. exists e. split; [apply list_elem_of_here|]. split; [done|].
          unfold _nonEmptySplit. by apply list_elem_of_filter.
        * right. exists e'. split; [by apply list_elem_of_further|done].
      + intros [Hin|(e' & He' & Hg & Hu)].
        * left. by apply foldl_index_add_mono.
        * apply elem_of_cons in He' as [->|He'].
          -- left. subst g. unfold _nonEmptySplit in Hu.
             apply list_elem_of_filter in Hu as [Hne Hu].
             by apply foldl_index_add_in.
          -- right. by exists e'. }
  rewrite Hgen. rewrite lookup_empty. cbn. split.
  - intros [?%elem_of_nil|?]; done.
  - by right.
Qed.

Section GroupRoundTrip.
Context `{Externals}.
Hypothesis int_fmt_d : int_reads_fmt_d.

Lemma _grp2str_fields (e : _GrpEntry) :
  plain (gr_name e) = true → plain (gr_mem e) = true →
  Py.split colon (_grp2str e) = [gr_name e; "x"; fmt_d (gr_gid e); gr_mem e]
  ∧ one_line (_grp2str e) = true.
Proof.
  intros Hn Hm. split.
  - change (_grp2str e)
      with (foldr (λ x acc, x +:+ String colon acc) (gr_mem e)
              [gr_name e; "x"; fmt_d (gr_gid e)]).
    rewrite split_fields; [done| |by apply plain_colon].
    repeat constructor; try (by apply plain_colon); by apply plain_colon, plain_fmt_d.
  - unfold _grp2str. rewrite !one_line_app.
    by rewrite (plain_one_line _ Hn), (plain_one_line _ Hm),
      !(plain_one_line _ (plain_fmt_d _)).
Qed.

(** One line of the group file, read back. *)
Lemma _parseGroup_line (normal : list string) (e : _GrpEntry) self :
  plain_name (gr_name e) = true → plain (gr_mem e) = true →
  (if skipped (_grp2str e) then ret tt
   else _parseGroup_fields normal (Py.split colon (_grp2str e))) self
  = (Return tt,
     set_secondaryGroupsDict
       (λ index, foldl (index_add (gr_name e)) index (Py.split comma (gr_mem e)))
       (set_group_list (group_category (defs self) normal (gr_name e) (gr_gid e))
          (λ l, l ++ [gr_name e])
          (set_grpDict (insert (gr_name e) (with_gr_passwd "x" e)) self))).
Proof.
  intros Hn Hm. pose proof (plain_of_name _ Hn) as Hp.
  change (skipped (_grp2str e))
    with (skipped (gr_name e +:+ String colon
            ("x" +:+ ":" +:+ fmt_d (gr_gid e) +:+ ":" +:+ gr_mem e))).
  rewrite skipped_line by done.
  destruct (_grp2str_fields e Hp Hm) as [-> _].
  unfold _parseGroup_fields.
  pose proof (member_loop (gr_name e) (Py.split comma (gr_mem e))) as Hloop.
  unfold _GrpEntry_init, int_, item in *. munfold.
  cbn [length Nat.eqb negb raise_if obind lookup list_lookup default from_option id]
    in *.
  rewrite !int_fmt_d. cbn [obind]. proj_simpl.
  unfold group_category.
  destruct (Py.mem (gr_name e) _stdSystemGroupList); [by rewrite Hloop|].
  destruct (Py.mem (gr_name e) normal); [by rewrite Hloop|].
  destruct (Py.mem (gr_name e) _stdDeviceGroupList); [by rewrite Hloop|].
  destruct (Py.mem (gr_name e) _stdDeprecatedGroupList); [by rewrite Hloop|].
  destruct (_ && _); by rewrite Hloop.
Qed.

Lemma group_body_ok (msrc : string) self (es1 es2 es3 es4 es5 es6 : list _GrpEntry) :
  Forall2 (λ u e, grpDict self !! u = Some e) (systemGroupList self) es1 →
  Forall2 (λ u e, grpDict self !! u = Some e) (perUserGroupList self) es2 →
  Forall2 (λ u e, grpDict self !! u = Some e) (standAloneGroupList self) es3 →
  Forall2 (λ u e, grpDict self !! u = Some e) (deviceGroupList self) es4 →
  Forall2 (λ u e, grpDict self !! u = Some e) (softwareGroupList self) es5 →
  Forall2 (λ u e, grpDict self !! u = Some e) (deprecatedGroupList self) es6 →
  group_body msrc self ""
  = (Return tt,
     unlines ([manageFlag msrc; ""] ++ (_grp2str <$> es1) ++ [""]
              ++ (_grp2str <$> es2) ++ [""] ++ (_grp2str <$> es3) ++ [""]
              ++ (_grp2str <$> es4) ++ [""] ++ (_grp2str <$> es5) ++ [""]
              ++ (_grp2str <$> es6))).
Proof.
  intros H1 H2 H3 H4 H5 H6. unfold group_body, wbind, write.
  rewrite (write_entries_ok _ _ _ es1) by done.
  rewrite (write_entries_ok _ _ _ es2) by done.
  rewrite (write_entries_ok _ _ _ es3) by done.
  rewrite (write_entries_ok _ _ _ es4) by done.
  rewrite (write_entries_ok _ _ _ es5) by done.
  rewrite (write_entries_ok _ _ _ es6) by done.
  rewrite !unlines_app, append_nil_l.
  change (unlines [""]) with (String newline "").
  change (unlines [manageFlag msrc; ""])
    with (manageFlag msrc +:+ String newline (String newline "")).
  rewrite !append_assoc. reflexivity.
Qed.

(** The records of the names of a list, and what is known of each. *)
Lemma group_records (self : PasswdGroupShadow) (l : list string) (c : GroupCategory) :
  map_Forall (λ g e, g ∈ all_groups self ∧ gr_name e = g
                     ∧ plain_name g = true ∧ plain (gr_mem e) = true)
    (grpDict self) →
  listed_in l (grpDict self) →
  Forall (λ g, group_category (defs self) (normalUserList self) g (gid_of self g) = c)
    l →
  Forall2 (λ u e, grpDict self !! u = Some e) l (records_of (grpDict self) l)
  ∧ gr_name <$> records_of (grpDict self) l = l
  ∧ Forall (λ e, plain_name (gr_name e) = true ∧ plain (gr_mem e) = true
                 ∧ group_category (defs self) (normalUserList self) (gr_name e)
                     (gr_gid e) = c)
      (records_of (grpDict self) l).
Proof.
  intros Hclean Hl Hc. pose proof (records_of_Forall2 _ _ Hl) as Hes.
  split; [done|].
  assert (Hkey : ∀ u e, grpDict self !! u = Some e →
            gr_name e = u ∧ plain_name (gr_name e) = true ∧ plain (gr_mem e) = true).
  { intros u e Hu. destruct (Hclean u e Hu) as (_ & <- & ? & ?). done. }
  clear Hclean Hl. induction Hes as [|u e l es Hu Hes IH].
  - split; [done|constructor].
  - apply Forall_cons in Hc as [Hcu Hc]. destruct (IH Hc) as [Hnames Hall].
    destruct (Hkey u e Hu) as (Hname & Hpn & Hpm).
    split; [cbn; by rewrite Hnames, Hname|].
    constructor; [|done]. repeat split; try done.
    rewrite Hname. unfold gid_of in Hcu. by rewrite Hu in Hcu.
Qed.

(** The text [_writeGroup] writes, and what [_parseGroup] makes of it. *)
Lemma group_written (msrc : string) (self : PasswdGroupShadow) :
  one_line msrc = true →
  group_writable self →
  ∃ buf, group_body msrc self "" = (Return tt, buf)
    ∧ ∀ s0, defs s0 = defs self → all_groups s0 = [] → grpDict s0 = ∅ →
        secondaryGroupsDict s0 = ∅ →
        _parseGroup (Some buf) (normalUserList self) s0
        = (Return tt,
           set_systemGroupList (λ _, systemGroupList self)
             (set_perUserGroupList (λ _, perUserGroupList self)
                (set_standAloneGroupList (λ _, standAloneGroupList self)
                   (set_deviceGroupList (λ _, deviceGroupList self)
                      (set_softwareGroupList (λ _, softwareGroupList self)
                         (set_deprecatedGroupList (λ _, deprecatedGroupList self)
                            (set_secondaryGroupsDict
                               (λ _, member_index
                                       (records_of (grpDict self) (all_groups self)))
                               (set_grpDict
                                  (λ _, with_gr_passwd "x" <$> grpDict self)
                                  s0)))))))).
Proof.
  intros Hmsrc (Hlisted & Hclean & Hc1 & Hc2 & Hc3 & Hc4 & Hc5 & Hc6).
  pose proof Hlisted as Hlisted_all.
  unfold all_groups in Hlisted. rewrite !listed_in_app in Hlisted.
  destruct Hlisted as (Hl1 & Hl2 & Hl3 & Hl4 & Hl5 & Hl6).
  destruct (group_records self _ _ Hclean Hl1 Hc1) as (Hes1 & Hn1 & Hin1).
  destruct (group_records self _ _ Hclean Hl2 Hc2) as (Hes2 & Hn2 & Hin2).
  destruct (group_records self _ _ Hclean Hl3 Hc3) as (Hes3 & Hn3 & Hin3).
  destruct (group_records self _ _ Hclean Hl4 Hc4) as (Hes4 & Hn4 & Hin4).
  destruct (group_records self _ _ Hclean Hl5 Hc5) as (Hes5 & Hn5 & Hin5).
  destruct (group_records self _ _ Hclean Hl6 Hc6) as (Hes6 & Hn6 & Hin6).
  set (d := grpDict self) in *.
  set (es1 := records_of d (systemGroupList self)) in *.
  set (es2 := records_of d (perUserGroupList self)) in *.
  set (es3 := records_of d (standAloneGroupList self)) in *.
  set (es4 := records_of d (deviceGroupList self)) in *.
  set (es5 := records_of d (softwareGroupList self)) in *.
  set (es6 := records_of d (deprecatedGroupList self)) in *.
  assert (Hall : records_of d (all_groups self)
                 = es1 ++ es2 ++ es3 ++ es4 ++ es5 ++ es6).
  { unfold all_groups. by rewrite !records_of_app. }
  eexists. split; [by apply (group_body_ok msrc self es1 es2 es3 es4 es5 es6)|].
  intros s0 Hdefs Hl0 Hd0 Hi0.
  unfold all_groups in Hl0.
  apply app_eq_nil in Hl0 as [Hs1 Hl0]. apply app_eq_nil in Hl0 as [Hs2 Hl0].
  apply app_eq_nil in Hl0 as [Hs3 Hl0]. apply app_eq_nil in Hl0 as [Hs4 Hl0].
  apply app_eq_nil in Hl0 as [Hs5 Hs6].
  set (normal := normalUserList self) in *.
  set (cat := λ e : _GrpEntry,
         group_category (defs self) normal (gr_name e) (gr_gid e)).
  set (eff := λ (e : _GrpEntry) (s : PasswdGroupShadow),
         set_secondaryGroupsDict
           (λ index, foldl (index_add (gr_name e)) index (Py.split comma (gr_mem e)))
           (set_group_list (cat e) (λ l, l ++ [gr_name e])
              (set_grpDict (insert (gr_name e) (with_gr_passwd "x" e)) s))).
  assert (Heff : ∀ (es : list _GrpEntry) (c : GroupCategory) s,
    Forall (λ e, plain_name (gr_name e) = true ∧ plain (gr_mem e) = true
                 ∧ cat e = c) es →
    defs s = defs self →
    for_ (_grp2str <$> es)
      (λ line, if skipped line then ret tt
               else _parseGroup_fields normal (Py.split colon line)) s
    = (Return tt, foldl (λ s e, eff e s) s es)
    ∧ defs (foldl (λ s e, eff e s) s es) = defs self).
  { intros es c s Hin Hs.
    apply (for_effect _grp2str _ eff (λ s, defs s = defs self)); [|done].
    intros e s' He Hs'.
    destruct (proj1 (Forall_forall _ _) Hin e He) as (? & ? & ?).
    rewrite _parseGroup_line by done. rewrite Hs'. split; [reflexivity|].
    unfold eff. by destruct (cat e). }
  assert (Hnl : ∀ es c,
    Forall (λ e, plain_name (gr_name e) = true ∧ plain (gr_mem e) = true
                 ∧ cat e = c) es →
    Forall (λ x, one_line x = true) (_grp2str <$> es)).
  { intros es c Hin. apply Forall_fmap. eapply Forall_impl; [exact Hin|].
    intros e (Hn & Hm & _). cbn. apply _grp2str_fields; [|done].
    by apply plain_of_name. }
  unfold _parseGroup, bind at 1. cbn [_readFile lift]. unfold ret at 1.
  rewrite read_unlines.
  2:{ rewrite !Forall_app. repeat split;
        try (repeat constructor; by apply contains_manageFlag);
        by eapply Hnl. }
  rewrite <- !app_assoc. cbn [app].
  rewrite for_skip by apply skipped_manageFlag. rewrite for_skip by reflexivity.
  rewrite for_app. destruct (Heff es1 _ s0 Hin1 Hdefs) as [-> Hd1].
  rewrite for_skip by reflexivity.
  rewrite for_app. destruct (Heff es2 _ _ Hin2 Hd1) as [-> Hd2].
  rewrite for_skip by reflexivity.
  rewrite for_app. destruct (Heff es3 _ _ Hin3 Hd2) as [-> Hd3].
  rewrite for_skip by reflexivity.
  rewrite for_app. destruct (Heff es4 _ _ Hin4 Hd3) as [-> Hd4].
  rewrite for_skip by reflexivity.
  rewrite for_app. destruct (Heff es5 _ _ Hin5 Hd4) as [-> Hd5].
  rewrite for_skip by reflexivity.
  rewrite for_app. destruct (Heff es6 _ _ Hin6 Hd5) as [-> Hd6].
  rewrite for_skip_last by reflexivity.
  rewrite <- !foldl_app.
  assert (Hfilter : ∀ c,
    gr_name <$> filter (λ e, cat e = c) (es1 ++ es2 ++ es3 ++ es4 ++ es5 ++ es6)
    = match c with
      | SystemGroup => systemGroupList self
      | PerUserGroup => perUserGroupList self
      | StandAloneGroup => standAloneGroupList self
      | DeviceGroup => deviceGroupList self
      | SoftwareGroup => softwareGroupList self
      | DeprecatedGroup => deprecatedGroupList self
      end).
  { assert (Hseg : ∀ es c c', Forall (λ e, plain_name (gr_name e) = true
                      ∧ plain (gr_mem e) = true ∧ cat e = c) es →
              filter (λ e, cat e = c') es = if decide (c = c') then es else []).
    { intros es c c' Hin. case_decide as Hc.
      - apply filter_all. eapply Forall_impl; [exact Hin|].
        intros e (_ & _ & ?). congruence.
      - apply filter_none. eapply Forall_impl; [exact Hin|].
        intros e (_ & _ & ?). congruence. }
    intros c. rewrite !filter_app.
    rewrite (Hseg es1 _ c Hin1), (Hseg es2 _ c Hin2), (Hseg es3 _ c Hin3),
      (Hseg es4 _ c Hin4), (Hseg es5 _ c Hin5), (Hseg es6 _ c Hin6).
    destruct c; cbn [decide decide_rel]; cbn; rewrite ?app_nil_r; assumption. }
  assert (Hlist : ∀ (p : PasswdGroupShadow → list string) (c : GroupCategory),
    (∀ e s, p (eff e s) = if decide (cat e = c) then p s ++ [gr_name e] else p s) →
    p s0 = [] →
    p (foldl (λ s e, eff e s) s0 (es1 ++ es2 ++ es3 ++ es4 ++ es5 ++ es6))
    = gr_name <$> filter (λ e, cat e = c) (es1 ++ es2 ++ es3 ++ es4 ++ es5 ++ es6)).
  { intros p c Hp Hp0.
    rewrite (foldl_proj_category p gr_name cat c eff) by done. by rewrite Hp0. }
  f_equal. apply PasswdGroupShadow_ext; proj_simpl.
  all: try (apply (foldl_proj_same _ eff); intros e s; unfold eff;
            by destruct (cat e)).
  - rewrite (Hlist systemGroupList SystemGroup); [apply Hfilter| |done].
    intros e s. unfold eff. by destruct (cat e).
  - rewrite (Hlist deviceGroupList DeviceGroup); [apply Hfilter| |done].
    intros e s. unfold eff. by destruct (cat e).
  - rewrite (Hlist perUserGroupList PerUserGroup); [apply Hfilter| |done].
    intros e s. unfold eff. by destruct (cat e).
  - rewrite (Hlist standAloneGroupList StandAloneGroup); [apply Hfilter| |done].
    intros e s. unfold eff. by destruct (cat e).
  - rewrite (Hlist softwareGroupList SoftwareGroup); [apply Hfilter| |done].
    intros e s. unfold eff. by destruct (cat e).
  - rewrite (Hlist deprecatedGroupList DeprecatedGroup); [apply Hfilter| |done].
    intros e s. unfold eff. by destruct (cat e).
  - (* the index *)
    rewrite (foldl_proj_fold secondaryGroupsDict
               (λ e index, foldl (index_add (gr_name e)) index
                             (Py.split comma (gr_mem e))) eff)
      by (intros e s; unfold eff; by destruct (cat e)).
    by rewrite Hi0, Hall.
  - (* grpDict *)
    rewrite (foldl_proj_insert grpDict gr_name (with_gr_passwd "x") eff)
      by (intros e s; unfold eff; by destruct (cat e)).
    rewrite Hd0, <- Hall.
    apply (foldl_insert_rebuilds gr_name (with_gr_passwd "x") d (all_groups self)).
    + by apply records_of_Forall2.
    + intros u [e Hu]. by destruct (Hclean u e Hu) as (? & _).
    + intros u e Hu. by destruct (Hclean u e Hu) as (_ & ? & _).
Qed.

(** [_writeGroup] followed by [_parseGroup]: when the file exists and the
    group table can be written and read back, the write returns, the old
    file is the backup, and parsing the new file into an object without
    groups yields the six group lists as they were, the records as they
    were with the password field ["x"] that [_grp2str] writes, and an index
    that lists a group for a user exactly when the member field of the
    group names the user. *)
Theorem _writeGroup_then_parse (msrc : string) (self s0 : PasswdGroupShadow)
    (disk : Disk) :
  one_line msrc = true →
  is_Some (group (current disk)) →
  group_writable self →
  defs s0 = defs self →
  all_groups s0 = [] →
  grpDict s0 = ∅ →
  secondaryGroupsDict s0 = ∅ →
  (_writeGroup msrc self disk).1 = Return tt
  ∧ group (backups (_writeGroup msrc self disk).2) = group (current disk)
  ∧ ∃ index,
      _parseGroup (group (current (_writeGroup msrc self disk).2))
        (normalUserList self) s0
      = (Return tt,
         set_systemGroupList (λ _, systemGroupList self)
           (set_perUserGroupList (λ _, perUserGroupList self)
              (set_standAloneGroupList (λ _, standAloneGroupList self)
                 (set_deviceGroupList (λ _, deviceGroupList self)
                    (set_softwareGroupList (λ _, softwareGroupList self)
                       (set_deprecatedGroupList (λ _, deprecatedGroupList self)
                          (set_secondaryGroupsDict (λ _, index)
                             (set_grpDict
                                (λ _, with_gr_passwd "x" <$> grpDict self)
                                s0))))))))
      ∧ ∀ u g, g ∈ default [] (index !! u)
               ↔ ∃ e, grpDict self !! g = Some e
                      ∧ u ∈ _nonEmptySplit (gr_mem e) comma.
Proof.
  intros Hmsrc [old Hold] Hw Hdefs Hl0 Hd0 Hi0.
  destruct (group_written msrc self Hmsrc Hw) as (buf & Hbody & Hparse).
  unfold _writeGroup, rewrite_file. rewrite Hold. cbv zeta. rewrite Hbody.
  cbn [fst snd current backups group with_group].
  split; [done|]. split; [done|].
  exists (member_index (records_of (grpDict self) (all_groups self))).
  split; [by apply Hparse|].
  destruct Hw as (Hlisted & Hclean & _).
  pose proof (records_of_Forall2 _ _ Hlisted) as Hes.
  intros u g. rewrite member_index_spec. split.
  - intros (e & He & <- & Hu). exists e. split; [|done].
    apply list_elem_of_lookup in He as [i Hi].
    destruct (Forall2_lookup_r _ _ _ _ _ Hes Hi) as (g & Hg & Hd).
    by destruct (Hclean g e Hd) as (_ & -> & _).
  - intros (e & He & Hu). exists e.
    destruct (Hclean g e He) as (Hg & Hname & _).
    split; [|done].
    apply list_elem_of_lookup in Hg as [i Hi].
    destruct (Forall2_lookup_l _ _ _ _ _ Hes Hi) as (e' & He' & Hd).
    apply list_elem_of_lookup. exists i. congruence.
Qed.
End GroupRoundTrip.

Lemma _writeGroup_then_parse_witness :
  (_writeGroup "strict_pgs" sample sample_disk).1 = Return tt
  ∧ group (backups (_writeGroup "strict_pgs" sample sample_disk).2)
    = group (current sample_disk)
  ∧ ∃ index,
      @_parseGroup demo
        (group (current (_writeGroup "strict_pgs" sample sample_disk).2))
        (normalUserList sample) sample_blank
      = (Return tt,
         set_systemGroupList (λ _, systemGroupList sample)
           (set_perUserGroupList (λ _, perUserGroupList sample)
              (set_standAloneGroupList (λ _, standAloneGroupList sample)
                 (set_deviceGroupList (λ _, deviceGroupList sample)
                    (set_softwareGroupList (λ _, softwareGroupList sample)
                       (set_deprecatedGroupList (λ _, deprecatedGroupList sample)
                          (set_secondaryGroupsDict (λ _, index)
                             (set_grpDict
                                (λ _, with_gr_passwd "x" <$> grpDict sample)
                                sample_blank))))))))
      ∧ ∀ u g, g ∈ default [] (index !! u)
               ↔ ∃ e, grpDict sample !! g = Some e
                      ∧ u ∈ _nonEmptySplit (gr_mem e) comma.
Proof.
  apply (@_writeGroup_then_parse demo demo_int_reads_fmt_d).
  - reflexivity.
  - vm_compute. by eexists.
  - apply (by_computation (group_writable sample)). vm_compute. reflexivity.
  - reflexivity.
  - reflexivity.
  - reflexivity.
  - reflexivity.
Defined.

(** ** Closing and opening again *)




Section CloseReopen.
Context `{Externals}.
Variable re_search : string → string → option string.
Hypothesis int_fmt_d : int_reads_fmt_d.

End CloseReopen.

(** ** Reading login.defs *)

Lemma obind_Return {A B} (o : Outcome A) (k : A → Outcome B) (b : B) :
  obind o k = Return b → ∃ a, o = Return a ∧ k a = Return b.
Proof. destruct o as [a|e]; cbn; [by eauto|discriminate]. Qed.

Section ParseLoginDefFacts.
Context `{Externals}.
Variable re_search : string → string → option string.

(** When [_parseLoginDef] returns, the three ranges are not empty the wrong
    way round, the two block sizes are not zero, and each subordinate
    range is a whole number of blocks. *)
Theorem _parseLoginDef_Return (loginDefFile : option string) (ld : LoginDefs) :
  _parseLoginDef re_search loginDefFile = Return ld → policy_ok ld.
Proof.
  unfold _parseLoginDef. destruct loginDefFile as [content|]; [|discriminate].
  cbn [_readFile obind]. intros Hrun.
  do 10 (apply obind_Return in Hrun as (? & _ & Hrun)).
  revert Hrun.
  repeat match goal with
         | |- context [raise_if (?a <? ?b) _] =>
             destruct (a <? b) eqn:?; cbn [raise_if obind]; [discriminate|]
         | |- context [py_mod ?a ?b] =>
             unfold py_mod at 1; destruct (b =? 0) eqn:?; cbn [obind];
             [discriminate|]
         | |- context [raise_if (negb (?a =? 0)) _] =>
             destruct (a =? 0) eqn:?; cbn [negb raise_if obind]; [|discriminate]
         end.
  intros [= <-].
  repeat match goal with
         | E : (_ <? _) = false |- _ => apply Z.ltb_ge in E
         | E : (_ =? _) = false |- _ => apply Z.eqb_neq in E
         | E : (_ =? _) = true |- _ => apply Z.eqb_eq in E
         end.
  split; cbn; try split; try assumption; lia.
Qed.

(** A login.defs whose ranges are in order and whose SUB_UID_COUNT is 0,
    or whose subordinate uid range is aligned and whose SUB_GID_COUNT is 0,
    is not rejected with [PgsFormatError]: the alignment check divides by
    the count, and [_parseLoginDef] raises [ZeroDivisionError]. *)
Theorem _parseLoginDef_zero_count (content : string) (ld : LoginDefs) :
  reads re_search (universal_newlines content) ld →
  uidMin ld ≤ uidMax ld → gidMin ld ≤ gidMax ld →
  subUidMin ld ≤ subUidMax ld → subGidMin ld ≤ subGidMax ld →
  subUidCount ld = 0
  ∨ (subUidMax ld - subUidMin ld) mod subUidCount ld = 0
    ∧ subGidCount ld = 0 →
  _parseLoginDef re_search (Some content) = Raise ZeroDivisionError.
Proof.
  unfold _parseLoginDef, reads. cbn [_readFile obind].
  intros (-> & -> & -> & -> & -> & -> & -> & -> & -> & ->) Hu Hg Hsu Hsg Hzero.
  cbn [obind].
  apply Z.ltb_ge in Hu, Hg, Hsu, Hsg. rewrite Hu, Hg, Hsu, Hsg.
  cbn [raise_if obind]. unfold py_mod.
  destruct (subUidCount ld =? 0) eqn:Ec; cbn [obind]; [reflexivity|].
  apply Z.eqb_neq in Ec.
  destruct Hzero as [Hz|[Hm Hz]]; [contradiction|].
  rewrite Hm, Hz. reflexivity.
Qed.
End ParseLoginDefFacts.

Lemma _parseLoginDef_Return_witness :
  _parseLoginDef (H := demo) search_lines (Some stock_login_defs)
    = Return stock_defs
  ∧ policy_ok stock_defs.
Proof.
  assert (Hrun : _parseLoginDef (H := demo) search_lines (Some stock_login_defs)
                 = Return stock_defs) by (vm_compute; reflexivity).
  split; [exact Hrun|].
  exact (_parseLoginDef_Return (H := demo) search_lines _ _ Hrun).
Defined.

Lemma _parseLoginDef_zero_count_witness :
  reads (H := demo) search_lines (universal_newlines zero_count_login_defs)
    zero_count_defs
  ∧ _parseLoginDef (H := demo) search_lines (Some zero_count_login_defs)
    = Raise ZeroDivisionError.
Proof.
  assert (Hr : reads (H := demo) search_lines
                 (universal_newlines zero_count_login_defs) zero_count_defs)
    by (vm_compute; repeat split).
  split; [exact Hr|].
  apply (_parseLoginDef_zero_count (H := demo) search_lines
           zero_count_login_defs zero_count_defs Hr); cbn; lia.
Defined.
(** ** Closing an object that holds a stand-alone group *)

(** A writable object with a stand-alone group on its list is not saved:
    [close] ends with the [AttributeError] of [_fixate], before the first
    file is rewritten or copied aside. *)
Theorem close_standAlone_writes_nothing (lockFd : option Z) (msrc : string)
    (self : PasswdGroupShadow) (disk : Disk) :
  valid self = true →
  stage1_ok self →
  listed_in (systemUserList self ++ softwareUserList self) (pwdDict self) →
  standAloneGroupList self ≠ [] →
  (close false lockFd msrc self disk).1 = Raise (AttributeError "pw_gid")
  ∧ (close false lockFd msrc self disk).2.2 = disk.
Proof.
  intros Hvalid Hok Hrec Hne.
  pose proof (sort_standAlone_raises self Hok Hrec Hne) as Hraise.
  unfold close. rewrite Hvalid. cbn [negb].
  destruct (_fixate self) as [[[]|e] self1]; cbn in Hraise; [discriminate|].
  injection Hraise as ->. by split.
Qed.

Lemma close_standAlone_writes_nothing_witness :
  (close false (Some 3) "strict_pgs" sample_staff sample_disk).1
    = Raise (AttributeError "pw_gid")
  ∧ (close false (Some 3) "strict_pgs" sample_staff sample_disk).2.2
    = sample_disk.
Proof.
  apply close_standAlone_writes_nothing.
  - reflexivity.
  - apply _verifyStage1_Return. vm_compute. reflexivity.
  - apply (by_computation (Forall _ _)). vm_compute. reflexivity.
  - vm_compute. discriminate.
Defined.
